(** * Approval-gated execution in the database agent

    A shallow embedding of the approval manager
    ([agent/simple_approval.py]), of the conversation workflow that
    consults it ([agent/main_agent.py]) and of the cancellable response
    stream ([main.py]), together with the properties the specification
    states about them.

    Python [str] values are sequences of Unicode code points, modelled
    as [list N].  Dictionaries keyed by identifiers are [gmap]s.  The
    clock ([datetime.now()]) is an explicit argument in microseconds. *)

From Stdlib Require Import NArith ZArith Bool Ascii String Lia.
From stdpp Require Import gmap list.

Local Open Scope N_scope.

(** ** Text: code points, whitespace, case *)

Module Text.

Abbreviation str := (list N).

(** A literal of the source, given by its ASCII text. *)
Definition u (s : string) : str := List.map N_of_ascii (list_ascii_of_string s).
Arguments u s%_string.

(** The code points for which [str.isspace] holds; [str.strip] and the
    pattern class [\s] both use this set. *)
Definition space_points : list N :=
  [9; 10; 11; 12; 13; 28; 29; 30; 31; 32; 133; 160; 5760;
   8192; 8193; 8194; 8195; 8196; 8197; 8198; 8199; 8200; 8201; 8202;
   8232; 8233; 8239; 8287; 12288].

Definition is_space (c : N) : bool := existsb (N.eqb c) space_points.

Fixpoint lstrip (s : str) : str :=
  match s with
  | [] => []
  | c :: s' => if is_space c then lstrip s' else s
  end.

Fixpoint rstrip (s : str) : str :=
  match s with
  | [] => []
  | c :: s' =>
      match rstrip s' with
      | [] => if is_space c then [] else [c]
      | r => c :: r
      end
  end.

(** [s.strip()] *)
Definition strip (s : str) : str := rstrip (lstrip s).

(** Truthiness of a Python string. *)
Definition truthy (s : str) : bool := match s with [] => false | _ => true end.

Definition is_ascii_upper (c : N) : bool := (65 <=? c) && (c <=? 90).
Definition is_ascii_lower (c : N) : bool := (97 <=? c) && (c <=? 122).
Definition is_ascii_digit (c : N) : bool := (48 <=? c) && (c <=? 57).

Definition ascii_lower (c : N) : N := if is_ascii_upper c then c + 32 else c.
Definition ascii_upper (c : N) : N := if is_ascii_lower c then c - 32 else c.

(** [str.upper] on one code point.  The table lists every code point
    whose uppercase form contains an ASCII letter: the ASCII letters
    themselves and the special casings of U+00DF, U+0131, U+017F,
    U+01F0, U+1E96..U+1E9A and U+FB00..U+FB06.  Any other code point
    uppercases to code points outside ASCII and keeps its
    whitespace status; it is left in place, which changes neither a
    comparison with an ASCII keyword nor what [strip] removes. *)
Definition upper_char (c : N) : list N :=
  if is_ascii_lower c then [c - 32]
  else if c =? 223 then [83; 83]
  else if c =? 305 then [73]
  else if c =? 383 then [83]
  else if c =? 496 then [74; 780]
  else if c =? 7830 then [72; 817]
  else if c =? 7831 then [84; 776]
  else if c =? 7832 then [87; 778]
  else if c =? 7833 then [89; 778]
  else if c =? 7834 then [65; 702]
  else if c =? 64256 then [70; 70]
  else if c =? 64257 then [70; 73]
  else if c =? 64258 then [70; 76]
  else if c =? 64259 then [70; 70; 73]
  else if c =? 64260 then [70; 70; 76]
  else if c =? 64261 then [83; 84]
  else if c =? 64262 then [83; 84]
  else [c].

(** [s.upper()] *)
Definition upper (s : str) : str := flat_map upper_char s.

(** [str.lower] on one code point; as for [upper_char], only the code
    points whose lowercase form contains an ASCII letter are listed
    (the ASCII capitals, U+0130 and U+212A). *)
Definition lower_char (c : N) : list N :=
  if is_ascii_upper c then [c + 32]
  else if c =? 304 then [105; 775]
  else if c =? 8490 then [107]
  else [c].

(** [s.lower()] *)
Definition lower (s : str) : str := flat_map lower_char s.

Fixpoint starts_with (p s : str) : bool :=
  match p, s with
  | [], _ => true
  | a :: p', b :: s' => (a =? b) && starts_with p' s'
  | _ :: _, [] => false
  end.

(** [needle in s] *)
Fixpoint contains (needle s : str) : bool :=
  starts_with needle s ||
  match s with
  | [] => false
  | _ :: s' => contains needle s'
  end.

(** [a == b] *)
Fixpoint str_eqb (a b : str) : bool :=
  match a, b with
  | [], [] => true
  | x :: a', y :: b' => (x =? y) && str_eqb a' b'
  | _, _ => false
  end.

(** [s.split()]: the maximal runs of non-whitespace code points. *)
Fixpoint split_ws_aux (cur : str) (s : str) : list str :=
  match s with
  | [] => match cur with [] => [] | _ => [rev cur] end
  | c :: s' =>
      if is_space c
      then match cur with [] => split_ws_aux [] s' | _ => rev cur :: split_ws_aux [] s' end
      else split_ws_aux (c :: cur) s'
  end.

Definition split_ws (s : str) : list str := split_ws_aux [] s.

(** [sep.join(parts)] *)
Fixpoint join (sep : str) (parts : list str) : str :=
  match parts with
  | [] => []
  | [p] => p
  | p :: rest => p ++ sep ++ join sep rest
  end.

End Text.
Export Text.

(** ** Regular expressions, as the [re] module runs them *)

Module Regex.

(** The fragment of pattern syntax the source uses.  Repetition is only
    ever applied to a single character class. *)
Inductive regex : Type :=
| Eps
| Chr (p : N -> bool)
| Seq (r1 r2 : regex)
| Star (p : N -> bool)
| Plus (p : N -> bool)
| Opt (r : regex).

(** Under [re.IGNORECASE] a pattern letter matches every code point of
    its case class.  [fold_case] sends each code point of a class that
    contains an ASCII letter to that letter in lowercase: the ASCII
    capitals, and U+0130, U+0131 (i), U+017F (s), U+212A (k). *)
Definition fold_case (c : N) : N :=
  if is_ascii_upper c then c + 32
  else if c =? 304 then 105
  else if c =? 305 then 105
  else if c =? 383 then 115
  else if c =? 8490 then 107
  else c.

(** An ASCII pattern character [p] against the subject code point [c]. *)
Definition ci_lit (p c : N) : bool := fold_case c =? ascii_lower p.

(** [.] without [re.DOTALL] *)
Definition dot (c : N) : bool := negb (c =? 10).

Fixpoint cat (rs : list regex) : regex :=
  match rs with
  | [] => Eps
  | r :: rs' => Seq r (cat rs')
  end.

(** A keyword, matched letter by letter. *)
Definition kw (w : str) : regex := cat (List.map (fun p => Chr (ci_lit p)) w).

(** Greedy repetition of a class, then the continuation; on failure
    give back one code point at a time. *)
Fixpoint star_k {R} (p : N -> bool) (k : str -> option R) (s : str) : option R :=
  match s with
  | [] => k []
  | c :: s' =>
      if p c
      then match star_k p k s' with
           | Some x => Some x
           | None => k s
           end
      else k s
  end.

(** Backtracking match of [r] at the start of [s]; [k] receives what is
    left of the subject and may reject it. *)
Fixpoint rmatch {R} (r : regex) (s : str) (k : str -> option R) : option R :=
  match r with
  | Eps => k s
  | Chr p =>
      match s with
      | c :: s' => if p c then k s' else None
      | [] => None
      end
  | Seq r1 r2 => rmatch r1 s (fun s1 => rmatch r2 s1 k)
  | Star p => star_k p k s
  | Plus p =>
      match s with
      | c :: s' => if p c then star_k p k s' else None
      | [] => None
      end
  | Opt r1 =>
      match rmatch r1 s k with
      | Some x => Some x
      | None => k s
      end
  end.

(** [bool(pattern.match(s))] for a pattern anchored with [^]. *)
Definition re_match (r : regex) (s : str) : bool :=
  match rmatch r s (fun _ => Some tt) with
  | Some _ => true
  | None => false
  end.

(** [re.search]: the first start position at which the match succeeds. *)
Fixpoint search {R} (r : regex) (k : str -> option R) (s : str) : option R :=
  match rmatch r s k with
  | Some x => Some x
  | None =>
      match s with
      | [] => None
      | _ :: s' => search r k s'
      end
  end.

Fixpoint take_while (p : N -> bool) (s : str) : str :=
  match s with
  | c :: s' => if p c then c :: take_while p s' else []
  | [] => []
  end.

(** A final group [(p+)]: the longest non-empty run of [p]. *)
Definition capture_run (p : N -> bool) (s : str) : option str :=
  match take_while p s with
  | [] => None
  | w => Some w
  end.

End Regex.
Export Regex.

(** ** The approval manager ([agent/simple_approval.py]) *)

Inductive ApprovalStatus : Type := PENDING | APPROVED | DENIED | EXPIRED.

#[global] Instance ApprovalStatus_eq_dec : EqDecision ApprovalStatus.
Proof. solve_decision. Defined.

(** [ApprovalStatus.X.value] *)
Definition status_value (s : ApprovalStatus) : str :=
  match s with
  | PENDING => u "pending"
  | APPROVED => u "approved"
  | DENIED => u "denied"
  | EXPIRED => u "expired"
  end.

(** One entry of [pending_approvals].  Timestamps are microseconds;
    [ar_expires_at] is [None] when the stored text would not parse as
    an ISO date. *)
Record Approval : Type := {
  ar_id : str;
  ar_sql_query : str;
  ar_operation_type : str;
  ar_table_name : option str;
  ar_description : str;
  ar_status : ApprovalStatus;
  ar_created_at : Z;
  ar_expires_at : option Z;
  ar_approved_at : option Z;
  ar_denied_at : option Z;
  ar_approved_by : option str
}.

Record OperationInfo : Type := {
  operation_type : str;
  table_name : option str;
  description : str
}.

Record SimpleApprovalManager : Type := {
  pending_approvals : gmap str Approval;
  timeout_seconds : Z
}.

(** What [get_approval_status] returns. *)
Inductive StatusReply : Type :=
| StatusNotFound
| StatusExpired (approval_id : str)
| StatusKnown (approval_id : str) (status : ApprovalStatus)
    (requires_approval : bool) (approval_request : Approval).

(** [reply.get("status", "")] *)
Definition reply_status (r : StatusReply) : str :=
  match r with
  | StatusNotFound => []
  | StatusExpired _ => status_value EXPIRED
  | StatusKnown _ s _ _ => status_value s
  end.

Inductive DecisionError : Type :=
| NotFound
| NotPending (current : ApprovalStatus)
| Expired.

(** What [approve_operation] and [deny_operation] return. *)
Inductive DecisionReply : Type :=
| DecisionOk (approval_id : str) (status : ApprovalStatus)
| DecisionFailed (e : DecisionError).

(** [reply["success"]] *)
Definition success (r : DecisionReply) : bool :=
  match r with
  | DecisionOk _ _ => true
  | DecisionFailed _ => false
  end.

(** [reply["error"]] *)
Definition error_message (e : DecisionError) : str :=
  match e with
  | NotFound => u "Approval request not found"
  | NotPending s =>
      u "Approval request is not pending (current status: " ++ status_value s ++ u ")"
  | Expired => u "Approval request has expired"
  end.

(** ** The conversation state ([agent/main_agent.py]) *)

Inductive Message : Type :=
| HumanMessage (content : str)
| AIMessage (content : str).

Definition content (m : Message) : str :=
  match m with
  | HumanMessage c => c
  | AIMessage c => c
  end.

(** The [context] dictionary, one optional field per key the workflow
    writes or reads. *)
Record Context : Type := {
  cx_operation_result : option str;
  cx_sql_query : option str;
  cx_sql_executed : option str;
  cx_requires_approval : option bool;
  cx_approval_id : option str;
  cx_sql_generated : option str;
  cx_execution_successful : option bool
}.

Definition empty_context : Context :=
  {| cx_operation_result := None; cx_sql_query := None; cx_sql_executed := None;
     cx_requires_approval := None; cx_approval_id := None;
     cx_sql_generated := None; cx_execution_successful := None |}.

Record ConversationState : Type := {
  messages : list Message;
  next_action : option str;
  context : option Context;
  pending_query : option str;
  human_approval : option bool;
  approval_pending : option bool;
  approval_id : option str
}.

(** What [execute_sql_query] returns: the ["success"] and ["error"]
    entries and the JSON rendering of the whole dictionary. *)
Record ExecResult : Type := {
  ex_success : bool;
  ex_error : option str;
  ex_json : str
}.

(** The outcome of the statement-generation part of
    [_database_operation] (table detection, schema lookup, the model
    call and [_extract_sql_from_text]). *)
Inductive Generation : Type :=
| NoTableToCreate
| NoTableMentioned
| Generated (is_create_request : bool) (sql_query : str)
| GenerationRaised (e : str).

(** A computation that may raise. *)
Inductive outcome (A : Type) : Type :=
| Return (a : A)
| Raise (e : str).
Arguments Return {A} a.
Arguments Raise {A} e.

Definition bind {A B} (x : outcome A) (f : A -> outcome B) : outcome B :=
  match x with
  | Return a => f a
  | Raise e => Raise e
  end.

Notation "x <- c ;; k" := (bind c (fun x => k))
  (at level 100, c at next level, right associativity).

(** Truthiness of optional values. *)
Definition truthy_str (o : option str) : bool :=
  match o with Some s => truthy s | None => false end.
Definition truthy_bool (o : option bool) : bool :=
  match o with Some b => b | None => false end.

(** [a or b] on optional strings. *)
Definition or_str (a b : option str) : option str :=
  if truthy_str a then a else b.

Definition nl : str := [10].
Definition sql_block (sql_query : str) : str :=
  u "```sql" ++ nl ++ sql_query ++ nl ++ u "```".
Definition warning_sign : str := [9888; 65039].
Definition check_mark : str := [9989].
Definition cross_mark : str := [10060].

(** ** Collaborators

    What the agent reaches outside the repository: the database engine,
    the language model, the identifier generator and the Unicode
    character database. *)
Class Collaborators : Type := {
  (** The database behind the engine. *)
  DB : Type;
  (** [execute_sql_query]: runs the statement; failures come back as data. *)
  execute_sql_query : DB -> str -> DB * ExecResult;
  (** The text the routing model returns for the last message, [None]
      when the call raises. *)
  llm_router_reply : str -> option str;
  (** Statement generation for the last message; it reads the table
      schemas from the database. *)
  generate_sql : DB -> str -> Generation;
  (** The text [_generate_response] appends when it composes the answer
      with the model (the model's reply, or the error text when the
      call raises). *)
  llm_response : ConversationState -> str;
  (** [str(uuid.uuid4())]: the identifier returned by the n-th draw. *)
  uuid4 : nat -> str;
  (** The microseconds that pass, inside one turn, between the clock
      reading at which a request is filed and the reading at which the
      edge after the approval node asks for its status; the argument
      is the number of identifiers drawn when the node starts. *)
  gate_latency : nat -> N;
  (** [str.isalnum] on the code points above ASCII. *)
  isalnum_beyond_ascii : N -> bool
}.

Section Agent.

Context `{Collaborators}.

(** The pattern class [\w]. *)
Definition is_word (c : N) : bool :=
  if c <? 128
  then is_ascii_upper c || is_ascii_lower c || is_ascii_digit c || (c =? 95)
  else isalnum_beyond_ascii c.

Definition dangerous_patterns : list regex :=
  [ cat [Star is_space; kw (u "DROP"); Plus is_space];
    cat [Star is_space; kw (u "DELETE"); Plus is_space; kw (u "FROM"); Plus is_space];
    cat [Star is_space; kw (u "ALTER"); Plus is_space; kw (u "TABLE"); Plus is_space];
    cat [Star is_space; kw (u "TRUNCATE"); Plus is_space; kw (u "TABLE"); Plus is_space];
    cat [Star is_space; kw (u "UPDATE"); Plus is_space; Star dot; Plus is_space;
         kw (u "SET"); Plus is_space; Star dot; Plus is_space;
         kw (u "WHERE"); Plus is_space; kw (u "1"); Star is_space; kw (u "=");
         Star is_space; kw (u "1")] ].

Definition safe_patterns : list regex :=
  [ cat [Star is_space; kw (u "SELECT"); Plus is_space];
    cat [Star is_space; kw (u "INSERT"); Plus is_space; kw (u "INTO"); Plus is_space];
    cat [Star is_space; kw (u "CREATE"); Plus is_space; kw (u "TABLE"); Plus is_space];
    cat [Star is_space; kw (u "SHOW"); Plus is_space];
    cat [Star is_space; kw (u "DESCRIBE"); Plus is_space] ].

Definition is_dangerous_operation (sql_query : str) : bool :=
  if negb (truthy sql_query) || negb (truthy (strip sql_query)) then false
  else if existsb (fun pattern => re_match pattern sql_query) safe_patterns then false
  else if existsb (fun pattern => re_match pattern sql_query) dangerous_patterns then true
  else false.

Definition table_name_patterns : list regex :=
  [ cat [kw (u "DROP"); Plus is_space; kw (u "TABLE"); Plus is_space;
         Opt (cat [kw (u "IF"); Plus is_space; kw (u "EXISTS"); Plus is_space])];
    cat [kw (u "DELETE"); Plus is_space; kw (u "FROM"); Plus is_space];
    cat [kw (u "ALTER"); Plus is_space; kw (u "TABLE"); Plus is_space];
    cat [kw (u "TRUNCATE"); Plus is_space; kw (u "TABLE"); Plus is_space];
    cat [kw (u "UPDATE"); Plus is_space] ].

(** Each pattern ends in the group [(\w+)], whose text is returned. *)
Fixpoint first_table_name (patterns : list regex) (sql_query : str) : option str :=
  match patterns with
  | [] => None
  | pattern :: rest =>
      match search pattern (capture_run is_word) sql_query with
      | Some name => Some name
      | None => first_table_name rest sql_query
      end
  end.

Definition _extract_table_name (sql_query : str) : option str :=
  first_table_name table_name_patterns sql_query.

Definition get_operation_info (sql_query : str) : OperationInfo :=
  let query_upper := strip (upper sql_query) in
  let operation_type :=
    if starts_with (u "DROP") query_upper then u "DROP"
    else if starts_with (u "DELETE") query_upper then u "DELETE"
    else if starts_with (u "ALTER") query_upper then u "ALTER"
    else if starts_with (u "TRUNCATE") query_upper then u "TRUNCATE"
    else if starts_with (u "UPDATE") query_upper then u "UPDATE"
    else u "UNKNOWN" in
  let table_name := _extract_table_name sql_query in
  let description :=
    operation_type ++ u " operation" ++
    match table_name with
    | Some t => if truthy t then u " on table '" ++ t ++ u "'" else []
    | None => []
    end in
  {| operation_type := operation_type;
     table_name := table_name;
     description := description |}.

(** *** The ledger operations

    [now] is the reading of [datetime.now()] during the call (one call
    of the manager that reads the clock twice reads it within the same
    microsecond here; two calls of the manager read it separately);
    [approval_id] in [create_approval_request] is the value drawn by
    [uuid.uuid4()]. *)

Definition with_status (s : ApprovalStatus) (a : Approval) : Approval :=
  {| ar_id := ar_id a; ar_sql_query := ar_sql_query a;
     ar_operation_type := ar_operation_type a; ar_table_name := ar_table_name a;
     ar_description := ar_description a; ar_status := s;
     ar_created_at := ar_created_at a; ar_expires_at := ar_expires_at a;
     ar_approved_at := ar_approved_at a; ar_denied_at := ar_denied_at a;
     ar_approved_by := ar_approved_by a |}.

Definition with_pending (p : gmap str Approval) (m : SimpleApprovalManager)
  : SimpleApprovalManager :=
  {| pending_approvals := p; timeout_seconds := timeout_seconds m |}.

(** [SimpleApprovalManager(timeout_minutes)] *)
Definition new_manager (timeout_minutes : Z) : SimpleApprovalManager :=
  {| pending_approvals := ∅; timeout_seconds := timeout_minutes * 60 |}.

Definition _is_expired (now : Z) (approval : Approval) : bool :=
  match ar_expires_at approval with
  | Some expires_at => (expires_at <? now)%Z
  | None => true
  end.

Definition create_approval_request (approval_id : str) (now : Z) (sql_query : str)
    (m : SimpleApprovalManager) : SimpleApprovalManager * Approval :=
  let timestamp := now in
  let expires_at := (timestamp + timeout_seconds m * 1000000)%Z in
  let operation_info := get_operation_info sql_query in
  let approval_request :=
    {| ar_id := approval_id;
       ar_sql_query := sql_query;
       ar_operation_type := operation_type operation_info;
       ar_table_name := table_name operation_info;
       ar_description := description operation_info;
       ar_status := PENDING;
       ar_created_at := timestamp;
       ar_expires_at := Some expires_at;
       ar_approved_at := None;
       ar_denied_at := None;
       ar_approved_by := None |} in
  (with_pending (<[approval_id := approval_request]> (pending_approvals m)) m,
   approval_request).

Definition get_approval_status (now : Z) (approval_id : str)
    (m : SimpleApprovalManager) : SimpleApprovalManager * StatusReply :=
  match pending_approvals m !! approval_id with
  | None => (m, StatusNotFound)
  | Some approval =>
      if _is_expired now approval
      then (with_pending (<[approval_id := with_status EXPIRED approval]> (pending_approvals m)) m,
            StatusExpired approval_id)
      else (m, StatusKnown approval_id (ar_status approval)
                 (bool_decide (ar_status approval = PENDING)) approval)
  end.

Definition approve_operation (now : Z) (approval_id approved_by : str)
    (m : SimpleApprovalManager) : SimpleApprovalManager * DecisionReply :=
  match pending_approvals m !! approval_id with
  | None => (m, DecisionFailed NotFound)
  | Some approval =>
      if negb (bool_decide (ar_status approval = PENDING))
      then (m, DecisionFailed (NotPending (ar_status approval)))
      else if _is_expired now approval
      then (with_pending (<[approval_id := with_status EXPIRED approval]> (pending_approvals m)) m,
            DecisionFailed Expired)
      else
        let approval' :=
          {| ar_id := ar_id approval; ar_sql_query := ar_sql_query approval;
             ar_operation_type := ar_operation_type approval;
             ar_table_name := ar_table_name approval;
             ar_description := ar_description approval;
             ar_status := APPROVED;
             ar_created_at := ar_created_at approval;
             ar_expires_at := ar_expires_at approval;
             ar_approved_at := Some now;
             ar_denied_at := ar_denied_at approval;
             ar_approved_by := Some approved_by |} in
        (with_pending (<[approval_id := approval']> (pending_approvals m)) m,
         DecisionOk approval_id APPROVED)
  end.

Definition deny_operation (now : Z) (approval_id denied_by : str)
    (m : SimpleApprovalManager) : SimpleApprovalManager * DecisionReply :=
  match pending_approvals m !! approval_id with
  | None => (m, DecisionFailed NotFound)
  | Some approval =>
      if negb (bool_decide (ar_status approval = PENDING))
      then (m, DecisionFailed (NotPending (ar_status approval)))
      else
        let approval' :=
          {| ar_id := ar_id approval; ar_sql_query := ar_sql_query approval;
             ar_operation_type := ar_operation_type approval;
             ar_table_name := ar_table_name approval;
             ar_description := ar_description approval;
             ar_status := DENIED;
             ar_created_at := ar_created_at approval;
             ar_expires_at := ar_expires_at approval;
             ar_approved_at := ar_approved_at approval;
             ar_denied_at := Some now;
             ar_approved_by := Some denied_by |} in
        (with_pending (<[approval_id := approval']> (pending_approvals m)) m,
         DecisionOk approval_id DENIED)
  end.

(** The first loop of [get_pending_approvals] marks every expired
    entry; the second deletes the entries it marked. *)
Definition mark_expired (now : Z) (approval : Approval) : Approval :=
  if _is_expired now approval then with_status EXPIRED approval else approval.

Definition still_valid (now : Z) (entry : str * Approval) : Prop :=
  _is_expired now entry.2 = false.

#[global] Instance still_valid_dec now entry : Decision (still_valid now entry).
Proof. unfold still_valid. solve_decision. Defined.

(** Returns the ledger and the list under ["pending_approvals"]; the
    list is in the map's key order, not in insertion order. *)
Definition get_pending_approvals (now : Z) (m : SimpleApprovalManager)
  : SimpleApprovalManager * list Approval :=
  let marked := mark_expired now <$> pending_approvals m in
  let pending :=
    List.filter
      (fun approval => negb (_is_expired now approval)
                       && bool_decide (ar_status approval = PENDING))
      (map_to_list (pending_approvals m)).*2 in
  (with_pending (filter (still_valid now) marked) m, pending).

Definition cleanup_expired_approvals (now : Z) (m : SimpleApprovalManager)
  : SimpleApprovalManager * nat :=
  let expired_ids :=
    List.filter (fun entry : str * Approval => _is_expired now entry.2)
      (map_to_list (pending_approvals m)) in
  (with_pending (filter (still_valid now) (pending_approvals m)) m,
   length expired_ids).

(** ** The conversation workflow: nodes, graph and [chat] *)

(** The runtime: the shared approval manager, the checkpointer's state
    per thread, the database, the log of statements handed to
    [execute_sql_query], and the number of identifiers drawn so far. *)
Record World : Type := {
  manager : SimpleApprovalManager;
  threads : gmap str ConversationState;
  database : DB;
  executed : list str;
  uuid_draws : nat
}.

Definition with_manager (m : SimpleApprovalManager) (w : World) : World :=
  {| manager := m; threads := threads w; database := database w;
     executed := executed w; uuid_draws := uuid_draws w |}.

Definition with_threads (t : gmap str ConversationState) (w : World) : World :=
  {| manager := manager w; threads := t; database := database w;
     executed := executed w; uuid_draws := uuid_draws w |}.

(** One call of the executor, recorded in the log. *)
Definition run_executor (sql_query : str) (w : World) : World * ExecResult :=
  let '(db, result) := execute_sql_query (database w) sql_query in
  ({| manager := manager w; threads := threads w; database := db;
      executed := executed w ++ [sql_query]; uuid_draws := uuid_draws w |}, result).

(** One draw of [uuid.uuid4()]. *)
Definition draw_uuid (w : World) : str * World :=
  (uuid4 (uuid_draws w),
   {| manager := manager w; threads := threads w; database := database w;
      executed := executed w; uuid_draws := S (uuid_draws w) |}).

Definition with_context (c : option Context) (st : ConversationState) : ConversationState :=
  {| messages := messages st; next_action := next_action st; context := c;
     pending_query := pending_query st; human_approval := human_approval st;
     approval_pending := approval_pending st; approval_id := approval_id st |}.

Definition with_human_approval (h : option bool) (st : ConversationState) : ConversationState :=
  {| messages := messages st; next_action := next_action st; context := context st;
     pending_query := pending_query st; human_approval := h;
     approval_pending := approval_pending st; approval_id := approval_id st |}.

Definition with_next_action (a : option str) (st : ConversationState) : ConversationState :=
  {| messages := messages st; next_action := a; context := context st;
     pending_query := pending_query st; human_approval := human_approval st;
     approval_pending := approval_pending st; approval_id := approval_id st |}.

Definition append_message (m : Message) (st : ConversationState) : ConversationState :=
  {| messages := messages st ++ [m]; next_action := next_action st;
     context := context st; pending_query := pending_query st;
     human_approval := human_approval st;
     approval_pending := approval_pending st; approval_id := approval_id st |}.

(** [messages[-1].content if messages else ""] *)
Definition last_message (st : ConversationState) : str :=
  match last (messages st) with
  | Some m => content m
  | None => []
  end.

(** [state.get("context", {})]: the key is always present, so a [None]
    value is what comes back, and reading a key from it raises. *)
Definition context_of (st : ConversationState) : outcome Context :=
  match context st with
  | Some c => Return c
  | None => Raise (u "'NoneType' object has no attribute 'get'")
  end.

Definition _llm_router (st : ConversationState) : ConversationState :=
  match llm_router_reply (last_message st) with
  | Some reply =>
      let action := lower (strip reply) in
      if existsb (str_eqb action)
           [u "database_operation"; u "response"; u "end"]
      then with_next_action (Some action) st
      else with_next_action (Some (u "response")) st
  | None => with_next_action (Some (u "response")) st
  end.

Definition _should_continue (st : ConversationState) : option str := next_action st.

Definition _needs_human_approval (st : ConversationState) : outcome str :=
  context <- context_of st;;
  let sql_query := or_str (cx_sql_query context) (cx_sql_executed context) in
  if truthy_bool (cx_requires_approval context) && truthy_str sql_query
  then Return (u "human_approval")
  else Return (u "response").

Definition approval_message (operation_type : str) (table_name : option str)
    (pending_query approval_id : str) : str :=
  nl ++ warning_sign ++ u " **DANGEROUS OPERATION DETECTED** " ++ warning_sign ++ nl ++ nl
  ++ u "I need your approval to execute this potentially dangerous database operation:"
  ++ nl ++ nl
  ++ u "**Operation Type:** " ++ operation_type ++ nl
  ++ u "**Table:** "
  ++ (match table_name with
      | Some t => if truthy t then t else u "Unknown"
      | None => u "Unknown"
      end) ++ nl
  ++ u "**SQL Query:**" ++ nl ++ sql_block pending_query ++ nl ++ nl
  ++ u "This operation could modify or delete data in your database. Please review the query above and confirm your decision."
  ++ nl ++ nl
  ++ u "**Approval ID:** " ++ approval_id ++ nl.

Definition _human_approval (now : Z) (st : ConversationState) (w : World)
  : outcome (ConversationState * World) :=
  context <- context_of st;;
  let query :=
    match cx_sql_executed context with Some q => q | None => [] end in
  if negb (truthy query)
  then Return (with_human_approval (Some false) st, w)
  else if negb (is_dangerous_operation query)
  then Return (with_human_approval (Some true) st, w)
  else
    let '(fresh_id, w) := draw_uuid w in
    let '(m, approval_request) :=
      create_approval_request fresh_id now query (manager w) in
    let approval_id := ar_id approval_request in
    let message :=
      approval_message (ar_operation_type approval_request)
        (ar_table_name approval_request) query approval_id in
    Return
      ({| messages := messages st; next_action := next_action st;
          context :=
            Some {| cx_operation_result := Some message;
                    cx_sql_query := None;
                    cx_sql_executed := Some query;
                    cx_requires_approval := Some true;
                    cx_approval_id := Some approval_id;
                    cx_sql_generated := None;
                    cx_execution_successful := None |};
          pending_query := pending_query st;
          human_approval := None;
          approval_pending := Some true;
          approval_id := Some approval_id |},
       with_manager m w).

Definition _handle_human_decision (now : Z) (st : ConversationState) (w : World)
  : ConversationState * World * str :=
  if negb (truthy_str (approval_id st))
  then (with_human_approval (Some false) st, w, u "response")
  else
    let approval_id := match approval_id st with Some i => i | None => [] end in
    let '(m, approval_status) := get_approval_status now approval_id (manager w) in
    let status := lower (reply_status approval_status) in
    if str_eqb status (u "approved")
    then (with_human_approval (Some true) st, with_manager m w, u "database_operation")
    else if existsb (str_eqb status) [u "denied"; u "expired"]
    then (with_human_approval (Some false) st, with_manager m w, u "response")
    else (st, with_manager m w, u "response").

Definition error_context (e : str) : Context :=
  {| cx_operation_result := Some (cross_mark ++ u " Error: " ++ e);
     cx_sql_query := None; cx_sql_executed := None;
     cx_requires_approval := None; cx_approval_id := None;
     cx_sql_generated := Some (u "Error occurred");
     cx_execution_successful := Some false |}.

Definition result_context (operation_result : str) : Context :=
  {| cx_operation_result := Some operation_result;
     cx_sql_query := None; cx_sql_executed := None;
     cx_requires_approval := None; cx_approval_id := None;
     cx_sql_generated := None; cx_execution_successful := None |}.

(** Steps 3 to 5 of [_database_operation], for the generated statement. *)
Definition check_and_execute (sql_query : str) (st : ConversationState) (w : World)
  : ConversationState * World :=
  if is_dangerous_operation sql_query
  then
    (with_context
       (Some {| cx_operation_result :=
                  Some (warning_sign ++ u " Dangerous operation detected:" ++ nl
                        ++ sql_block sql_query);
                cx_sql_query := None;
                cx_sql_executed := Some sql_query;
                cx_requires_approval := Some true;
                cx_approval_id := None;
                cx_sql_generated := None;
                cx_execution_successful := None |}) st, w)
  else
    let '(w, result) := run_executor sql_query w in
    let operation_result :=
      if ex_success result
      then check_mark ++ u " Query executed successfully!" ++ nl ++ sql_block sql_query
      else cross_mark ++ u " SQL Execution Failed:" ++ nl ++ sql_block sql_query ++ nl
           ++ u "Error: "
           ++ match ex_error result with Some e => e | None => u "None" end in
    (with_context
       (Some {| cx_operation_result := Some operation_result;
                cx_sql_query := None;
                cx_sql_executed := Some sql_query;
                cx_requires_approval := None;
                cx_approval_id := None;
                cx_sql_generated := Some sql_query;
                cx_execution_successful := Some (ex_success result) |}) st, w).

(** Step 2 onwards: generate a statement for the last message. *)
Definition generate_and_run (st : ConversationState) (w : World)
  : ConversationState * World :=
  match generate_sql (database w) (last_message st) with
  | NoTableToCreate =>
      (with_context
         (Some (result_context
            (cross_mark ++ u " Could not detect table name in your CREATE TABLE request. Please specify the table name clearly."))) st, w)
  | NoTableMentioned =>
      (with_context
         (Some (result_context
            (cross_mark ++ u " Could not detect any table name in your request."))) st, w)
  | Generated is_create_request sql_query =>
      if negb (truthy sql_query)
      then
        (with_context
           (Some (error_context
              (if is_create_request
               then u "No valid CREATE TABLE SQL found in LLM output."
               else u "No valid SQL found in LLM output."))) st, w)
      else check_and_execute sql_query st w
  | GenerationRaised e => (with_context (Some (error_context e)) st, w)
  end.

Definition _database_operation (st : ConversationState) (w : World)
  : ConversationState * World :=
  match human_approval st with
  | Some true =>
      match context_of st with
      | Raise e => (with_context (Some (error_context e)) st, w)
      | Return context =>
          if truthy_str (cx_sql_executed context)
          then
            let sql_query :=
              match cx_sql_executed context with Some q => q | None => [] end in
            let '(w, result) := run_executor sql_query w in
            let operation_result :=
              if ex_success result
              then check_mark ++ u " Executed approved query successfully:" ++ nl
                   ++ sql_block sql_query ++ nl
              else cross_mark ++ u " Error executing approved query:" ++ nl
                   ++ match ex_error result with
                      | Some e => e
                      | None => u "Unknown error"
                      end in
            (with_human_approval None
               (with_context
                  (Some {| cx_operation_result := Some operation_result;
                           cx_sql_query := None;
                           cx_sql_executed := Some sql_query;
                           cx_requires_approval := None;
                           cx_approval_id := None;
                           cx_sql_generated := None;
                           cx_execution_successful := None |}) st), w)
          else generate_and_run st w
      end
  | Some false =>
      (with_human_approval None
         (with_context
            (Some (result_context (cross_mark ++ u " Operation cancelled by user."))) st), w)
  | None => generate_and_run st w
  end.

Definition _generate_response (st : ConversationState) : outcome ConversationState :=
  if truthy_bool (approval_pending st)
  then
    context <- context_of st;;
    if truthy_bool (cx_requires_approval context)
    then
      match cx_operation_result context with
      | Some approval_message => Return (append_message (AIMessage approval_message) st)
      | None => Raise (u "'operation_result'")
      end
    else Return (append_message (AIMessage (llm_response st)) st)
  else Return (append_message (AIMessage (llm_response st)) st).

(** *** The graph of [_setup_workflow] *)

Inductive Node : Type := Router | DatabaseOperation | HumanApproval | Response | END.

Definition unknown_branch (route : str) : str := u "KeyError: " ++ route.

(** The clock at the status read that follows, in the same turn, a
    request filed at reading [now]. *)
Definition status_read_time (now : Z) (w : World) : Z :=
  (now + Z.of_N (gate_latency (uuid_draws w)))%Z.

(** One node and the conditional edge that leaves it.  The graph
    hands the edge function a copy of the state, read back from the
    channels the node wrote: what the edge function assigns to it is
    lost, only the route it returns and its calls on the approval
    manager remain.  The edge after the approval node reads the clock
    again, after the node has filed the request. *)
Definition run_node (now : Z) (node : Node) (st : ConversationState) (w : World)
  : outcome (Node * ConversationState * World) :=
  match node with
  | Router =>
      let st := _llm_router st in
      match _should_continue st with
      | Some route =>
          if str_eqb route (u "database_operation") then Return (DatabaseOperation, st, w)
          else if str_eqb route (u "response") then Return (Response, st, w)
          else if str_eqb route (u "end") then Return (END, st, w)
          else Raise (unknown_branch route)
      | None => Raise (unknown_branch (u "None"))
      end
  | DatabaseOperation =>
      let '(st, w) := _database_operation st w in
      route <- _needs_human_approval st;;
      if str_eqb route (u "human_approval") then Return (HumanApproval, st, w)
      else Return (Response, st, w)
  | HumanApproval =>
      r <- _human_approval now st w;;
      let '(_, w', route) := _handle_human_decision (status_read_time now w) r.1 r.2 in
      if str_eqb route (u "database_operation") then Return (DatabaseOperation, r.1, w')
      else if str_eqb route (u "response") then Return (Response, r.1, w')
      else Return (HumanApproval, r.1, w')
  | Response =>
      st <- _generate_response st;;
      Return (END, st, w)
  | END => Return (END, st, w)
  end.

(** [workflow.invoke]: nodes run until [END], at most [limit] of them
    (the graph's recursion limit).  Returns the state and world reached
    and the exception, if one was raised. *)
Fixpoint run_graph (limit : nat) (now : Z) (node : Node) (st : ConversationState)
    (w : World) : ConversationState * World * option str :=
  match node with
  | END => (st, w, None)
  | _ =>
      match limit with
      | O => (st, w, Some (u "Recursion limit reached"))
      | S limit' =>
          match run_node now node st w with
          | Return (node', st', w') => run_graph limit' now node' st' w'
          | Raise e => (st, w, Some e)
          end
      end
  end.

Definition recursion_limit : nat := 25.

Definition no_pending_reply : str := warning_sign ++ u " No pending approval found.".
Definition cancelled_reply : str :=
  cross_mark ++ u " Operation cancelled by user. No changes were made to the database.".
Definition error_reply (e : str) : str := cross_mark ++ u " Error: " ++ e.

Fixpoint last_ai_message (ms : list Message) : option str :=
  match ms with
  | [] => None
  | m :: rest =>
      match last_ai_message rest with
      | Some c => Some c
      | None => match m with AIMessage c => Some c | HumanMessage _ => None end
      end
  end.

(** The continuation branch of [chat], for the inputs [__APPROVED__]
    and [__DENIED__]. *)
Definition resume (now : Z) (thread_id : str) (w : World) : World * str :=
  match threads w !! thread_id with
  | None => (w, no_pending_reply)
  | Some values =>
      if truthy_str (approval_id values)
      then
        let approval_id := match approval_id values with Some i => i | None => [] end in
        let '(m, approval_status) := get_approval_status now approval_id (manager w) in
        let w := with_manager m w in
        let status := lower (reply_status approval_status) in
        if str_eqb status (u "approved")
        then
          match context_of values with
          | Raise e => (w, error_reply e)
          | Return context =>
              if truthy_str (cx_sql_executed context)
              then
                let sql_query :=
                  match cx_sql_executed context with Some q => q | None => [] end in
                let '(w, result) := run_executor sql_query w in
                if ex_success result
                then (w, check_mark ++ u " Successfully executed approved operation:" ++ nl
                         ++ sql_block sql_query ++ nl ++ nl ++ u "Result: " ++ ex_json result)
                else (w, cross_mark ++ u " Error executing approved operation:" ++ nl
                         ++ sql_block sql_query ++ nl ++ nl ++ u "Error: "
                         ++ match ex_error result with
                            | Some e => e
                            | None => u "Unknown error"
                            end)
              else (w, no_pending_reply)
          end
        else if str_eqb status (u "denied")
        then (w, cancelled_reply)
        else (w, no_pending_reply)
      else (w, no_pending_reply)
  end.

(** [chat(user_input, thread_id)].  On an ordinary message the graph
    starts from the thread's checkpoint with the initial state written
    over it: the new message is appended to [messages] and every other
    field is reset to [None].  The state the graph ends in becomes the
    thread's checkpoint. *)
Definition chat (now : Z) (user_input : str) (thread_id : option str) (w : World)
  : World * str :=
  let '(thread_id, w) :=
    match thread_id with
    | Some t => (t, w)
    | None => draw_uuid w
    end in
  if existsb (str_eqb user_input) [u "__APPROVED__"; u "__DENIED__"]
  then resume now thread_id w
  else
    let history :=
      match threads w !! thread_id with
      | Some saved => messages saved
      | None => []
      end in
    let initial_state :=
      {| messages := history ++ [HumanMessage user_input];
         next_action := None; context := None; pending_query := None;
         human_approval := None; approval_pending := None; approval_id := None |} in
    let '(final_state, w, raised) := run_graph recursion_limit now Router initial_state w in
    let w := with_threads (<[thread_id := final_state]> (threads w)) w in
    match raised with
    | Some e => (w, error_reply e)
    | None =>
        match last_ai_message (messages final_state) with
        | Some ai_response => (w, ai_response)
        | None => (w, u "I'm sorry, I couldn't process your request. Please try again.")
        end
    end.

(** ** Streaming with stop ([main.py]) *)

(** One entry of [active_sessions]. *)
Record Session : Type := {
  thread_id : str;
  is_active : bool;
  created_at : Z;
  query : str
}.

Record Server : Type := {
  agent : World;
  active_sessions : gmap str Session
}.

Definition with_sessions (r : gmap str Session) (sv : Server) : Server :=
  {| agent := agent sv; active_sessions := r |}.

Definition deactivate (s : Session) : Session :=
  {| thread_id := thread_id s; is_active := false;
     created_at := created_at s; query := query s |}.

(** What the generator yields, by ["chunk_type"]. *)
Inductive Chunk : Type :=
| TextChunk (chunk : str) (is_final : bool)
| StoppedChunk
| ApprovalChunk (chunk : str)
| ErrorChunk (chunk : str).

Inductive StopReply : Type := Stopped | SessionNotFound.

(** [POST /stop] *)
Definition stop_generation (session_id : str) (sv : Server) : Server * StopReply :=
  match active_sessions sv !! session_id with
  | Some s => (with_sessions (<[session_id := deactivate s]> (active_sessions sv)) sv, Stopped)
  | None => (sv, SessionNotFound)
  end.

(** The head of [chat_stream]: draw the session id and register it. *)
Definition chat_stream_register (now : Z) (request_query : str)
    (request_thread_id : option str) (sv : Server) : Server * str * str :=
  let '(session_id, w) := draw_uuid (agent sv) in
  let thread_id :=
    if truthy_str request_thread_id
    then match request_thread_id with Some t => t | None => [] end
    else u "default" in
  ({| agent := w;
      active_sessions :=
        <[session_id := {| thread_id := thread_id; is_active := true;
                           created_at := now; query := request_query |}]>
          (active_sessions sv) |},
   session_id, thread_id).

(** The test both checks of the loop make under [session_lock]. *)
Definition session_stopped (session_id : str) (r : gmap str Session) : bool :=
  match r !! session_id with
  | Some s => negb (is_active s)
  | None => true
  end.

(** [" ".join(words[i:i + 2])], with a trailing space unless last. *)
Definition chunk_at (words : list str) (i : nat) : str :=
  join (u " ") (take 2 (drop i words))
  ++ (if (i + 2 <? length words)%nat then u " " else []).

Definition is_approval_request (response : str) : bool :=
  contains (u "DANGEROUS OPERATION DETECTED") response
  || contains warning_sign response
  || contains (u "**Approval ID:**") response
  || contains (u "Dangerous operation detected") response.

(** Where [generate_stream] is suspended: not yet started; at the
    [yield] of text chunk [i]; in the [sleep] after chunk [i]; at the
    [yield] of the approval chunk, which precedes a [return]; at the
    [yield] of the stop signal, which sits inside [with session_lock]
    so that the lock stays held; or finished.  [Blocked] is the event
    loop stuck in a handler that waits for the lock the suspended
    generator holds. *)
Inductive Phase : Type :=
| Created
| Emitted (words : list str) (i : nat)
| Sleeping (words : list str) (i : nat)
| Closing
| Stopping
| Finished
| Blocked.

(** The [finally] block. *)
Definition clean_up (session_id : str) (sv : Server) : Server :=
  with_sessions (delete session_id (active_sessions sv)) sv.

(** The code after the loop: mark the session completed, then [finally]. *)
Definition complete (session_id : str) (sv : Server) : Server :=
  let r := active_sessions sv in
  let r := match r !! session_id with
           | Some s => <[session_id := deactivate s]> r
           | None => r
           end in
  clean_up session_id (with_sessions r sv).

(** The top of one loop iteration at index [i]. *)
Definition loop_head (session_id : str) (words : list str) (i : nat) (sv : Server)
  : Server * Phase * option Chunk :=
  if (i <? length words)%nat
  then
    if session_stopped session_id (active_sessions sv)
    then (sv, Stopping, Some StoppedChunk)
    else (sv, Emitted words i,
          Some (TextChunk (chunk_at words i) (length words <=? i + 2)%nat))
  else (complete session_id sv, Finished, None).

(** Resume the generator until it next suspends, at a [yield] (with
    the chunk handed to the caller) or in the [sleep]. *)
Definition resume_stream (now : Z) (session_id thread_id request_query : str)
    (ph : Phase) (sv : Server) : Server * Phase * option Chunk :=
  match ph with
  | Created =>
      let '(w, response) := chat now request_query (Some thread_id) (agent sv) in
      let sv := {| agent := w; active_sessions := active_sessions sv |} in
      if is_approval_request response
      then (sv, Closing, Some (ApprovalChunk response))
      else loop_head session_id (split_ws response) 0 sv
  | Emitted words i =>
      if session_stopped session_id (active_sessions sv)
      then (sv, Stopping, Some StoppedChunk)
      else (sv, Sleeping words i, None)
  | Sleeping words i => loop_head session_id words (i + 2) sv
  | Closing => (clean_up session_id sv, Finished, None)
  | Stopping => (clean_up session_id sv, Finished, None)
  | Finished => (sv, Finished, None)
  | Blocked => (sv, Blocked, None)
  end.

(** What can happen while one stream is being delivered: its consumer
    resumes the generator, or some client posts a stop request. *)
Inductive Event : Type :=
| Pull (now : Z)
| Stop (session_id : str).

Definition deliver_event (session_id thread_id request_query : str) (e : Event)
    (ph : Phase) (sv : Server) : Server * Phase * option Chunk :=
  match e, ph with
  | _, Blocked => (sv, Blocked, None)
  | Pull now, _ => resume_stream now session_id thread_id request_query ph sv
  | Stop _, Stopping => (sv, Blocked, None)
  | Stop sid, _ => ((stop_generation sid sv).1, ph, None)
  end.

(** The chunks the caller receives under a schedule of events. *)
Fixpoint deliver (session_id thread_id request_query : str) (schedule : list Event)
    (ph : Phase) (sv : Server) : Server * Phase * list Chunk :=
  match schedule with
  | [] => (sv, ph, [])
  | e :: rest =>
      let '(sv1, ph1, out) := deliver_event session_id thread_id request_query e ph sv in
      let '(sv2, ph2, outs) := deliver session_id thread_id request_query rest ph1 sv1 in
      (sv2, ph2, match out with Some c => c :: outs | None => outs end)
  end.

Definition is_text (c : Chunk) : bool :=
  match c with TextChunk _ _ => true | _ => false end.

(** ** The chat endpoint ([main.py]) *)

(** The body of the reply to [POST /chat]. *)
Record ChatResponse : Type := {
  cr_response : str;
  cr_thread_id : str;
  cr_timestamp : Z;
  cr_operation_type : option str;
  cr_human_approval_required : bool
}.

(** [POST /chat].  The agent is called with the request's thread id as
    it came, [None] included; the id reported back is
    [request.thread_id or "default"]. *)
Definition chat_endpoint (now : Z) (request_query : str)
    (request_thread_id : option str) (w : World) : World * ChatResponse :=
  let '(w, response) := chat now request_query request_thread_id w in
  let thread_id :=
    if truthy_str request_thread_id
    then match request_thread_id with Some t => t | None => [] end
    else u "default" in
  let human_approval_required :=
    contains (u "DANGEROUS OPERATION DETECTED") response
    || contains (u "approved") (lower response) in
  let operation_type :=
    if contains (u "SELECT") (upper response) then Some (u "SELECT")
    else if contains (u "INSERT") (upper response) then Some (u "INSERT")
    else if contains (u "UPDATE") (upper response) then Some (u "UPDATE")
    else if contains (u "DELETE") (upper response) then Some (u "DELETE")
    else if contains (u "DROP") (upper response) then Some (u "DROP")
    else if contains (u "ALTER") (upper response) then Some (u "ALTER")
    else None in
  (w, {| cr_response := response;
         cr_thread_id := thread_id;
         cr_timestamp := now;
         cr_operation_type := operation_type;
         cr_human_approval_required := human_approval_required |}).

(** ** Sequences of calls on the approval manager *)

(** The two outcomes of a decision. *)
Inductive Outcome : Type := APPROVE | DENY.

(** A decision by [actor]: [approve_operation] or [deny_operation]. *)
Definition decide_operation (now : Z) (approval_id : str) (o : Outcome) (actor : str)
    (m : SimpleApprovalManager) : SimpleApprovalManager * DecisionReply :=
  match o with
  | APPROVE => approve_operation now approval_id actor m
  | DENY => deny_operation now approval_id actor m
  end.

(** The public calls of the manager. *)
Inductive LedgerCall : Type :=
| CallCreate (approval_id sql_query : str)
| CallStatus (approval_id : str)
| CallDecide (approval_id : str) (o : Outcome) (actor : str)
| CallPending
| CallCleanup.

Definition apply_call (now : Z) (c : LedgerCall) (m : SimpleApprovalManager)
  : SimpleApprovalManager :=
  match c with
  | CallCreate approval_id sql_query => (create_approval_request approval_id now sql_query m).1
  | CallStatus approval_id => (get_approval_status now approval_id m).1
  | CallDecide approval_id o actor => (decide_operation now approval_id o actor m).1
  | CallPending => (get_pending_approvals now m).1
  | CallCleanup => (cleanup_expired_approvals now m).1
  end.

(** Calls in order, each with the clock reading at which it runs. *)
Fixpoint apply_calls (calls : list (Z * LedgerCall)) (m : SimpleApprovalManager)
  : SimpleApprovalManager :=
  match calls with
  | [] => m
  | (now, c) :: rest => apply_calls rest (apply_call now c m)
  end.

(** The call draws [approval_id] anew. *)
Definition creates (approval_id : str) (c : LedgerCall) : Prop :=
  match c with
  | CallCreate i _ => i = approval_id
  | _ => False
  end.

(** The status the ledger holds for [approval_id], if any. *)
Definition status_of (approval_id : str) (m : SimpleApprovalManager)
  : option ApprovalStatus :=
  ar_status <$> pending_approvals m !! approval_id.

End Agent.

(** ** Vocabulary of the specification *)

(** [s] begins with the keyword [w], letter case aside. *)
Fixpoint ci_starts_with (w s : str) : bool :=
  match w, s with
  | [], _ => true
  | p :: w', c :: s' => ci_lit p c && ci_starts_with w' s'
  | _ :: _, [] => false
  end.

(** The safe leading keywords of the specification. *)
Definition safe_keywords : list str :=
  [u "SELECT"; u "INSERT"; u "CREATE"; u "SHOW"; u "DESCRIBE"].

(** The leading keywords of the dangerous patterns. *)
Definition dangerous_keywords : list str :=
  [u "DROP"; u "DELETE"; u "ALTER"; u "TRUNCATE"; u "UPDATE"].

(** The statement's leading keyword, after optional whitespace, is one
    of [keywords]. *)
Definition leading_keyword_in (keywords : list str) (s : str) : bool :=
  existsb (fun w => ci_starts_with w (lstrip s)) keywords.

(** The operation kinds the specification lists. *)
Definition specified_kinds : list str :=
  [u "DROP"; u "DELETE"; u "ALTER"; u "TRUNCATE"; u "MASS_UPDATE"; u "UNKNOWN"].

(** The operation kinds [get_operation_info] produces. *)
Definition recorded_kinds : list str :=
  [u "DROP"; u "DELETE"; u "ALTER"; u "TRUNCATE"; u "UPDATE"; u "UNKNOWN"].

(** The pattern for an unconditional mass update, the last entry of
    [dangerous_patterns]. *)
Definition mass_update_pattern : regex :=
  cat [Star is_space; kw (u "UPDATE"); Plus is_space; Star dot; Plus is_space;
       kw (u "SET"); Plus is_space; Star dot; Plus is_space;
       kw (u "WHERE"); Plus is_space; kw (u "1"); Star is_space; kw (u "=");
       Star is_space; kw (u "1")].

(** Two keywords agree, letter case aside, as far as both reach. *)
Fixpoint agree (p q : str) : bool :=
  match p, q with
  | a :: p', b :: q' => (ascii_lower a =? ascii_lower b) && agree p' q'
  | _, _ => true
  end.

(** A capital letter whose case class is itself and its small letter. *)
Definition plain_capital (p : N) : Prop :=
  65 <= p <= 90 /\ p <> 73 /\ p <> 83 /\ p <> 75.

(** Two versions of a ledger entry that carry the same request: only
    the status and the decision fields may differ. *)
Definition same_request (a a' : Approval) : Prop :=
  ar_id a' = ar_id a /\ ar_sql_query a' = ar_sql_query a /\
  ar_operation_type a' = ar_operation_type a /\
  ar_table_name a' = ar_table_name a /\
  ar_description a' = ar_description a /\
  ar_created_at a' = ar_created_at a /\
  ar_expires_at a' = ar_expires_at a.

(** The status [s'] can follow the status [s]: a pending request may
    take any status, a settled one may only expire. *)
Definition may_follow (s s' : ApprovalStatus) : Prop :=
  s' = s \/ s' = EXPIRED \/ s = PENDING.

(** The keyword [w] followed by a whitespace code point. *)
Definition keyword_then_space (w s : str) : bool :=
  ci_starts_with w s &&
  match drop (length w) s with
  | c :: _ => is_space c
  | [] => false
  end.

(** The keyword [a], whitespace, the keyword [b], and a whitespace
    code point. *)
Definition two_keywords (a b s : str) : bool :=
  keyword_then_space a s &&
  keyword_then_space b (lstrip (drop (length a) s)).

(** The text a client assembles from the chunks of one stream. *)
Definition streamed_text (chunks : list Chunk) : str :=
  flat_map (fun c => match c with TextChunk chunk _ => chunk | _ => [] end) chunks.

(** A schedule in which only the consumer acts: no stop request. *)
Definition only_pulls (schedule : list Event) : Prop :=
  Forall (fun e => match e with Pull _ => True | Stop _ => False end) schedule.

(** ** Sample collaborators and data *)

(** An engine that accepts every statement, a router that always
    answers [route], a generator that always produces [g], a model
    with a fixed ten-word reply, and a millisecond between the filing
    of a request and the status read of the same turn. *)
Definition sample_with (route : str) (g : Generation) : Collaborators :=
  {| DB := unit;
     execute_sql_query := fun db _ =>
       (db, {| ex_success := true; ex_error := None; ex_json := u "{}" |});
     llm_router_reply := fun _ => Some route;
     generate_sql := fun _ _ => g;
     llm_response := fun _ => u "one two three four five six seven eight nine ten";
     uuid4 := fun n => u "id-" ++ repeat 49 n;
     gate_latency := fun _ => 1000;
     isalnum_beyond_ascii := fun _ => false |}.

(** Conversation only. *)
Definition sample : Collaborators := sample_with (u "response") NoTableMentioned.

(** Every message is answered with [DROP TABLE users]. *)
Definition sample_drop : Collaborators :=
  sample_with (u "database_operation") (Generated false (u "DROP TABLE users")).

(** A fresh runtime with the default timeout of five minutes. *)
Definition fresh_world (C : Collaborators) (db : @DB C) : @World C :=
  @Build_World C (new_manager 5) ∅ db [] 0.

Definition seconds (n : Z) : Z := (n * 1000000)%Z.

(** A ledger with one request for [DROP TABLE users], created at time
    0, and the same ledger after [alice] approved it ten seconds later. *)
Definition sample_id : str := u "a1".

Definition sample_ledger : SimpleApprovalManager :=
  (create_approval_request (H:=sample) sample_id 0 (u "DROP TABLE users")
     (new_manager 5)).1.

Definition sample_request : Approval :=
  (create_approval_request (H:=sample) sample_id 0 (u "DROP TABLE users")
     (new_manager 5)).2.

Definition approved_ledger : SimpleApprovalManager :=
  (approve_operation (seconds 10) sample_id (u "alice") sample_ledger).1.

Definition approved_sample_request : Approval :=
  Eval vm_compute in
    match pending_approvals approved_ledger !! sample_id with
    | Some a => a
    | None => sample_request
    end.

(** The runtime after thread [t1] asked for the drop (the request gets
    the first identifier drawn), and after [alice] approved it. *)
Definition gated_world : @World sample_drop :=
  (chat (seconds 1) (u "drop the users table") (Some (u "t1"))
     (fresh_world sample_drop tt)).1.

Definition approved_world : @World sample_drop :=
  with_manager
    (approve_operation (seconds 2) (@uuid4 sample_drop 0) (u "alice") (manager gated_world)).1
    gated_world.

(** The checkpoint of thread [t1] and the ledger entry at that point. *)
Definition approved_thread : ConversationState :=
  Eval vm_compute in
    match threads approved_world !! u "t1" with
    | Some values => values
    | None => {| messages := []; next_action := None; context := None;
                 pending_query := None; human_approval := None;
                 approval_pending := None; approval_id := None |}
    end.

Definition approved_context : Context :=
  Eval vm_compute in
    match context approved_thread with Some c => c | None => empty_context end.

Definition approved_request : Approval :=
  Eval vm_compute in
    match pending_approvals (manager approved_world) !! @uuid4 sample_drop 0 with
    | Some a => a
    | None => (create_approval_request (H:=sample_drop) [] 0 [] (new_manager 5)).2
    end.


(** A server with one stream registered for thread [t1]; the reply to
    its query has ten words, five chunks. *)
Definition registered : @Server sample * str * str :=
  chat_stream_register 0 (u "say ten words") (Some (u "t1"))
    {| agent := fresh_world sample tt; active_sessions := ∅ |}.

Definition sample_server : @Server sample := registered.1.1.
Definition sample_session : str := registered.1.2.

(** Two chunks are delivered, then the stop request arrives. *)
Definition two_chunks : list Event := [Pull 1; Pull 2; Pull 3].
Definition after_stop : list Event := [Pull 4; Pull 5; Pull 6].

(** The consumer of the registered stream pulls until the generator
    has finished, and the session it pulls on. *)
Definition eleven_pulls : list Event := List.map Pull [2; 3; 4; 5; 6; 7; 8; 9; 10; 11; 12]%Z.

Definition registered_session : Session :=
  {| thread_id := u "t1"; is_active := true; created_at := 0;
     query := u "say ten words" |}.

(** * Properties *)

(** ** Whitespace and keywords *)

Lemma is_space_elem c : is_space c = true <-> In c space_points.
Proof.
  unfold is_space. rewrite existsb_exists. split.
  - intros (x & Hin & Heq). apply N.eqb_eq in Heq. now subst.
  - intros Hin. exists c. split; [assumption | apply N.eqb_refl].
Qed.

Lemma lstrip_blank s : forallb is_space s = true -> lstrip s = [].
Proof.
  induction s as [|c s IH]; simpl; [reflexivity|].
  intros [Hc Hs]%andb_true_iff. rewrite Hc. auto.
Qed.

Lemma strip_blank s : forallb is_space s = true -> strip s = [].
Proof. intros Hs. unfold strip. now rewrite lstrip_blank. Qed.

Lemma blank_not_dangerous s :
  forallb is_space s = true -> is_dangerous_operation s = false.
Proof.
  intros Hs. unfold is_dangerous_operation.
  rewrite (strip_blank s Hs). simpl. now rewrite orb_true_r.
Qed.

Lemma rstrip_cons c s : is_space c = false -> rstrip (c :: s) = c :: rstrip s.
Proof. intros Hc. simpl. rewrite Hc. now destruct (rstrip s). Qed.

Lemma lstrip_app_blank ws t : forallb is_space ws = true -> lstrip (ws ++ t) = lstrip t.
Proof.
  induction ws as [|c ws IH]; simpl; [reflexivity|].
  intros [Hc Hs]%andb_true_iff. rewrite Hc. auto.
Qed.

(** A string is its leading whitespace followed by [lstrip] of it. *)
Lemma lstrip_split s :
  exists ws, forallb is_space ws = true /\ s = ws ++ lstrip s.
Proof.
  induction s as [|c s (ws & Hws & Heq)]; simpl.
  - now exists [].
  - destruct (is_space c) eqn:Hc.
    + exists (c :: ws). simpl. rewrite Hc, Hws. split; [reflexivity | congruence].
    + now exists [].
Qed.

Lemma ci_lit_fold p c : ci_lit p c = true <-> fold_case c = ascii_lower p.
Proof. unfold ci_lit. apply N.eqb_eq. Qed.

Lemma space_fold_fixed c : is_space c = true -> fold_case c = c.
Proof.
  intros Hc%is_space_elem. simpl in Hc.
  repeat (destruct Hc as [<- | Hc]; [reflexivity|]). contradiction.
Qed.

Lemma ci_lit_not_space p c :
  is_space (ascii_lower p) = false -> ci_lit p c = true -> is_space c = false.
Proof.
  intros Hp Hm%ci_lit_fold. destruct (is_space c) eqn:Hc; [|reflexivity].
  rewrite (space_fold_fixed c Hc) in Hm. congruence.
Qed.

Lemma ci_starts_with_agree p q t :
  ci_starts_with p t = true -> ci_starts_with q t = true -> agree p q = true.
Proof.
  revert q t. induction p as [|a p IH]; intros [|b q] [|c t]; simpl; try easy.
  intros [Ha Hp]%andb_true_iff [Hb Hq]%andb_true_iff.
  apply ci_lit_fold in Ha, Hb. apply andb_true_iff. split.
  - apply N.eqb_eq. congruence.
  - eauto.
Qed.

(** ** The matcher on the shapes the patterns have *)

Lemma star_k_skip {R} (k : str -> option R) s :
  (forall c s', is_space c = true -> k (c :: s') = None) ->
  star_k is_space k s = k (lstrip s).
Proof.
  intros Hk. induction s as [|c s IH]; simpl; [reflexivity|].
  destruct (is_space c) eqn:Hc; [|reflexivity].
  rewrite IH, (Hk c s Hc). now destruct (k (lstrip s)).
Qed.

Lemma rmatch_kw {R} w r t (k : str -> option R) :
  rmatch (Seq (kw w) r) t k =
  if ci_starts_with w t then rmatch r (drop (length w) t) k else None.
Proof.
  revert t. induction w as [|p w IH]; intros t.
  - reflexivity.
  - specialize (IH (match t with [] => [] | _ :: t' => t' end)).
    destruct t as [|c t]; [reflexivity|].
    change (kw (p :: w)) with (Seq (Chr (ci_lit p)) (kw w)).
    simpl in *. destruct (ci_lit p c); [exact IH | reflexivity].
Qed.

Lemma rmatch_seq_star {R} p r s (k : str -> option R) :
  rmatch (Seq (Star p) r) s k = star_k p (fun s1 => rmatch r s1 k) s.
Proof. reflexivity. Qed.

(** A pattern [^\s*WORD...] can only match a subject whose first
    non-blank code points spell [WORD]. *)
Lemma leading_keyword_of_match p w rest s :
  is_space (ascii_lower p) = false ->
  re_match (cat (Star is_space :: kw (p :: w) :: rest)) s = true ->
  ci_starts_with (p :: w) (lstrip s) = true.
Proof.
  intros Hp. unfold re_match.
  change (cat (Star is_space :: kw (p :: w) :: rest))
    with (Seq (Star is_space) (Seq (kw (p :: w)) (cat rest))).
  rewrite rmatch_seq_star, star_k_skip.
  - rewrite rmatch_kw. now destruct (ci_starts_with (p :: w) (lstrip s)).
  - intros c s' Hc. rewrite rmatch_kw.
    cbn [ci_starts_with].
    destruct (ci_lit p c) eqn:Hm; [|reflexivity].
    apply (ci_lit_not_space p c Hp) in Hm. congruence.
Qed.

Lemma dangerous_leading_keyword s :
  is_dangerous_operation s = true -> leading_keyword_in dangerous_keywords s = true.
Proof.
  unfold is_dangerous_operation.
  destruct (negb (truthy s) || negb (truthy (strip s))); [discriminate|].
  destruct (existsb _ safe_patterns); [discriminate|].
  destruct (existsb _ dangerous_patterns) eqn:Hd; [intros _ | discriminate].
  unfold dangerous_patterns in Hd. cbn [existsb] in Hd.
  unfold leading_keyword_in, dangerous_keywords.
  cbn [existsb u list_ascii_of_string List.map].
  repeat (apply orb_true_iff in Hd; destruct Hd as [Hd | Hd]);
    try discriminate;
    apply leading_keyword_of_match in Hd; try reflexivity;
    rewrite Hd; now rewrite ?orb_true_r.
Qed.

Lemma safe_leading_keyword_not_dangerous s :
  leading_keyword_in safe_keywords s = true -> is_dangerous_operation s = false.
Proof.
  intros Hsafe. destruct (is_dangerous_operation s) eqn:Hd; [|reflexivity].
  apply dangerous_leading_keyword in Hd.
  unfold leading_keyword_in in *.
  apply existsb_exists in Hsafe as (w1 & Hin1 & H1).
  apply existsb_exists in Hd as (w2 & Hin2 & H2).
  pose proof (ci_starts_with_agree _ _ _ H1 H2) as Hagree.
  simpl in Hin1, Hin2.
  repeat (destruct Hin1 as [<- | Hin1]; [|]);
    try contradiction;
    repeat (destruct Hin2 as [<- | Hin2]; [|]);
    try contradiction; vm_compute in Hagree; discriminate.
Qed.

(** ** Uppercasing a statement that starts with a keyword *)

Lemma space_upper_fixed c : is_space c = true -> upper_char c = [c].
Proof.
  intros Hc%is_space_elem. simpl in Hc.
  repeat (destruct Hc as [<- | Hc]; [reflexivity|]). contradiction.
Qed.

Lemma upper_blank ws : forallb is_space ws = true -> upper ws = ws.
Proof.
  induction ws as [|c ws IH]; simpl; [reflexivity|].
  intros [Hc Hs]%andb_true_iff.
  unfold upper in *. simpl. rewrite (space_upper_fixed c Hc), IH by assumption.
  reflexivity.
Qed.

(** Decide one comparison with a constant that arithmetic rules out. *)
Ltac case_eqb :=
  match goal with
  | |- context [N.eqb ?a ?b] => destruct (N.eqb_spec a b); [lia|]
  | H : context [N.eqb ?a ?b] |- _ => destruct (N.eqb_spec a b); [lia|]
  end.

(** A capital other than I, S and K is matched only by itself and by
    its small letter. *)
Lemma plain_capital_match p c :
  65 <= p <= 90 -> p <> 73 -> p <> 83 -> p <> 75 ->
  ci_lit p c = true -> c = p \/ c = p + 32.
Proof.
  intros Hp Hi Hs Hk Hm%ci_lit_fold.
  unfold fold_case, ascii_lower, is_ascii_upper in Hm.
  replace ((65 <=? p) && (p <=? 90)) with true in Hm
    by (symmetry; apply andb_true_iff; split; apply N.leb_le; lia).
  destruct ((65 <=? c) && (c <=? 90)) eqn:Hc; [left; lia|].
  repeat case_eqb. now right.
Qed.

Lemma plain_capital_upper p c :
  65 <= p <= 90 -> p <> 73 -> p <> 83 -> p <> 75 ->
  ci_lit p c = true -> upper_char c = [p].
Proof.
  intros Hp Hi Hs Hk Hm.
  destruct (plain_capital_match p c Hp Hi Hs Hk Hm) as [-> | ->];
    unfold upper_char, is_ascii_lower.
  - replace ((97 <=? p) && (p <=? 122)) with false
      by (symmetry; apply andb_false_iff; left; apply N.leb_gt; lia).
    repeat case_eqb. reflexivity.
  - replace ((97 <=? p + 32) && (p + 32 <=? 122)) with true
      by (symmetry; apply andb_true_iff; split; apply N.leb_le; lia).
    f_equal. lia.
Qed.

Lemma ci_starts_with_upper w t :
  Forall plain_capital w -> ci_starts_with w t = true ->
  upper t = w ++ upper (drop (length w) t).
Proof.
  intros Hw. revert t. induction Hw as [|p w (Hp & Hi & Hs & Hk) _ IH]; intros t.
  - reflexivity.
  - destruct t as [|c t]; simpl; [discriminate|].
    intros [Hc Ht]%andb_true_iff.
    unfold upper in *. simpl.
    rewrite (plain_capital_upper p c Hp Hi Hs Hk Hc), (IH t Ht). reflexivity.
Qed.

Lemma plain_UPDATE : Forall plain_capital (u "UPDATE").
Proof. repeat constructor; unfold plain_capital; simpl; lia. Qed.

(** A statement whose first non-blank letters spell UPDATE is, once
    uppercased and stripped, a text that starts with [UPDATE]. *)
Lemma upper_strip_UPDATE q :
  ci_starts_with (u "UPDATE") (lstrip q) = true ->
  exists rest, strip (upper q) = u "UPDATE" ++ rest.
Proof.
  intros Hq. destruct (lstrip_split q) as (ws & Hws & Heq).
  set (tail := upper (drop (length (u "UPDATE")) (lstrip q))).
  assert (Hu : upper q = ws ++ u "UPDATE" ++ tail).
  { rewrite Heq at 1. unfold upper. rewrite flat_map_app.
    fold (upper ws). fold (upper (lstrip q)).
    now rewrite (upper_blank ws Hws), (ci_starts_with_upper _ _ plain_UPDATE Hq). }
  rewrite Hu. unfold strip. rewrite (lstrip_app_blank ws _ Hws).
  change (u "UPDATE" ++ tail) with (85 :: 80 :: 68 :: 65 :: 84 :: 69 :: tail).
  cbn [lstrip]. replace (is_space 85) with false by reflexivity.
  rewrite !rstrip_cons by reflexivity.
  now exists (rstrip tail).
Qed.

Section Properties.

Context `{Collaborators}.

(** ** The approval ledger *)

Lemma status_of_lookup i m a :
  pending_approvals m !! i = Some a -> status_of i m = Some (ar_status a).
Proof. unfold status_of. now intros ->. Qed.

Lemma status_of_insert i j a p m :
  status_of i (with_pending (<[j := a]> p) m) =
  if decide (j = i) then Some (ar_status a) else ar_status <$> p !! i.
Proof.
  unfold status_of. simpl. rewrite lookup_insert. now destruct (decide (j = i)).
Qed.

(** What one call can do to the status held for an identifier it does
    not create: leave it, decide it while it is pending, or expire it. *)
Lemma status_step now c i m s' :
  ~ creates i c ->
  status_of i (apply_call now c m) = Some s' ->
  exists s, status_of i m = Some s /\
    (s' = s \/ (s = PENDING /\ (s' = APPROVED \/ s' = DENIED)) \/ s' = EXPIRED).
Proof.
  intros Hc. destruct c as [j q | j | j o actor | |]; simpl.
  - simpl in Hc. unfold create_approval_request. simpl.
    rewrite status_of_insert. destruct (decide (j = i)); [contradiction|].
    intros Hs. exists s'. split; [exact Hs | now left].
  - unfold get_approval_status.
    destruct (pending_approvals m !! j) as [a|] eqn:Hj; simpl;
      [destruct (_is_expired now a); simpl|];
      try (intros Hs; exists s'; split; [exact Hs | now left]).
    rewrite status_of_insert. destruct (decide (j = i)) as [->|].
    + intros [= <-]. exists (ar_status a). split; [now apply status_of_lookup | auto].
    + intros Hs. exists s'. split; [exact Hs | now left].
  - destruct o; simpl; unfold approve_operation, deny_operation;
      (destruct (pending_approvals m !! j) as [a|] eqn:Hj; simpl;
       [destruct (bool_decide (ar_status a = PENDING)) eqn:Hp; simpl|];
       try (intros Hs; exists s'; split; [exact Hs | now left])).
    + apply bool_decide_eq_true in Hp.
      destruct (_is_expired now a); simpl; rewrite status_of_insert;
        (destruct (decide (j = i)) as [->|];
         [intros [= <-]; exists (ar_status a); split;
          [now apply status_of_lookup | rewrite Hp; auto]
         |intros Hs; exists s'; split; [exact Hs | now left]]).
    + apply bool_decide_eq_true in Hp.
      rewrite status_of_insert.
      destruct (decide (j = i)) as [->|];
        [intros [= <-]; exists (ar_status a); split;
         [now apply status_of_lookup | rewrite Hp; auto]
        |intros Hs; exists s'; split; [exact Hs | now left]].
  - unfold status_of. simpl.
    destruct (filter _ _ !! i) as [a'|] eqn:Hf; simpl; [|discriminate].
    intros [= <-]. apply map_lookup_filter_Some in Hf as [Hf _].
    rewrite lookup_fmap in Hf.
    destruct (pending_approvals m !! i) as [a|]; simpl in Hf; [|discriminate].
    injection Hf as <-. exists (ar_status a). split; [reflexivity|].
    unfold mark_expired. destruct (_is_expired now a); simpl; auto.
  - unfold status_of. simpl.
    destruct (filter _ _ !! i) as [a'|] eqn:Hf; simpl; [|discriminate].
    intros [= <-]. apply map_lookup_filter_Some in Hf as [Hf _].
    rewrite Hf. exists (ar_status a'). simpl. auto.
Qed.

(** A status that has left PENDING never returns to it. *)
Lemma settled_stays_settled calls i m :
  Forall (fun c : Z * LedgerCall => ~ creates i c.2) calls ->
  status_of i m <> Some PENDING ->
  status_of i (apply_calls calls m) <> Some PENDING.
Proof.
  intros Hcalls. revert m.
  induction Hcalls as [|[now c] calls Hc _ IH]; intros m Hm; simpl; [exact Hm|].
  apply IH. intros Hs.
  destruct (status_step now c i m PENDING Hc Hs) as (s & Hs0 & Hcase).
  destruct Hcase as [<- | [(-> & [?|?]) | ?]]; congruence.
Qed.

Lemma decide_success now i o actor m :
  success (decide_operation now i o actor m).2 = true ->
  status_of i m = Some PENDING /\
  status_of i (decide_operation now i o actor m).1 =
    Some (match o with APPROVE => APPROVED | DENY => DENIED end).
Proof.
  destruct o; simpl; unfold approve_operation, deny_operation;
    destruct (pending_approvals m !! i) as [a|] eqn:Hi; simpl; try discriminate;
    destruct (bool_decide (ar_status a = PENDING)) eqn:Hp; simpl; try discriminate;
    apply bool_decide_eq_true in Hp.
  - destruct (_is_expired now a); simpl; [discriminate|]. intros _.
    rewrite status_of_insert, decide_True by reflexivity.
    split; [|reflexivity]. rewrite (status_of_lookup _ _ _ Hi). now rewrite Hp.
  - intros _. rewrite status_of_insert, decide_True by reflexivity.
    split; [|reflexivity]. rewrite (status_of_lookup _ _ _ Hi). now rewrite Hp.
Qed.

Lemma decide_settled now i o actor m a :
  pending_approvals m !! i = Some a -> ar_status a <> PENDING ->
  decide_operation now i o actor m = (m, DecisionFailed (NotPending (ar_status a))).
Proof.
  intros Hi Hp.
  destruct o; simpl; unfold approve_operation, deny_operation; rewrite Hi;
    now rewrite bool_decide_eq_false_2.
Qed.

Lemma decide_unknown now i o actor m :
  pending_approvals m !! i = None ->
  decide_operation now i o actor m = (m, DecisionFailed NotFound).
Proof.
  intros Hi. destruct o; simpl; unfold approve_operation, deny_operation; now rewrite Hi.
Qed.

(** C2.  Once a decision on an approval request has succeeded, every
    later [approve_operation] or [deny_operation] on the same
    identifier fails, whoever calls it, whatever the outcome asked for
    and whatever calls came in between; while the request is in the
    ledger the error is the one that reports it as not pending, with
    its current status.  Identifiers are never drawn twice. *)
Theorem decide_succeeds_at_most_once now approval_id o actor m calls now' o' actor' :
  success (decide_operation now approval_id o actor m).2 = true ->
  Forall (fun c : Z * LedgerCall => ~ creates approval_id c.2) calls ->
  let m' := apply_calls calls (decide_operation now approval_id o actor m).1 in
  let reply := (decide_operation now' approval_id o' actor' m').2 in
  success reply = false /\
  (forall a, pending_approvals m' !! approval_id = Some a ->
     reply = DecisionFailed (NotPending (ar_status a)) /\ ar_status a <> PENDING).
Proof.
  intros Hok Hcalls m' reply.
  destruct (decide_success _ _ _ _ _ Hok) as [_ Hdone].
  assert (Hsettled : status_of approval_id m' <> Some PENDING).
  { apply settled_stays_settled; [exact Hcalls|]. rewrite Hdone. now destruct o. }
  subst reply.
  destruct (pending_approvals m' !! approval_id) as [a|] eqn:Ha.
  - assert (Hp : ar_status a <> PENDING).
    { intros Hp. apply Hsettled. rewrite (status_of_lookup _ _ _ Ha). now rewrite Hp. }
    rewrite (decide_settled now' approval_id o' actor' m' a Ha Hp). simpl.
    split; [reflexivity|]. now intros ? [= <-].
  - rewrite (decide_unknown now' approval_id o' actor' m' Ha). simpl.
    split; [reflexivity | discriminate].
Qed.

(** *** Expiry *)

(** Reading the status of a pending request after its expiry time
    reports EXPIRED and stores it, without any sweep. *)
Lemma expired_read_reports_expired now i m a :
  pending_approvals m !! i = Some a -> _is_expired now a = true ->
  (get_approval_status now i m).2 = StatusExpired i /\
  status_of i (get_approval_status now i m).1 = Some EXPIRED.
Proof.
  intros Hi He. unfold get_approval_status. rewrite Hi, He. simpl.
  split; [reflexivity|]. now rewrite status_of_insert, decide_True.
Qed.

(** Approving a pending request after its expiry time fails with the
    expiry error and leaves the request EXPIRED. *)
Lemma approve_after_expiry_fails now i actor m a :
  pending_approvals m !! i = Some a -> ar_status a = PENDING ->
  _is_expired now a = true ->
  (approve_operation now i actor m).2 = DecisionFailed Expired /\
  status_of i (approve_operation now i actor m).1 = Some EXPIRED.
Proof.
  intros Hi Hp He. unfold approve_operation.
  rewrite Hi, bool_decide_eq_true_2, He by exact Hp. simpl.
  split; [reflexivity|]. now rewrite status_of_insert, decide_True.
Qed.

(** C3, as the code behaves.  [deny_operation] has no expiry check:
    denying a pending request after its expiry time succeeds and
    stores DENIED. *)
Theorem deny_after_expiry_succeeds now approval_id denied_by m a :
  pending_approvals m !! approval_id = Some a ->
  ar_status a = PENDING ->
  _is_expired now a = true ->
  (deny_operation now approval_id denied_by m).2 = DecisionOk approval_id DENIED /\
  status_of approval_id (deny_operation now approval_id denied_by m).1 = Some DENIED.
Proof.
  intros Hi Hp He. unfold deny_operation.
  rewrite Hi, bool_decide_eq_true_2 by exact Hp. simpl.
  split; [reflexivity|]. now rewrite status_of_insert, decide_True.
Qed.

(** C4, as the code behaves.  [get_approval_status] tests expiry
    before it looks at the status: a request that was approved or
    denied is rewritten to EXPIRED by the first read after its expiry
    time. *)
Theorem settled_status_overwritten_on_read now approval_id m a :
  pending_approvals m !! approval_id = Some a ->
  ar_status a = APPROVED \/ ar_status a = DENIED ->
  _is_expired now a = true ->
  (get_approval_status now approval_id m).2 = StatusExpired approval_id /\
  status_of approval_id (get_approval_status now approval_id m).1 = Some EXPIRED.
Proof. intros Hi _ He. now apply expired_read_reports_expired with a. Qed.

(** ** Classification *)

Lemma mass_update_is_fifth_pattern :
  nth_error dangerous_patterns 4 = Some mass_update_pattern.
Proof. reflexivity. Qed.

Lemma operation_type_recorded q :
  In (operation_type (get_operation_info q)) recorded_kinds.
Proof.
  unfold get_operation_info. cbn [operation_type].
  repeat match goal with
         | |- context [if ?b then _ else _] => destruct b
         end; simpl; tauto.
Qed.

Lemma mass_update_operation_type q :
  re_match mass_update_pattern q = true ->
  operation_type (get_operation_info q) = u "UPDATE".
Proof.
  intros Hm. unfold mass_update_pattern in Hm.
  cbn [u list_ascii_of_string List.map] in Hm.
  apply leading_keyword_of_match in Hm; [|reflexivity].
  destruct (upper_strip_UPDATE q Hm) as (rest & Hu).
  unfold get_operation_info. cbn [operation_type]. now rewrite Hu.
Qed.

(** C8, as the code behaves.  The kind recorded with a new approval
    request is one of DROP, DELETE, ALTER, TRUNCATE, UPDATE and
    UNKNOWN, and a statement that matches the mass-update pattern
    [UPDATE ... SET ... WHERE 1=1] is recorded with kind UPDATE. *)
Theorem recorded_operation_kind approval_id now q m :
  let created := create_approval_request approval_id now q m in
  pending_approvals created.1 !! approval_id = Some created.2 /\
  ar_status created.2 = PENDING /\
  In (ar_operation_type created.2) recorded_kinds /\
  (re_match mass_update_pattern q = true ->
   ar_operation_type created.2 = u "UPDATE").
Proof.
  simpl. split; [apply lookup_insert_eq|]. split; [reflexivity|].
  split; [apply operation_type_recorded | apply mass_update_operation_type].
Qed.

(** ** The workflow on statements that are not dangerous *)

Lemma str_eqb_eq a b : str_eqb a b = true <-> a = b.
Proof.
  revert b. induction a as [|x a IH]; intros [|y b]; simpl; try easy.
  rewrite andb_true_iff, N.eqb_eq, IH. split; [intros [-> ->] | intros [= -> ->]]; auto.
Qed.


(** [_human_approval] creates a request only for a dangerous statement. *)
Lemma human_approval_ungated now st w c q :
  context st = Some c -> cx_sql_executed c = Some q ->
  is_dangerous_operation q = false ->
  exists st', _human_approval now st w = Return (st', w)
              /\ approval_id st' = approval_id st.
Proof.
  intros Hc Hq Hsafe. unfold _human_approval, context_of. rewrite Hc. simpl.
  rewrite Hq, Hsafe. simpl. destruct (truthy q); simpl; eauto.
Qed.

(** Steps 3 to 5 run a statement that is not dangerous at once and
    leave the edge to the response node. *)
Lemma check_and_execute_ungated q st w :
  is_dangerous_operation q = false ->
  let r := check_and_execute q st w in
  manager r.2 = manager w /\ threads r.2 = threads w /\
  executed r.2 = executed w ++ [q] /\
  _needs_human_approval r.1 = Return (u "response") /\
  approval_pending r.1 = approval_pending st /\
  messages r.1 = messages st.
Proof.
  intros Hsafe. unfold check_and_execute, run_executor. rewrite Hsafe.
  destruct (execute_sql_query (database w) q) as [db result]. simpl.
  repeat split; reflexivity.
Qed.

Lemma generate_and_run_ungated st w b q :
  generate_sql (database w) (last_message st) = Generated b q ->
  is_dangerous_operation q = false ->
  let r := generate_and_run st w in
  manager r.2 = manager w /\ threads r.2 = threads w /\
  _needs_human_approval r.1 = Return (u "response") /\
  approval_pending r.1 = approval_pending st.
Proof.
  intros Hg Hsafe. unfold generate_and_run. rewrite Hg.
  destruct (truthy q); simpl.
  - destruct (check_and_execute_ungated q st w Hsafe) as (? & ? & ? & ? & ? & ?).
    repeat split; assumption.
  - repeat split; reflexivity.
Qed.

Lemma llm_router_routes st :
  exists a, _llm_router st = with_next_action (Some a) st /\
    (a = u "database_operation" \/ a = u "response" \/ a = u "end").
Proof.
  unfold _llm_router. destruct (llm_router_reply (last_message st)) as [reply|].
  - destruct (existsb _ _) eqn:He.
    + eexists. split; [reflexivity|].
      cbn [existsb] in He. rewrite orb_false_r in He.
      apply orb_true_iff in He as [He | He]; [|apply orb_true_iff in He as [He | He]];
        apply str_eqb_eq in He; auto.
    + eexists. split; [reflexivity | auto].
  - eexists. split; [reflexivity | auto].
Qed.

Lemma generate_response_end now st w :
  approval_pending st = None ->
  exists st', run_node now Response st w = Return (END, st', w).
Proof.
  intros Hp. cbn [run_node]. unfold _generate_response. rewrite Hp. simpl. eauto.
Qed.

Lemma run_graph_step n now node st w :
  node <> END ->
  run_graph (S n) now node st w =
  match run_node now node st w with
  | Return (node', st', w') => run_graph n now node' st' w'
  | Raise e => (st, w, Some e)
  end.
Proof. now destruct node. Qed.

Lemma run_graph_END n now st w : run_graph n now END st w = (st, w, None).
Proof. now destruct n. Qed.

Lemma run_node_router now st w :
  exists node st1,
    run_node now Router st w = Return (node, st1, w) /\
    human_approval st1 = human_approval st /\
    approval_pending st1 = approval_pending st /\
    last_message st1 = last_message st /\
    (node = DatabaseOperation \/ node = Response \/ node = END).
Proof.
  destruct (llm_router_routes st) as (a & Hr & Ha).
  unfold run_node. rewrite Hr. unfold _should_continue.
  cbn [next_action with_next_action].
  destruct Ha as [-> | [-> | ->]]; do 2 eexists;
    (split; [reflexivity|]); repeat split; auto.
Qed.

(** A turn whose generated statement is not dangerous leaves the
    ledger as it was, whichever way the router sends it. *)
Lemma run_graph_ungated now st w b q :
  human_approval st = None -> approval_pending st = None ->
  generate_sql (database w) (last_message st) = Generated b q ->
  is_dangerous_operation q = false ->
  manager (run_graph recursion_limit now Router st w).1.2 = manager w.
Proof.
  intros Hh Hp Hg Hsafe.
  destruct (run_node_router now st w) as (node & st1 & Hr & Hh1 & Hp1 & Hl1 & Hnode).
  unfold recursion_limit.
  rewrite run_graph_step, Hr by discriminate.
  rewrite Hh in Hh1. rewrite Hp in Hp1. rewrite <- Hl1 in Hg.
  destruct Hnode as [-> | [-> | ->]].
  - rewrite run_graph_step by discriminate.
    unfold run_node, _database_operation. rewrite Hh1.
    destruct (generate_and_run_ungated st1 w b q Hg Hsafe) as (Hm & _ & Hn & Hap).
    destruct (generate_and_run st1 w) as [st2 w2]. simpl in Hm, Hn, Hap.
    rewrite Hn. cbn [bind]. replace (str_eqb _ _) with false by reflexivity.
    destruct (generate_response_end now st2 w2) as (st3 & Hresp); [congruence|].
    rewrite run_graph_step, Hresp, run_graph_END by discriminate. exact Hm.
  - destruct (generate_response_end now st1 w Hp1) as (st3 & Hresp).
    rewrite run_graph_step, Hresp, run_graph_END by discriminate. reflexivity.
  - now rewrite run_graph_END.
Qed.

Lemma chat_ungated now user_input thread_id w b q :
  existsb (str_eqb user_input) [u "__APPROVED__"; u "__DENIED__"] = false ->
  generate_sql (database w) user_input = Generated b q ->
  is_dangerous_operation q = false ->
  manager (chat now user_input thread_id w).1 = manager w.
Proof.
  intros Hin Hg Hsafe. unfold chat.
  set (tw := match thread_id with Some t => (t, w) | None => draw_uuid w end).
  assert (Htw : manager tw.2 = manager w /\ database tw.2 = database w)
    by (subst tw; now destruct thread_id).
  destruct tw as [t w0]. simpl in Htw. destruct Htw as [Hm Hdb]. rewrite Hin.
  match goal with
  | |- context [run_graph recursion_limit now Router ?st w0] =>
      pose proof (run_graph_ungated now st w0 b q eq_refl eq_refl) as Hrun;
      destruct (run_graph recursion_limit now Router st w0) as [[final w1] raised]
  end.
  simpl in Hrun. rewrite <- Hm, <- Hrun.
  - destruct raised; [reflexivity|]. now destruct (last_ai_message _).
  - unfold last_message. cbn [messages]. now rewrite last_snoc, Hdb.
  - exact Hsafe.
Qed.

(** What the workflow does with a statement that is not dangerous:
    the approval node creates no request for it, and a turn that
    generates it leaves the ledger untouched. *)
Lemma ungated_statement s :
  is_dangerous_operation s = false ->
  (forall now st w c,
     context st = Some c -> cx_sql_executed c = Some s ->
     exists st', _human_approval now st w = Return (st', w)) /\
  (forall st w,
     executed (check_and_execute s st w).2 = executed w ++ [s] /\
     _needs_human_approval (check_and_execute s st w).1 = Return (u "response")) /\
  (forall now user_input thread_id w b,
     existsb (str_eqb user_input) [u "__APPROVED__"; u "__DENIED__"] = false ->
     generate_sql (database w) user_input = Generated b s ->
     manager (chat now user_input thread_id w).1 = manager w).
Proof.
  intros Hsafe. split; [|split].
  - intros now st w c Hc Hq.
    destruct (human_approval_ungated now st w c s Hc Hq Hsafe) as (st' & Hst & _).
    eauto.
  - intros st w.
    destruct (check_and_execute_ungated s st w Hsafe) as (_ & _ & He & Hn & _).
    auto.
  - intros now user_input thread_id w b Hin Hg. now apply chat_ungated with b s.
Qed.

(** C5.  A statement whose leading keyword, after optional whitespace,
    is SELECT, INSERT, CREATE, SHOW or DESCRIBE is not dangerous,
    whatever follows the keyword; the approval node creates no request
    for it, steps 3 to 5 run it at once, and a turn that generates it
    leaves the ledger untouched. *)
Theorem safe_prefix_never_gated s :
  leading_keyword_in safe_keywords s = true ->
  is_dangerous_operation s = false /\
  (forall now st w c,
     context st = Some c -> cx_sql_executed c = Some s ->
     exists st', _human_approval now st w = Return (st', w)) /\
  (forall st w,
     executed (check_and_execute s st w).2 = executed w ++ [s] /\
     _needs_human_approval (check_and_execute s st w).1 = Return (u "response")) /\
  (forall now user_input thread_id w b,
     existsb (str_eqb user_input) [u "__APPROVED__"; u "__DENIED__"] = false ->
     generate_sql (database w) user_input = Generated b s ->
     manager (chat now user_input thread_id w).1 = manager w).
Proof.
  intros Hs%safe_leading_keyword_not_dangerous.
  split; [exact Hs | now apply ungated_statement].
Qed.

(** C10.  The empty string and every string of whitespace only are
    not dangerous; the approval node creates no request for such a
    statement, and a turn that generates it leaves the ledger
    untouched and is routed to the response node. *)
Theorem blank_statement_never_gated s :
  forallb is_space s = true ->
  is_dangerous_operation s = false /\
  (forall now st w c,
     context st = Some c -> cx_sql_executed c = Some s ->
     exists st', _human_approval now st w = Return (st', w)) /\
  (forall st w b,
     human_approval st = None ->
     generate_sql (database w) (last_message st) = Generated b s ->
     manager (_database_operation st w).2 = manager w /\
     _needs_human_approval (_database_operation st w).1 = Return (u "response")) /\
  (forall now user_input thread_id w b,
     existsb (str_eqb user_input) [u "__APPROVED__"; u "__DENIED__"] = false ->
     generate_sql (database w) user_input = Generated b s ->
     manager (chat now user_input thread_id w).1 = manager w).
Proof.
  intros Hs%blank_not_dangerous.
  destruct (ungated_statement s Hs) as (Hnode & _ & Hchat).
  split; [exact Hs|]. split; [exact Hnode|]. split; [|exact Hchat].
  intros st w b Hh Hg. unfold _database_operation. rewrite Hh.
  destruct (generate_and_run_ungated st w b s Hg Hs) as (Hm & _ & Hn & _). auto.
Qed.

(** ** Resuming a gated statement *)

Lemma lower_approved : lower (status_value APPROVED) = u "approved".
Proof. reflexivity. Qed.

(** The continuation branch on a thread whose request is approved and
    not yet expired: the stored statement is executed, and neither the
    thread nor the ledger changes. *)
Lemma resume_approved now tid w values aid c sql a :
  threads w !! tid = Some values ->
  approval_id values = Some aid -> truthy aid = true ->
  context values = Some c ->
  cx_sql_executed c = Some sql -> truthy sql = true ->
  pending_approvals (manager w) !! aid = Some a ->
  ar_status a = APPROVED ->
  _is_expired now a = false ->
  let w' := (resume now tid w).1 in
  executed w' = executed w ++ [sql] /\
  threads w' = threads w /\ manager w' = manager w.
Proof.
  intros Ht Hid Htid Hc Hq Htq Ha Hst He. unfold resume.
  rewrite Ht, Hid. cbn [truthy_str]. rewrite Htid.
  unfold get_approval_status. rewrite Ha, He. cbn [reply_status].
  rewrite Hst, lower_approved.
  replace (str_eqb (u "approved") (u "approved")) with true by reflexivity.
  unfold context_of. rewrite Hc, Hq. cbn [truthy_str]. rewrite Htq.
  unfold run_executor. cbn [database with_manager].
  destruct (execute_sql_query (database w) sql) as [db result].
  destruct (ex_success result); simpl; now destruct w.
Qed.

(** C1, as the code behaves.  The continuation branch of [chat] reads
    the thread's checkpoint and the ledger and writes neither, so a
    second [__APPROVED__] on the same thread, sent while the approval
    has not expired, executes the stored statement a second time. *)
Theorem duplicate_resume_executes_again now1 now2 tid w values aid c sql a :
  threads w !! tid = Some values ->
  approval_id values = Some aid -> truthy aid = true ->
  context values = Some c ->
  cx_sql_executed c = Some sql -> truthy sql = true ->
  pending_approvals (manager w) !! aid = Some a ->
  ar_status a = APPROVED ->
  _is_expired now1 a = false -> _is_expired now2 a = false ->
  let w1 := (chat now1 (u "__APPROVED__") (Some tid) w).1 in
  let w2 := (chat now2 (u "__APPROVED__") (Some tid) w1).1 in
  executed w1 = executed w ++ [sql] /\
  executed w2 = executed w ++ [sql; sql].
Proof.
  intros Ht Hid Htid Hc Hq Htq Ha Hst He1 He2.
  assert (Hchat : forall now w0, chat now (u "__APPROVED__") (Some tid) w0 = resume now tid w0)
    by reflexivity.
  cbn zeta. rewrite !Hchat.
  destruct (resume_approved now1 tid w values aid c sql a Ht Hid Htid Hc Hq Htq Ha Hst He1)
    as (Hx1 & Ht1 & Hm1).
  split; [exact Hx1|].
  destruct (resume_approved now2 tid (resume now1 tid w).1 values aid c sql a)
    as (Hx2 & _ & _); try assumption; try congruence.
  rewrite Hx2, Hx1, <- app_assoc. reflexivity.
Qed.

(** ** A checkpoint whose identifier the ledger does not know *)






(** ** Streaming and stop *)

Lemma session_stopped_insert sid sid' s r :
  session_stopped sid (<[sid' := deactivate s]> r) =
  if decide (sid' = sid) then true else session_stopped sid r.
Proof.
  unfold session_stopped. rewrite lookup_insert.
  now destruct (decide (sid' = sid)).
Qed.

Lemma session_stopped_delete sid r : session_stopped sid (delete sid r) = true.
Proof. unfold session_stopped. now rewrite lookup_delete_eq. Qed.

Lemma complete_removes sid sv : active_sessions (complete sid sv) !! sid = None.
Proof. unfold complete, clean_up. simpl. apply lookup_delete_eq. Qed.

Lemma clean_up_removes sid sv : active_sessions (clean_up sid sv) !! sid = None.
Proof. unfold clean_up. simpl. apply lookup_delete_eq. Qed.

Lemma session_stopped_absent sid r : r !! sid = None -> session_stopped sid r = true.
Proof. unfold session_stopped. now intros ->. Qed.

(** A stop request leaves its session stopped. *)
Lemma stop_generation_stops sid sv :
  session_stopped sid (active_sessions (stop_generation sid sv).1) = true.
Proof.
  unfold stop_generation. destruct (active_sessions sv !! sid) as [s|] eqn:Hs; simpl.
  - now rewrite session_stopped_insert, decide_True.
  - now apply session_stopped_absent.
Qed.

Lemma stop_generation_keeps_stopped sid sid' sv :
  session_stopped sid (active_sessions sv) = true ->
  session_stopped sid (active_sessions (stop_generation sid' sv).1) = true.
Proof.
  intros Hs. unfold stop_generation.
  destruct (active_sessions sv !! sid') as [s|]; simpl; [|exact Hs].
  rewrite session_stopped_insert. now destruct (decide (sid' = sid)).
Qed.

Lemma loop_head_stopped sid words i sv :
  session_stopped sid (active_sessions sv) = true ->
  let r := loop_head sid words i sv in
  session_stopped sid (active_sessions r.1.1) = true /\
  (forall c, r.2 = Some c -> is_text c = false).
Proof.
  intros Hs. unfold loop_head. destruct (i <? length words)%nat; simpl.
  - rewrite Hs. simpl. split; [exact Hs | now intros c [= <-]].
  - split; [|discriminate]. apply session_stopped_absent, complete_removes.
Qed.

(** Once the session is stopped, no event makes the generator hand out
    a text chunk, and the session stays stopped. *)
Lemma deliver_event_stopped sid tid q e ph sv :
  session_stopped sid (active_sessions sv) = true ->
  let r := deliver_event sid tid q e ph sv in
  session_stopped sid (active_sessions r.1.1) = true /\
  (forall c, r.2 = Some c -> is_text c = false).
Proof.
  intros Hs.
  destruct e as [now | sid']; destruct ph as [| words i | words i | | | |];
    cbn [deliver_event resume_stream];
    try (split; [exact Hs | discriminate]);
    try (split; [now apply stop_generation_keeps_stopped | discriminate]);
    try (split; [apply session_stopped_absent, clean_up_removes | discriminate]).
  - destruct (chat now q (Some tid) (agent sv)) as [w response].
    destruct (is_approval_request response).
    + split; [exact Hs | now intros c [= <-]].
    + now apply loop_head_stopped.
  - rewrite Hs. split; [exact Hs | now intros c [= <-]].
  - now apply loop_head_stopped.
Qed.

Lemma deliver_stopped sid tid q schedule ph sv :
  session_stopped sid (active_sessions sv) = true ->
  List.filter is_text (deliver sid tid q schedule ph sv).2 = [].
Proof.
  revert ph sv. induction schedule as [|e rest IH]; intros ph sv Hs; [reflexivity|].
  cbn [deliver].
  destruct (deliver_event_stopped sid tid q e ph sv Hs) as [Hs1 Hout].
  destruct (deliver_event sid tid q e ph sv) as [[sv1 ph1] out]. simpl in Hs1, Hout.
  specialize (IH ph1 sv1 Hs1).
  destruct (deliver sid tid q rest ph1 sv1) as [[sv2 ph2] outs]. simpl in *.
  destruct out as [c|]; [|exact IH].
  simpl. now rewrite (Hout c eq_refl).
Qed.

Lemma deliver_blocked sid tid q schedule sv :
  deliver sid tid q schedule Blocked sv = (sv, Blocked, []).
Proof.
  induction schedule as [|e rest IH]; [reflexivity|].
  cbn [deliver]. replace (deliver_event sid tid q e Blocked sv) with (sv, Blocked, @None Chunk)
    by now destruct e.
  now rewrite IH.
Qed.

Lemma deliver_app sid tid q s1 s2 ph sv :
  deliver sid tid q (s1 ++ s2) ph sv =
  let '(sv1, ph1, o1) := deliver sid tid q s1 ph sv in
  let '(sv2, ph2, o2) := deliver sid tid q s2 ph1 sv1 in
  (sv2, ph2, o1 ++ o2).
Proof.
  revert ph sv. induction s1 as [|e s1 IH]; intros ph sv; simpl.
  - now destruct (deliver sid tid q s2 ph sv) as [[? ?] ?].
  - destruct (deliver_event sid tid q e ph sv) as [[sv1 ph1] out].
    rewrite IH.
    destruct (deliver sid tid q s1 ph1 sv1) as [[sv2 ph2] o1].
    destruct (deliver sid tid q s2 ph2 sv2) as [[sv3 ph3] o2].
    now destruct out.
Qed.

(** After a stop request for the session, the generator hands out no
    further text chunk. *)
Lemma no_text_after_stop sid tid q after ph sv :
  List.filter is_text (deliver sid tid q (Stop sid :: after) ph sv).2 = [].
Proof.
  pose proof (deliver_stopped sid tid q after ph _ (stop_generation_stops sid sv)) as Hno.
  cbn [deliver].
  destruct ph; cbn [deliver_event]; rewrite ?deliver_blocked; try reflexivity;
    now destruct (deliver sid tid q after _ (stop_generation sid sv).1) as [[? ?] ?].
Qed.

(** When the generator has finished, its session is gone. *)
Lemma deliver_event_finished sid tid q e ph sv :
  (ph = Finished -> active_sessions sv !! sid = None) ->
  let r := deliver_event sid tid q e ph sv in
  r.1.2 = Finished -> active_sessions r.1.1 !! sid = None.
Proof.
  intros Hinv.
  assert (Hloop : forall words i sv0,
            (loop_head sid words i sv0).1.2 = Finished ->
            active_sessions (loop_head sid words i sv0).1.1 !! sid = None).
  { intros words i sv0. unfold loop_head.
    destruct (i <? length words)%nat; simpl.
    - now destruct (session_stopped sid (active_sessions sv0)).
    - intros _. apply complete_removes. }
  destruct e as [now | sid']; destruct ph as [| words i | words i | | | |];
    cbn [deliver_event resume_stream]; simpl; try discriminate;
    try (intros _; apply clean_up_removes);
    try (now apply Hloop).
  - destruct (chat now q (Some tid) (agent sv)) as [w response].
    destruct (is_approval_request response); [discriminate|]. apply Hloop.
  - now destruct (session_stopped sid (active_sessions sv)).
  - exact Hinv.
  - intros Hf. specialize (Hinv Hf). unfold stop_generation.
    destruct (active_sessions sv !! sid') as [s|] eqn:Hs; simpl; [|exact Hinv].
    rewrite lookup_insert_ne; [exact Hinv | congruence].
Qed.

Lemma deliver_finished sid tid q schedule ph sv :
  (ph = Finished -> active_sessions sv !! sid = None) ->
  (deliver sid tid q schedule ph sv).1.2 = Finished ->
  active_sessions (deliver sid tid q schedule ph sv).1.1 !! sid = None.
Proof.
  revert ph sv. induction schedule as [|e rest IH]; intros ph sv Hinv; [exact Hinv|].
  cbn [deliver].
  pose proof (deliver_event_finished sid tid q e ph sv Hinv) as Hstep.
  destruct (deliver_event sid tid q e ph sv) as [[sv1 ph1] out]. simpl in Hstep.
  specialize (IH ph1 sv1 Hstep).
  now destruct (deliver sid tid q rest ph1 sv1) as [[sv2 ph2] outs].
Qed.

(** C6.  The generator hands out a text chunk only in a step that has
    just found the session active, and the step that follows the chunk
    tests the session again and hands out the stop signal if it is no
    longer active.  Under every schedule of resumptions and stop
    requests, the text chunks delivered are those delivered before a
    stop request for the session, none after it; and once the generator
    has finished, the session is no longer in the registry. *)
Theorem stop_halts_text_chunks session_id thread_id request_query :
  (forall now ph sv sv' ph' chunk final,
     resume_stream now session_id thread_id request_query ph sv
       = (sv', ph', Some (TextChunk chunk final)) ->
     session_stopped session_id (active_sessions sv) = false /\
     exists words i, ph' = Emitted words i) /\
  (forall now words i sv,
     session_stopped session_id (active_sessions sv) = true ->
     resume_stream now session_id thread_id request_query (Emitted words i) sv
       = (sv, Stopping, Some StoppedChunk)) /\
  (forall before after ph sv,
     List.filter is_text
       (deliver session_id thread_id request_query
          (before ++ Stop session_id :: after) ph sv).2
     = List.filter is_text
         (deliver session_id thread_id request_query before ph sv).2) /\
  (forall schedule ph sv,
     ph <> Finished ->
     (deliver session_id thread_id request_query schedule ph sv).1.2 = Finished ->
     active_sessions (deliver session_id thread_id request_query schedule ph sv).1.1
       !! session_id = None).
Proof.
  assert (Hloop : forall words i sv sv' ph' chunk final,
            loop_head session_id words i sv = (sv', ph', Some (TextChunk chunk final)) ->
            session_stopped session_id (active_sessions sv) = false /\
            exists words i, ph' = Emitted words i).
  { intros words i sv sv' ph' chunk final. unfold loop_head.
    destruct (i <? length words)%nat; [|discriminate].
    destruct (session_stopped session_id (active_sessions sv)); [discriminate|].
    intros [= <- <- _ _]. eauto. }
  split; [|split; [|split]].
  - intros now ph sv sv' ph' chunk final.
    destruct ph as [| words i | words i | | | |]; cbn [resume_stream]; try discriminate.
    + destruct (chat now request_query (Some thread_id) (agent sv)) as [w response].
      destruct (is_approval_request response); [discriminate|].
      intros Hl. now apply Hloop in Hl.
    + now destruct (session_stopped session_id (active_sessions sv)).
    + apply Hloop.
  - intros now words i sv Hs. cbn [resume_stream]. now rewrite Hs.
  - intros before after ph sv. rewrite deliver_app.
    destruct (deliver session_id thread_id request_query before ph sv) as [[sv1 ph1] o1].
    pose proof (no_text_after_stop session_id thread_id request_query after ph1 sv1) as Hno.
    destruct (deliver session_id thread_id request_query (Stop session_id :: after) ph1 sv1)
      as [[sv2 ph2] o2].
    simpl in *. now rewrite List.filter_app, Hno, app_nil_r.
  - intros schedule ph sv Hph. apply deliver_finished. now intros ->.
Qed.

(** C7, as the code behaves.  A stop request succeeds if and only if
    the session is in the registry, active or not.  For an identifier
    that is not registered it fails with the not-found error and
    changes nothing; for a registered one it marks that session
    inactive and leaves every other session as it was. *)
Theorem stop_succeeds_iff_registered session_id sv :
  ((stop_generation session_id sv).2 = Stopped <->
   is_Some (active_sessions sv !! session_id)) /\
  (active_sessions sv !! session_id = None ->
   stop_generation session_id sv = (sv, SessionNotFound)) /\
  (forall s, active_sessions sv !! session_id = Some s ->
     active_sessions (stop_generation session_id sv).1 !! session_id
       = Some (deactivate s) /\
     agent (stop_generation session_id sv).1 = agent sv /\
     forall other, other <> session_id ->
       active_sessions (stop_generation session_id sv).1 !! other
       = active_sessions sv !! other).
Proof.
  unfold stop_generation.
  destruct (active_sessions sv !! session_id) as [s|] eqn:Hs; simpl.
  - split; [split; eauto|]. split; [discriminate|].
    intros s' [= <-]. split; [apply lookup_insert_eq|]. split; [reflexivity|].
    intros other Hne. now apply lookup_insert_ne.
  - split; [split; [discriminate | intros [? ?]; discriminate]|].
    split; [reflexivity | discriminate].
Qed.

End Properties.

(** ** The properties at the sample data *)

Lemma duplicate_resume_executes_again_witness :
  executed approved_world = [] /\
  (let w1 := (chat (seconds 3) (u "__APPROVED__") (Some (u "t1")) approved_world).1 in
   let w2 := (chat (seconds 4) (u "__APPROVED__") (Some (u "t1")) w1).1 in
   executed w1 = executed approved_world ++ [u "DROP TABLE users"] /\
   executed w2
     = executed approved_world ++ [u "DROP TABLE users"; u "DROP TABLE users"]).
Proof.
  split; [vm_compute; reflexivity|].
  exact (duplicate_resume_executes_again (H:=sample_drop)
           (seconds 3) (seconds 4) (u "t1") approved_world
           approved_thread (@uuid4 sample_drop 0) approved_context
           (u "DROP TABLE users") approved_request
           ltac:(vm_compute; reflexivity) ltac:(vm_compute; reflexivity)
           ltac:(vm_compute; reflexivity) ltac:(vm_compute; reflexivity)
           ltac:(vm_compute; reflexivity) ltac:(vm_compute; reflexivity)
           ltac:(vm_compute; reflexivity) ltac:(vm_compute; reflexivity)
           ltac:(vm_compute; reflexivity) ltac:(vm_compute; reflexivity)).
Defined.

Lemma decide_succeeds_at_most_once_witness :
  let calls :=
    [(seconds 15, CallStatus sample_id);
     (seconds 20, CallDecide sample_id APPROVE (u "carol"));
     (seconds 25, CallPending)] in
  let m' :=
    apply_calls (H:=sample) calls
      (decide_operation (seconds 10) sample_id APPROVE (u "alice") sample_ledger).1 in
  let reply := (decide_operation (seconds 30) sample_id DENY (u "bob") m').2 in
  success reply = false /\
  (forall a, pending_approvals m' !! sample_id = Some a ->
     reply = DecisionFailed (NotPending (ar_status a)) /\ ar_status a <> PENDING).
Proof.
  exact (decide_succeeds_at_most_once (H:=sample)
           (seconds 10) sample_id APPROVE (u "alice") sample_ledger
           [(seconds 15, CallStatus sample_id);
            (seconds 20, CallDecide sample_id APPROVE (u "carol"));
            (seconds 25, CallPending)]
           (seconds 30) DENY (u "bob")
           ltac:(vm_compute; reflexivity)
           ltac:(repeat constructor; simpl; tauto)).
Defined.

Lemma deny_after_expiry_succeeds_witness :
  (deny_operation (seconds 301) sample_id (u "bob") sample_ledger).2
    = DecisionOk sample_id DENIED /\
  status_of sample_id
    (deny_operation (seconds 301) sample_id (u "bob") sample_ledger).1 = Some DENIED.
Proof.
  exact (deny_after_expiry_succeeds
           (seconds 301) sample_id (u "bob") sample_ledger sample_request
           ltac:(vm_compute; reflexivity) ltac:(vm_compute; reflexivity)
           ltac:(vm_compute; reflexivity)).
Defined.

Lemma settled_status_overwritten_on_read_witness :
  (get_approval_status (seconds 301) sample_id approved_ledger).2
    = StatusExpired sample_id /\
  status_of sample_id
    (get_approval_status (seconds 301) sample_id approved_ledger).1 = Some EXPIRED.
Proof.
  exact (settled_status_overwritten_on_read
           (seconds 301) sample_id approved_ledger approved_sample_request
           ltac:(vm_compute; reflexivity)
           ltac:(left; vm_compute; reflexivity)
           ltac:(vm_compute; reflexivity)).
Defined.

Lemma safe_prefix_never_gated_witness :
  is_dangerous_operation (u "SELECT * FROM users; DROP TABLE users") = false.
Proof.
  exact (proj1 (safe_prefix_never_gated (H:=sample)
                  (u "SELECT * FROM users; DROP TABLE users")
                  ltac:(vm_compute; reflexivity))).
Defined.

Lemma stop_halts_text_chunks_witness :
  let run :=
    deliver (H:=sample) sample_session (u "t1") (u "say ten words")
      (two_chunks ++ Stop sample_session :: after_stop) Created sample_server in
  List.filter is_text run.2
    = [TextChunk (u "one two ") false; TextChunk (u "three four ") false] /\
  run.1.2 = Finished /\
  active_sessions run.1.1 !! sample_session = None.
Proof.
  destruct (stop_halts_text_chunks (H:=sample) sample_session (u "t1") (u "say ten words"))
    as (_ & _ & Hstop & Hgone).
  cbn zeta. split; [|split].
  - rewrite Hstop. vm_compute. reflexivity.
  - vm_compute. reflexivity.
  - apply Hgone; [discriminate | vm_compute; reflexivity].
Defined.

(** The claim C7 fails on a session that is registered and already
    inactive: a second stop request succeeds. *)
Lemma stop_on_inactive_session_succeeds :
  let stopped_once := (stop_generation sample_session sample_server).1 in
  is_active <$> active_sessions stopped_once !! sample_session = Some false /\
  (stop_generation sample_session stopped_once).2 = Stopped /\
  (stop_generation sample_session stopped_once).2 <> SessionNotFound.
Proof. vm_compute. repeat split; discriminate. Defined.

(** The claim C8 fails on a mass update: the kind recorded is UPDATE,
    which is not among the kinds the specification lists. *)
Lemma mass_update_kind_is_not_specified :
  let request :=
    (create_approval_request (H:=sample) sample_id 0
       (u "UPDATE users SET active = 0 WHERE 1=1") (new_manager 5)).2 in
  is_dangerous_operation (ar_sql_query request) = true /\
  re_match mass_update_pattern (ar_sql_query request) = true /\
  ar_operation_type request <> u "MASS_UPDATE" /\
  ~ In (ar_operation_type request) specified_kinds.
Proof.
  vm_compute. repeat split; try discriminate.
  intros Hin. repeat (destruct Hin as [Hin | Hin]; [discriminate|]). exact Hin.
Defined.

Lemma recorded_operation_kind_witness :
  ar_operation_type
    (create_approval_request (H:=sample) sample_id 0
       (u "UPDATE users SET active = 0 WHERE 1=1") (new_manager 5)).2 = u "UPDATE".
Proof.
  exact (proj2 (proj2 (proj2 (recorded_operation_kind (H:=sample) sample_id 0
                  (u "UPDATE users SET active = 0 WHERE 1=1") (new_manager 5))))
           ltac:(vm_compute; reflexivity)).
Defined.



Lemma blank_statement_never_gated_witness :
  is_dangerous_operation [] = false /\
  is_dangerous_operation (u "   ") = false.
Proof.
  split.
  - exact (proj1 (blank_statement_never_gated (H:=sample) []
                    ltac:(vm_compute; reflexivity))).
  - exact (proj1 (blank_statement_never_gated (H:=sample) (u "   ")
                    ltac:(vm_compute; reflexivity))).
Defined.


(** * Further properties *)

Section LedgerProperties.

Context `{Collaborators}.

(** ** The ledger, call by call *)

Lemma same_request_refl a : same_request a a.
Proof. unfold same_request. tauto. Qed.

Lemma same_request_with_status s a : same_request a (with_status s a).
Proof. unfold same_request. simpl. tauto. Qed.

Lemma same_request_trans a b c :
  same_request a b -> same_request b c -> same_request a c.
Proof. unfold same_request. intuition congruence. Qed.

(** One call keeps the request an entry carries. *)
Lemma entry_step now c i m a' :
  ~ creates i c ->
  pending_approvals (apply_call now c m) !! i = Some a' ->
  exists a, pending_approvals m !! i = Some a /\ same_request a a'.
Proof.
  intros Hc.
  assert (Hkeep : pending_approvals m !! i = Some a' ->
                  exists a, pending_approvals m !! i = Some a /\ same_request a a')
    by (intros Hi; exists a'; split; [exact Hi | apply same_request_refl]).
  destruct c as [j q | j | j o actor | |]; simpl.
  - simpl in Hc. unfold create_approval_request. simpl. rewrite lookup_insert.
    destruct (decide (j = i)); [contradiction | exact Hkeep].
  - unfold get_approval_status.
    destruct (pending_approvals m !! j) as [a|] eqn:Hj; [|exact Hkeep].
    destruct (_is_expired now a); [|exact Hkeep]. simpl. rewrite lookup_insert. destruct (decide (j = i)) as [->|]; [|exact Hkeep].
    intros [= <-]. exists a. split; [exact Hj | apply same_request_with_status].
  - destruct o; simpl; unfold approve_operation, deny_operation;
      (destruct (pending_approvals m !! j) as [a|] eqn:Hj; [|exact Hkeep]);
      (destruct (bool_decide (ar_status a = PENDING)); simpl; [|exact Hkeep]).
    + destruct (_is_expired now a); simpl; rewrite lookup_insert;
        (destruct (decide (j = i)) as [->|]; [|exact Hkeep]);
        intros [= <-]; exists a; (split; [exact Hj|]); unfold same_request; simpl; tauto.
    + simpl. rewrite lookup_insert.
      destruct (decide (j = i)) as [->|]; [|exact Hkeep].
      intros [= <-]. exists a. split; [exact Hj|]. unfold same_request. simpl. tauto.
  - intros [Hf _]%map_lookup_filter_Some. rewrite lookup_fmap in Hf.
    destruct (pending_approvals m !! i) as [a|]; simpl in Hf; [|discriminate].
    injection Hf as <-. exists a. split; [reflexivity|].
    unfold mark_expired. destruct (_is_expired now a);
      [apply same_request_with_status | apply same_request_refl].
  - intros [Hf _]%map_lookup_filter_Some. exact (Hkeep Hf).
Qed.

(** X1.  The text of a request never changes.  Through any sequence of
    calls that does not draw the identifier again, an entry that is
    still in the ledger carries the statement, kind, table name,
    description, creation time and expiry time it was created with. *)
Theorem request_is_immutable calls approval_id m a' :
  Forall (fun c : Z * LedgerCall => ~ creates approval_id c.2) calls ->
  pending_approvals (apply_calls calls m) !! approval_id = Some a' ->
  exists a, pending_approvals m !! approval_id = Some a /\ same_request a a'.
Proof.
  intros Hcalls. revert m.
  induction Hcalls as [|[now c] calls Hc _ IH]; intros m; simpl.
  - intros Hi. exists a'. split; [exact Hi | apply same_request_refl].
  - intros Hi. destruct (IH _ Hi) as (a1 & H1 & Hs1).
    destruct (entry_step now c approval_id m a1 Hc H1) as (a & Ha & Hs).
    exists a. split; [exact Ha | now apply same_request_trans with a1].
Qed.

(** X2.  Statuses only move forward.  Through any sequence of calls that
    does not draw the identifier again, the status of an entry that is
    still in the ledger is either what it was, or EXPIRED, or the entry
    was PENDING before: a settled request never becomes PENDING again,
    APPROVED and DENIED never turn into one another, and EXPIRED stays
    EXPIRED. *)
Theorem status_only_moves_forward calls approval_id m s' :
  Forall (fun c : Z * LedgerCall => ~ creates approval_id c.2) calls ->
  status_of approval_id (apply_calls calls m) = Some s' ->
  exists s, status_of approval_id m = Some s /\ may_follow s s'.
Proof.
  intros Hcalls. revert m.
  induction Hcalls as [|[now c] calls Hc _ IH]; intros m; simpl.
  - intros Hs. exists s'. split; [exact Hs | now left].
  - intros Hs. destruct (IH _ Hs) as (s1 & H1 & Hf1).
    destruct (status_step now c approval_id m s1 Hc H1) as (s & Hs0 & Hstep).
    exists s. split; [exact Hs0|]. unfold may_follow in *.
    destruct s; try tauto;
      destruct Hstep as [-> | [[? _] | ->]]; try discriminate; try tauto;
      destruct Hf1 as [-> | [-> | ?]]; try discriminate; tauto.
Qed.

(** X3.  A new request reads as PENDING, with approval still required,
    at every clock reading up to and including its expiry time
    (creation time plus the timeout), and as EXPIRED after it. *)
Theorem created_request_reads_pending approval_id now now' q m :
  let created := create_approval_request approval_id now q m in
  let expires_at := (now + timeout_seconds m * 1000000)%Z in
  ((now' <= expires_at)%Z ->
   get_approval_status now' approval_id created.1
     = (created.1, StatusKnown approval_id PENDING true created.2)) /\
  ((expires_at < now')%Z ->
   (get_approval_status now' approval_id created.1).2 = StatusExpired approval_id).
Proof.
  cbn zeta. unfold get_approval_status, create_approval_request.
  cbn [fst snd pending_approvals with_pending]. rewrite lookup_insert_eq.
  unfold _is_expired. cbn [ar_expires_at ar_status].
  split; intros Ht.
  - replace (_ <? _)%Z with false by (symmetry; apply Z.ltb_ge; lia). reflexivity.
  - replace (_ <? _)%Z with true by (symmetry; apply Z.ltb_lt; lia). reflexivity.
Qed.

(** X4.  When a decision succeeds and what it writes.  A decision
    succeeds exactly when the request is known and PENDING and, for an
    approval, not past its expiry time.  It then stores the new status,
    the actor under [approved_by] (also for a denial) and the time under
    [approved_at] or [denied_at], keeps the request itself, and touches
    no other entry. *)
Theorem decision_succeeds_iff now approval_id o actor m :
  let r := decide_operation now approval_id o actor m in
  (success r.2 = true <->
   exists a, pending_approvals m !! approval_id = Some a /\ ar_status a = PENDING /\
             (o = APPROVE -> _is_expired now a = false)) /\
  (success r.2 = true ->
   exists a a',
     pending_approvals m !! approval_id = Some a /\
     pending_approvals r.1 !! approval_id = Some a' /\
     same_request a a' /\
     ar_approved_by a' = Some actor /\
     match o with
     | APPROVE => ar_status a' = APPROVED /\ ar_approved_at a' = Some now /\
                  ar_denied_at a' = ar_denied_at a
     | DENY => ar_status a' = DENIED /\ ar_denied_at a' = Some now /\
               ar_approved_at a' = ar_approved_at a
     end) /\
  (forall other, other <> approval_id ->
     pending_approvals r.1 !! other = pending_approvals m !! other).
Proof.
  cbn zeta.
  destruct o; simpl; unfold approve_operation, deny_operation;
    destruct (pending_approvals m !! approval_id) as [a|] eqn:Hi; simpl;
    try (split; [split; [discriminate | intros (? & [=] & _)] | split; [discriminate | auto]]);
    destruct (bool_decide (ar_status a = PENDING)) eqn:Hp; simpl;
    try (apply bool_decide_eq_false in Hp;
         split; [split; [discriminate | intros (? & [= <-] & ? & _); contradiction]
                | split; [discriminate | auto]]);
    apply bool_decide_eq_true in Hp.
  - destruct (_is_expired now a) eqn:He; simpl.
    + split; [split; [discriminate | intros (? & [= <-] & _ & Hx); specialize (Hx eq_refl); congruence]|].
      split; [discriminate|]. intros other Hne. now apply lookup_insert_ne.
    + split; [split; [intros _; exists a; auto | reflexivity]|].
      split.
      * intros _. exists a. eexists. split; [reflexivity|].
        split; [apply lookup_insert_eq|]. unfold same_request. simpl. tauto.
      * intros other Hne. now apply lookup_insert_ne.
  - split; [split; [intros _; exists a; split; [reflexivity|]; split; [exact Hp | discriminate]
                   | reflexivity]|].
    split.
    + intros _. exists a. eexists. split; [reflexivity|].
      split; [apply lookup_insert_eq|]. unfold same_request. simpl. tauto.
    + intros other Hne. now apply lookup_insert_ne.
Qed.

(** X5.  Once a status read or an approval attempt has seen a pending
    request past its expiry time, the request is stored as EXPIRED and
    every later decision on it, approval or denial, is refused as not
    pending. *)
Theorem observed_expiry_blocks_decisions now approval_id m a :
  pending_approvals m !! approval_id = Some a ->
  ar_status a = PENDING ->
  _is_expired now a = true ->
  forall now' o actor actor0,
    let read := (get_approval_status now approval_id m).1 in
    let tried := approve_operation now approval_id actor0 m in
    decide_operation now' approval_id o actor read
      = (read, DecisionFailed (NotPending EXPIRED)) /\
    tried.2 = DecisionFailed Expired /\
    decide_operation now' approval_id o actor tried.1
      = (tried.1, DecisionFailed (NotPending EXPIRED)).
Proof.
  intros Hi Hp He now' o actor actor0. cbn zeta.
  assert (Hread : (get_approval_status now approval_id m).1
                  = with_pending (<[approval_id := with_status EXPIRED a]>
                                    (pending_approvals m)) m)
    by (unfold get_approval_status; now rewrite Hi, He).
  assert (Htried : approve_operation now approval_id actor0 m
                   = (with_pending (<[approval_id := with_status EXPIRED a]>
                                      (pending_approvals m)) m, DecisionFailed Expired))
    by (unfold approve_operation; now rewrite Hi, bool_decide_eq_true_2, He).
  rewrite Hread, Htried. cbn [fst snd].
  assert (Hd : decide_operation now' approval_id o actor
                 (with_pending (<[approval_id := with_status EXPIRED a]>
                                  (pending_approvals m)) m)
               = (with_pending (<[approval_id := with_status EXPIRED a]>
                                  (pending_approvals m)) m,
                  DecisionFailed (NotPending EXPIRED))).
  { apply (decide_settled now' approval_id o actor _ (with_status EXPIRED a));
      [apply lookup_insert_eq | discriminate]. }
  auto.
Qed.

End LedgerProperties.


Section SweepProperties.

Context `{Collaborators}.

(** ** Sweeping the ledger *)

Lemma size_filter_list (P : str * Approval -> Prop) `{!forall x, Decision (P x)}
    (p : gmap str Approval) :
  size (filter P p) = length (filter P (map_to_list p)).
Proof.
  rewrite map_filter_alt. apply map_size_list_to_map.
  apply (sublist_NoDup _ ((map_to_list p).*1)); [apply NoDup_fst_map_to_list|].
  apply fmap_sublist, sublist_filter.
Qed.

Lemma valid_and_expired_partition now (l : list (str * Approval)) :
  (length (filter (still_valid now) l)
   + length (List.filter (fun entry : str * Approval => _is_expired now entry.2) l)
   = length l)%nat.
Proof.
  induction l as [|x l IH]; [reflexivity|].
  rewrite filter_cons. simpl. unfold still_valid at 1.
  destruct (decide (_is_expired now x.2 = false)) as [Hv | Hv].
  - rewrite Hv. simpl. now rewrite IH.
  - apply not_false_is_true in Hv. rewrite Hv. simpl. lia.
Qed.

Lemma expired_mark_expired now a : _is_expired now (mark_expired now a) = _is_expired now a.
Proof. unfold mark_expired. now destruct (_is_expired now a) eqn:He. Qed.

(** X6.  The sweep removes exactly the entries past their expiry time,
    whatever their status, keeps every other entry as it is, and
    returns the number of entries it removed. *)
Theorem cleanup_removes_exactly_expired now m :
  let r := cleanup_expired_approvals now m in
  (forall i,
     pending_approvals r.1 !! i =
     match pending_approvals m !! i with
     | Some a => if _is_expired now a then None else Some a
     | None => None
     end) /\
  size (pending_approvals m) = (size (pending_approvals r.1) + r.2)%nat /\
  timeout_seconds r.1 = timeout_seconds m.
Proof.
  cbn zeta. unfold cleanup_expired_approvals. cbn [fst snd pending_approvals with_pending].
  split; [|split; [|reflexivity]].
  - intros i. apply option_eq. intros x. rewrite map_lookup_filter_Some.
    unfold still_valid. simpl.
    destruct (pending_approvals m !! i) as [a|]; [|split; [intros [[=] _] | discriminate]].
    destruct (_is_expired now a) eqn:He.
    + split; [intros [[= <-] Hv]; congruence | discriminate].
    + split; [now intros [[= <-] _] | intros [= <-]; auto].
  - rewrite size_filter_list, <- (length_map_to_list (pending_approvals m)).
    symmetry. apply valid_and_expired_partition.
Qed.

(** X7.  Listing the pending requests sweeps as well.  The ledger it
    leaves is the one the sweep leaves, holding no entry past its
    expiry time, and the list holds exactly the entries that are
    PENDING and not past their expiry time. *)
Theorem pending_listing_sweeps now m :
  let r := get_pending_approvals now m in
  r.1 = (cleanup_expired_approvals now m).1 /\
  (forall a, In a r.2 <->
     exists i, pending_approvals m !! i = Some a /\
               _is_expired now a = false /\ ar_status a = PENDING) /\
  (forall i a, pending_approvals r.1 !! i = Some a -> _is_expired now a = false).
Proof.
  cbn zeta. unfold get_pending_approvals, cleanup_expired_approvals. cbn [fst snd].
  assert (Heq : filter (still_valid now) (mark_expired now <$> pending_approvals m)
                = filter (still_valid now) (pending_approvals m)).
  { apply map_eq. intros i. apply option_eq. intros x.
    rewrite !map_lookup_filter_Some, lookup_fmap, fmap_Some. unfold still_valid. simpl.
    split.
    - intros [(a & Ha & ->) Hv]. rewrite expired_mark_expired in Hv.
      unfold mark_expired. rewrite Hv. auto.
    - intros [Ha Hv]. split; [|exact Hv]. exists x. split; [exact Ha|].
      unfold mark_expired. now rewrite Hv. }
  split; [now rewrite Heq|]. split.
  - intros a. rewrite filter_In, andb_true_iff, negb_true_iff, bool_decide_eq_true.
    rewrite <- list_elem_of_In, list_elem_of_fmap. split.
    + intros [([i a0] & -> & Hin) [He Hp]]. exists i.
      apply elem_of_map_to_list in Hin. auto.
    + intros (i & Hi & He & Hp). split; [|auto].
      exists (i, a). split; [reflexivity | now apply elem_of_map_to_list].
  - intros i a. cbn [pending_approvals with_pending]. rewrite Heq.
    now intros [_ Hv]%map_lookup_filter_Some.
Qed.

End SweepProperties.


(** ** The classifier in plain terms *)

Lemma star_k_total {R} (p : N -> bool) (k : str -> option R) s :
  (forall t, k t <> None) -> star_k p k s <> None.
Proof.
  intros Hk. induction s as [|c s IH]; simpl; [apply Hk|].
  destruct (p c); [|apply Hk]. now destruct (star_k p k s).
Qed.

Lemma lstrip_cons_space c s : is_space c = true -> lstrip (c :: s) = lstrip s.
Proof. intros Hc. simpl. now rewrite Hc. Qed.

Lemma kw_fails_on_space {R} p w r c s (k : str -> option R) :
  is_space (ascii_lower p) = false -> is_space c = true ->
  rmatch (Seq (kw (p :: w)) r) (c :: s) k = None.
Proof.
  intros Hp Hc. rewrite rmatch_kw. cbn [ci_starts_with].
  destruct (ci_lit p c) eqn:Hm; [|reflexivity].
  apply (ci_lit_not_space p c Hp) in Hm. congruence.
Qed.

(** The tail [\s+] of a pattern, which nothing follows. *)
Lemma plus_space_at_end s :
  rmatch (Seq (Plus is_space) Eps) s (fun _ => Some tt) =
  match s with
  | c :: _ => if is_space c then Some tt else None
  | [] => None
  end.
Proof.
  destruct s as [|c s]; [reflexivity|]. cbn [rmatch].
  destruct (is_space c); [|reflexivity].
  pose proof (star_k_total is_space (fun s1 : str => rmatch Eps s1 (fun _ => Some tt)) s) as Ht.
  destruct (star_k _ _ s) as [[]|]; [reflexivity|].
  exfalso. apply Ht; [discriminate | reflexivity].
Qed.

Lemma kw_then_plus_space w s :
  rmatch (Seq (kw w) (Seq (Plus is_space) Eps)) s (fun _ => Some tt) =
  if keyword_then_space w s then Some tt else None.
Proof.
  rewrite rmatch_kw. unfold keyword_then_space.
  destruct (ci_starts_with w s); [|reflexivity]. rewrite plus_space_at_end. simpl.
  destruct (drop (length w) s) as [|c t]; [reflexivity|]. now destruct (is_space c).
Qed.

(** A pattern [^\s*WORD\s+] *)
Lemma re_match_one_keyword p w s :
  is_space (ascii_lower p) = false ->
  re_match (cat [Star is_space; kw (p :: w); Plus is_space]) s =
  keyword_then_space (p :: w) (lstrip s).
Proof.
  intros Hp. unfold re_match.
  change (cat [Star is_space; kw (p :: w); Plus is_space])
    with (Seq (Star is_space) (Seq (kw (p :: w)) (Seq (Plus is_space) Eps))).
  rewrite rmatch_seq_star, star_k_skip
    by (intros c s' Hc; now apply kw_fails_on_space).
  rewrite kw_then_plus_space. now destruct (keyword_then_space _ _).
Qed.

(** A pattern [^\s*WORD\s+WORD\s+] *)
Lemma re_match_two_keywords p w p2 w2 s :
  is_space (ascii_lower p) = false ->
  is_space (ascii_lower p2) = false ->
  re_match (cat [Star is_space; kw (p :: w); Plus is_space; kw (p2 :: w2); Plus is_space]) s =
  two_keywords (p :: w) (p2 :: w2) (lstrip s).
Proof.
  intros Hp Hp2. unfold re_match.
  change (cat [Star is_space; kw (p :: w); Plus is_space; kw (p2 :: w2); Plus is_space])
    with (Seq (Star is_space)
            (Seq (kw (p :: w))
               (Seq (Plus is_space) (Seq (kw (p2 :: w2)) (Seq (Plus is_space) Eps))))).
  rewrite rmatch_seq_star, star_k_skip
    by (intros c s' Hc; now apply kw_fails_on_space).
  rewrite rmatch_kw. unfold two_keywords, keyword_then_space at 1.
  destruct (ci_starts_with (p :: w) (lstrip s)); [|reflexivity].
  cbn [andb]. set (t := drop (length (p :: w)) (lstrip s)).
  destruct t as [|c t]; [reflexivity|].
  change (rmatch (Seq (Plus is_space) ?r) (c :: t) ?k)
    with (if is_space c then star_k is_space (fun s1 => rmatch r s1 k) t else None).
  destruct (is_space c) eqn:Hc; [|reflexivity].
  rewrite star_k_skip by (intros c' s' Hc'; now apply kw_fails_on_space).
  rewrite kw_then_plus_space, (lstrip_cons_space c t Hc).
  now destruct (keyword_then_space _ _).
Qed.

(** A pattern that starts [^\s*WORD] sees the subject from its first
    non-blank code point on. *)
Lemma re_match_from_lstrip p w rest s :
  is_space (ascii_lower p) = false ->
  re_match (cat (Star is_space :: kw (p :: w) :: rest)) s =
  re_match (cat (kw (p :: w) :: rest)) (lstrip s).
Proof.
  intros Hp. unfold re_match.
  change (cat (Star is_space :: kw (p :: w) :: rest))
    with (Seq (Star is_space) (Seq (kw (p :: w)) (cat rest))).
  change (cat (kw (p :: w) :: rest)) with (Seq (kw (p :: w)) (cat rest)).
  now rewrite rmatch_seq_star, star_k_skip
    by (intros c s' Hc; now apply kw_fails_on_space).
Qed.

Lemma ci_starts_with_nonblank p w s :
  is_space (ascii_lower p) = false ->
  ci_starts_with (p :: w) (lstrip s) = true ->
  truthy s = true /\ truthy (strip s) = true.
Proof.
  intros Hp Hm. unfold strip.
  destruct (lstrip s) as [|c t] eqn:Hl; [discriminate|].
  simpl in Hm. apply andb_true_iff in Hm as [Hc _].
  apply (ci_lit_not_space p c Hp) in Hc.
  split.
  - destruct s; [discriminate | reflexivity].
  - rewrite (rstrip_cons c t Hc). reflexivity.
Qed.

Lemma leading_keyword_nonblank ks s :
  Forall (fun w => match w with p :: _ => is_space (ascii_lower p) = false | [] => False end) ks ->
  leading_keyword_in ks s = true ->
  truthy s = true /\ truthy (strip s) = true.
Proof.
  intros Hks. unfold leading_keyword_in. rewrite existsb_exists.
  intros (w & Hin & Hm). rewrite Forall_forall in Hks.
  specialize (Hks w). rewrite list_elem_of_In in Hks. specialize (Hks Hin).
  destruct w as [|p w]; [contradiction|]. now apply ci_starts_with_nonblank with p w.
Qed.

Lemma pattern_leading_keyword s :
  existsb (fun pattern => re_match pattern s) dangerous_patterns = true ->
  leading_keyword_in dangerous_keywords s = true.
Proof.
  intros Hd. unfold dangerous_patterns in Hd. cbn [existsb] in Hd.
  unfold leading_keyword_in, dangerous_keywords.
  cbn [existsb u list_ascii_of_string List.map].
  repeat (apply orb_true_iff in Hd; destruct Hd as [Hd | Hd]);
    try discriminate;
    apply leading_keyword_of_match in Hd; try reflexivity;
    rewrite Hd; now rewrite ?orb_true_r.
Qed.

Lemma safe_pattern_leading_keyword s :
  existsb (fun pattern => re_match pattern s) safe_patterns = true ->
  leading_keyword_in safe_keywords s = true.
Proof.
  intros Hd. unfold safe_patterns in Hd. cbn [existsb] in Hd.
  unfold leading_keyword_in, safe_keywords.
  cbn [existsb u list_ascii_of_string List.map].
  repeat (apply orb_true_iff in Hd; destruct Hd as [Hd | Hd]);
    try discriminate;
    apply leading_keyword_of_match in Hd; try reflexivity;
    rewrite Hd; now rewrite ?orb_true_r.
Qed.

Lemma safe_and_dangerous_keywords_clash s :
  leading_keyword_in safe_keywords s = true ->
  leading_keyword_in dangerous_keywords s = true -> False.
Proof.
  unfold leading_keyword_in. intros Hsafe Hd.
  apply existsb_exists in Hsafe as (w1 & Hin1 & H1).
  apply existsb_exists in Hd as (w2 & Hin2 & H2).
  pose proof (ci_starts_with_agree _ _ _ H1 H2) as Hagree.
  simpl in Hin1, Hin2.
  repeat (destruct Hin1 as [<- | Hin1]; [|]);
    try contradiction;
    repeat (destruct Hin2 as [<- | Hin2]; [|]);
    try contradiction; vm_compute in Hagree; discriminate.
Qed.

(** The guard for blank input and the pass over the safe patterns
    never change the verdict of the dangerous patterns. *)
Lemma dangerous_iff_pattern s :
  is_dangerous_operation s =
  existsb (fun pattern => re_match pattern s) dangerous_patterns.
Proof.
  unfold is_dangerous_operation.
  destruct (existsb _ dangerous_patterns) eqn:Hd;
    [|now repeat match goal with |- context [if ?b then _ else _] => destruct b end].
  apply pattern_leading_keyword in Hd.
  destruct (leading_keyword_nonblank dangerous_keywords s) as [H1 H2];
    [repeat constructor | exact Hd |].
  rewrite H1, H2. cbn [negb orb].
  destruct (existsb _ safe_patterns) eqn:Hs; [|reflexivity].
  apply safe_pattern_leading_keyword in Hs.
  destruct (safe_and_dangerous_keywords_clash s Hs Hd).
Qed.

(** X8.  The classifier without patterns.  A statement is flagged
    exactly when, after its leading whitespace, it reads DROP and a
    whitespace code point; or DELETE, whitespace, FROM and a whitespace
    code point; or ALTER, whitespace, TABLE and a whitespace code point;
    or TRUNCATE, whitespace, TABLE and a whitespace code point (letter
    case aside); or when it matches the mass-update pattern. *)
Theorem classifier_in_plain_terms s :
  is_dangerous_operation s =
  (keyword_then_space (u "DROP") (lstrip s)
   || two_keywords (u "DELETE") (u "FROM") (lstrip s)
   || two_keywords (u "ALTER") (u "TABLE") (lstrip s)
   || two_keywords (u "TRUNCATE") (u "TABLE") (lstrip s)
   || re_match mass_update_pattern s).
Proof.
  rewrite dangerous_iff_pattern. unfold dangerous_patterns.
  cbn [existsb u list_ascii_of_string List.map].
  rewrite re_match_one_keyword by reflexivity.
  rewrite !re_match_two_keywords by reflexivity.
  rewrite orb_false_r, !orb_assoc. reflexivity.
Qed.

(** X9.  Leading whitespace does not change the verdict. *)
Theorem leading_blanks_do_not_matter ws s :
  forallb is_space ws = true ->
  is_dangerous_operation (ws ++ s) = is_dangerous_operation s.
Proof.
  intros Hws. rewrite !dangerous_iff_pattern. unfold dangerous_patterns.
  cbn [existsb u list_ascii_of_string List.map].
  rewrite !(re_match_from_lstrip _ _ _ (ws ++ s)) by reflexivity.
  rewrite !(re_match_from_lstrip _ _ _ s) by reflexivity.
  now rewrite (lstrip_app_blank ws s Hws).
Qed.


Section KindAndTable.

Context `{Collaborators}.

(** ** The kind and the table name of a statement *)

Lemma plain_capital_not_space p : plain_capital p -> is_space p = false.
Proof.
  intros (Hp & _). destruct (is_space p) eqn:Hs; [|reflexivity].
  apply is_space_elem in Hs. simpl in Hs.
  repeat (destruct Hs as [<- | Hs]; [lia|]). contradiction.
Qed.

Lemma rstrip_app_nonspace w tail :
  Forall plain_capital w -> rstrip (w ++ tail) = w ++ rstrip tail.
Proof.
  induction 1 as [|p w Hp _ IH]; [reflexivity|].
  simpl app. rewrite rstrip_cons by now apply plain_capital_not_space.
  now rewrite IH.
Qed.

(** A statement whose first non-blank letters spell a keyword made of
    plain capitals is, once uppercased and stripped, a text that starts
    with that keyword. *)
Lemma upper_strip_keyword p w q :
  Forall plain_capital (p :: w) ->
  ci_starts_with (p :: w) (lstrip q) = true ->
  strip (upper q) = (p :: w) ++ rstrip (upper (drop (length (p :: w)) (lstrip q))).
Proof.
  intros Hw Hq. destruct (lstrip_split q) as (ws & Hws & Heq).
  set (tail := upper (drop (length (p :: w)) (lstrip q))).
  assert (Hu : upper q = ws ++ (p :: w) ++ tail).
  { rewrite Heq at 1. unfold upper. rewrite flat_map_app.
    fold (upper ws). fold (upper (lstrip q)).
    now rewrite (upper_blank ws Hws), (ci_starts_with_upper _ _ Hw Hq). }
  rewrite Hu. unfold strip. rewrite (lstrip_app_blank ws _ Hws).
  assert (Hp : is_space p = false)
    by (apply plain_capital_not_space; now inversion Hw).
  replace (lstrip ((p :: w) ++ tail)) with ((p :: w) ++ tail)
    by (simpl; now rewrite Hp).
  now apply rstrip_app_nonspace.
Qed.

Lemma plain_dangerous_keywords : Forall (Forall plain_capital) dangerous_keywords.
Proof. repeat constructor; unfold plain_capital; simpl; lia. Qed.

(** X10.  The kind recorded for a flagged statement is its leading
    keyword: one of DROP, DELETE, ALTER, TRUNCATE and UPDATE, never
    UNKNOWN, and the statement's first non-blank letters spell it. *)
Theorem dangerous_kind_is_leading_keyword s :
  is_dangerous_operation s = true ->
  In (operation_type (get_operation_info s)) dangerous_keywords /\
  ci_starts_with (operation_type (get_operation_info s)) (lstrip s) = true.
Proof.
  intros Hd%dangerous_leading_keyword.
  unfold leading_keyword_in in Hd. apply existsb_exists in Hd as (w & Hin & Hm).
  pose proof plain_dangerous_keywords as Hplain.
  rewrite Forall_forall in Hplain. specialize (Hplain w).
  rewrite list_elem_of_In in Hplain. specialize (Hplain Hin).
  assert (Hk : operation_type (get_operation_info s) = w).
  { unfold dangerous_keywords in Hin. simpl in Hin.
    repeat (destruct Hin as [<- | Hin]; [|]); try contradiction;
      unfold get_operation_info; cbn [operation_type];
      cbn [u list_ascii_of_string List.map] in Hplain, Hm;
      rewrite (upper_strip_keyword _ _ s Hplain Hm); reflexivity. }
  rewrite Hk. split; [exact Hin | exact Hm].
Qed.

Lemma star_k_cont {R} (p : N -> bool) (k : str -> option R) s x :
  star_k p k s = Some x -> exists pre s', s = pre ++ s' /\ k s' = Some x.
Proof.
  induction s as [|c s IH]; simpl.
  - intros Hk. now exists [], [].
  - destruct (p c).
    + destruct (star_k p k s) as [y|] eqn:Hs.
      * intros [= ->]. destruct (IH eq_refl) as (pre & s' & -> & Hk).
        now exists (c :: pre), s'.
      * intros Hk. now exists [], (c :: s).
    + intros Hk. now exists [], (c :: s).
Qed.

(** A successful match hands the continuation a suffix of the subject. *)
Lemma rmatch_cont {R} r s (k : str -> option R) x :
  rmatch r s k = Some x -> exists pre s', s = pre ++ s' /\ k s' = Some x.
Proof.
  revert s k. induction r as [| p | r1 IH1 r2 IH2 | p | p | r1 IH1]; intros s k; simpl.
  - intros Hk. now exists [], s.
  - destruct s as [|c s]; [discriminate|]. destruct (p c); [|discriminate].
    intros Hk. now exists [c], s.
  - intros (pre1 & s1 & -> & H2)%IH1. apply IH2 in H2 as (pre2 & s2 & -> & Hk).
    exists (pre1 ++ pre2), s2. now rewrite app_assoc.
  - apply star_k_cont.
  - destruct s as [|c s]; [discriminate|]. destruct (p c); [|discriminate].
    intros (pre & s' & -> & Hk)%star_k_cont. now exists (c :: pre), s'.
  - destruct (rmatch r1 s k) as [y|] eqn:H1.
    + intros [= ->]. now apply IH1.
    + intros Hk. now exists [], s.
Qed.

Lemma search_cont {R} r (k : str -> option R) s x :
  search r k s = Some x -> exists pre s', s = pre ++ s' /\ k s' = Some x.
Proof.
  induction s as [|c s IH]; simpl.
  - destruct (rmatch r [] k) as [y|] eqn:Hm; [|discriminate].
    intros [= ->]. now apply rmatch_cont in Hm.
  - destruct (rmatch r (c :: s) k) as [y|] eqn:Hm.
    + intros [= ->]. now apply rmatch_cont in Hm.
    + intros (pre & s' & -> & Hk)%IH. now exists (c :: pre), s'.
Qed.

Lemma take_while_split (p : N -> bool) s :
  forallb p (take_while p s) = true /\
  exists rest, s = take_while p s ++ rest /\
    match rest with c :: _ => p c = false | [] => True end.
Proof.
  induction s as [|c s (Hall & rest & Heq & Hrest)]; simpl.
  - split; [reflexivity|]. now exists [].
  - destruct (p c) eqn:Hc; simpl.
    + rewrite Hc, Hall. split; [reflexivity|]. exists rest. split; [congruence | exact Hrest].
    + split; [reflexivity|]. now exists (c :: s).
Qed.

(** X11.  The table name taken from a statement, when there is one, is a
    non-empty run of word characters that stands in the statement and
    is not followed there by another word character. *)
Theorem extracted_table_name_is_a_word q name :
  _extract_table_name q = Some name ->
  name <> [] /\ forallb is_word name = true /\
  exists before rest,
    q = before ++ name ++ rest /\
    match rest with c :: _ => is_word c = false | [] => True end.
Proof.
  unfold _extract_table_name.
  assert (Hcap : forall s', capture_run is_word s' = Some name ->
            name <> [] /\ forallb is_word name = true /\
            exists rest, s' = name ++ rest /\
              match rest with c :: _ => is_word c = false | [] => True end).
  { intros s'. unfold capture_run.
    destruct (take_while_split is_word s') as (Hall & rest & Heq & Hrest).
    destruct (take_while is_word s') as [|c w] eqn:Ht; [discriminate|].
    intros [= <-]. split; [discriminate|]. split; [exact Hall|]. now exists rest. }
  assert (Hfirst : forall patterns,
            first_table_name patterns q = Some name ->
            exists pre s', q = pre ++ s' /\ capture_run is_word s' = Some name).
  { induction patterns as [|pattern rest IH]; simpl; [discriminate|].
    destruct (search pattern (capture_run is_word) q) as [y|] eqn:Hs; [|exact IH].
    intros [= ->]. now apply search_cont in Hs. }
  intros (pre & s' & -> & Hc)%Hfirst.
  destruct (Hcap s' Hc) as (Hne & Hall & rest & -> & Hrest).
  split; [exact Hne|]. split; [exact Hall|]. now exists pre, rest.
Qed.

End KindAndTable.


Section TurnProperties.

Context `{Collaborators}.

(** ** One ordinary turn of the conversation *)

Lemma dangerous_is_truthy q : is_dangerous_operation q = true -> truthy q = true.
Proof.
  unfold is_dangerous_operation. destruct (truthy q); [reflexivity|]. discriminate.
Qed.

(** What statement generation and steps 3 to 5 leave behind: a context
    without an approval flag, after at most one execution of a
    statement that is not dangerous; or the context of a dangerous
    statement that waits for the gate, and nothing executed. *)
Lemma generate_and_run_outcome st w :
  let r := generate_and_run st w in
  threads r.2 = threads w /\ manager r.2 = manager w /\
  uuid_draws r.2 = uuid_draws w /\
  messages r.1 = messages st /\ approval_pending r.1 = approval_pending st /\
  human_approval r.1 = human_approval st /\ approval_id r.1 = approval_id st /\
  next_action r.1 = next_action st /\
  exists c, context r.1 = Some c /\ cx_sql_query c = None /\
    ((cx_requires_approval c = None /\
      ((executed r.2 = executed w /\ database r.2 = database w) \/
       exists b q, generate_sql (database w) (last_message st) = Generated b q /\
                   is_dangerous_operation q = false /\
                   executed r.2 = executed w ++ [q]))
     \/
     (exists b q, generate_sql (database w) (last_message st) = Generated b q /\
                  is_dangerous_operation q = true /\
                  r.2 = w /\ cx_requires_approval c = Some true /\
                  cx_sql_executed c = Some q)).
Proof.
  cbn zeta. unfold generate_and_run.
  destruct (generate_sql (database w) (last_message st)) as [| | b q | e] eqn:Hg;
    try (cbn; repeat (split; [reflexivity|]); eexists; split; [reflexivity|];
         split; [reflexivity|]; left; split; [reflexivity|]; left; split; reflexivity).
  destruct (truthy q) eqn:Hq; cbn [negb].
  - unfold check_and_execute. destruct (is_dangerous_operation q) eqn:Hd.
    + cbn. repeat (split; [reflexivity|]). eexists. split; [reflexivity|].
      split; [reflexivity|]. right. exists b, q. repeat split; auto.
    + unfold run_executor. destruct (execute_sql_query (database w) q) as [db result].
      cbn. repeat (split; [reflexivity|]). eexists. split; [reflexivity|].
      split; [reflexivity|]. left. split; [reflexivity|]. right.
      exists b, q. repeat split; auto.
  - cbn. repeat (split; [reflexivity|]). eexists. split; [reflexivity|].
    split; [reflexivity|]. left. split; [reflexivity|]. left. split; reflexivity.
Qed.

Lemma respond_plain now st w :
  approval_pending st = None ->
  run_node now Response st w
  = Return (END, append_message (AIMessage (llm_response st)) st, w).
Proof. intros Hp. cbn [run_node]. unfold _generate_response. now rewrite Hp. Qed.

Lemma respond_with_prompt now st w c prompt :
  approval_pending st = Some true ->
  context st = Some c -> cx_requires_approval c = Some true ->
  cx_operation_result c = Some prompt ->
  run_node now Response st w = Return (END, append_message (AIMessage prompt) st, w).
Proof.
  intros Hp Hc Hr Ho. cbn [run_node]. unfold _generate_response, context_of.
  rewrite Hp, Hc. cbn. now rewrite Hr, Ho.
Qed.

(** The request the gate creates for the statement [q], and the
    status read that follows it. *)
Lemma gate_node now st w c q :
  context st = Some c -> cx_sql_executed c = Some q ->
  is_dangerous_operation q = true ->
  let id := uuid4 (uuid_draws w) in
  let created := create_approval_request id now q (manager w) in
  exists st' w',
    run_node now HumanApproval st w = Return (Response, st', w') /\
    executed w' = executed w /\ threads w' = threads w /\
    database w' = database w /\ uuid_draws w' = S (uuid_draws w) /\
    messages st' = messages st /\ approval_pending st' = Some true /\
    approval_id st' = Some id /\
    context st' =
      Some {| cx_operation_result :=
                Some (approval_message (ar_operation_type created.2)
                        (ar_table_name created.2) q id);
              cx_sql_query := None;
              cx_sql_executed := Some q;
              cx_requires_approval := Some true;
              cx_approval_id := Some id;
              cx_sql_generated := None;
              cx_execution_successful := None |} /\
    manager w' =
      (if truthy id
       then (get_approval_status (status_read_time now w) id created.1).1
       else created.1).
Proof.
  intros Hc Hq Hd. cbn zeta.
  pose proof (dangerous_is_truthy q Hd) as Ht.
  cbn [run_node]. unfold _human_approval, context_of. rewrite Hc. cbn [bind].
  rewrite Hq, Ht, Hd. cbn [negb]. unfold draw_uuid.
  set (id := uuid4 (uuid_draws w)).
  set (later := status_read_time now w).
  unfold create_approval_request. cbn [fst snd manager ar_id ar_operation_type ar_table_name].
  cbn [bind fst snd]. unfold _handle_human_decision. cbn [approval_id truthy_str].
  destruct (truthy id) eqn:Hid; cbn [negb].
  - unfold get_approval_status.
    cbn [manager with_manager pending_approvals with_pending].
    rewrite lookup_insert_eq. unfold _is_expired. cbn [ar_expires_at ar_status].
    destruct (_ <? later)%Z eqn:He.
    + cbn [reply_status].
      replace (str_eqb (lower (status_value EXPIRED)) (u "approved")) with false by reflexivity.
      replace (existsb _ _) with true by reflexivity.
      replace (str_eqb (u "response") (u "database_operation")) with false by reflexivity.
      replace (str_eqb (u "response") (u "response")) with true by reflexivity.
      do 2 eexists. split; [reflexivity|]. cbn.
      do 8 (split; [reflexivity|]). reflexivity.
    + cbn [reply_status].
      replace (str_eqb (lower (status_value PENDING)) (u "approved")) with false by reflexivity.
      replace (existsb _ _) with false by reflexivity.
      replace (str_eqb (u "response") (u "database_operation")) with false by reflexivity.
      replace (str_eqb (u "response") (u "response")) with true by reflexivity.
      do 2 eexists. split; [reflexivity|]. cbn.
      do 8 (split; [reflexivity|]). reflexivity.
  - replace (str_eqb (u "response") (u "database_operation")) with false by reflexivity.
    replace (str_eqb (u "response") (u "response")) with true by reflexivity.
    do 2 eexists. split; [reflexivity|]. cbn.
    do 8 (split; [reflexivity|]). reflexivity.
Qed.

Lemma run_node_router_routes now st w :
  exists a node,
    run_node now Router st w = Return (node, with_next_action (Some a) st, w) /\
    (node = DatabaseOperation \/ node = Response \/ node = END).
Proof.
  destruct (llm_router_routes st) as (a & Hr & Ha).
  exists a. unfold run_node. rewrite Hr. unfold _should_continue.
  cbn [next_action with_next_action].
  destruct Ha as [-> | [-> | ->]]; eexists; (split; [reflexivity|]); auto.
Qed.

Lemma needs_no_approval st c :
  context st = Some c -> cx_requires_approval c = None ->
  _needs_human_approval st = Return (u "response").
Proof.
  intros Hc Hr. unfold _needs_human_approval, context_of. rewrite Hc. cbn [bind].
  now rewrite Hr.
Qed.

Lemma needs_approval st c q :
  context st = Some c -> cx_requires_approval c = Some true ->
  cx_sql_query c = None -> cx_sql_executed c = Some q -> truthy q = true ->
  _needs_human_approval st = Return (u "human_approval").
Proof.
  intros Hc Hr Hsq Hq Ht. unfold _needs_human_approval, context_of. rewrite Hc. cbn [bind].
  rewrite Hr, Hsq, Hq. cbn. now rewrite Ht.
Qed.

(** An ordinary turn, from a state in which no decision and no gate is
    recorded: the graph reaches its end without raising, appends at
    most one assistant message, and executes at most one statement,
    which is then the generated one and is not dangerous. *)
Lemma ordinary_turn_run now st w :
  human_approval st = None -> approval_pending st = None ->
  exists st' w',
    run_graph recursion_limit now Router st w = (st', w', None) /\
    threads w' = threads w /\
    (messages st' = messages st \/
     exists reply, messages st' = messages st ++ [AIMessage reply]) /\
    (executed w' = executed w \/
     exists b q, generate_sql (database w) (last_message st) = Generated b q /\
                 is_dangerous_operation q = false /\
                 executed w' = executed w ++ [q]).
Proof.
  intros Hh Hp.
  destruct (run_node_router_routes now st w) as (a & node & Hr & Hnode).
  set (st1 := with_next_action (Some a) st) in *.
  unfold recursion_limit. rewrite run_graph_step, Hr by discriminate.
  destruct Hnode as [-> | [-> | ->]].
  - rewrite run_graph_step by discriminate.
    unfold run_node, _database_operation.
    replace (human_approval st1) with (@None bool) by (symmetry; exact Hh).
    pose proof (generate_and_run_outcome st1 w) as Hout. cbn zeta in Hout.
    destruct (generate_and_run st1 w) as [st2 w2]. cbn [fst snd] in Hout.
    destruct Hout as (Ht & Hm & Hu & Hms & Hap & Hha & Hid & Hna & c & Hc & Hsq & Hcase).
    destruct Hcase as [(Hreq & Hex) | (b & q & Hg & Hd & -> & Hreq & Hq)].
    + rewrite (needs_no_approval st2 c Hc Hreq). cbn [bind].
      replace (str_eqb (u "response") (u "human_approval")) with false by reflexivity.
      rewrite run_graph_step, respond_plain, run_graph_END
        by (try discriminate; now rewrite Hap).
      do 2 eexists. split; [reflexivity|]. split; [exact Ht|].
      split; [right; eexists; cbn [messages append_message]; now rewrite Hms|].
      destruct Hex as [[Hex _] | Hex]; [now left | now right].
    + rewrite (needs_approval st2 c q Hc Hreq Hsq Hq (dangerous_is_truthy q Hd)).
      cbn [bind].
      replace (str_eqb (u "human_approval") (u "human_approval")) with true by reflexivity.
      rewrite run_graph_step by discriminate.
      destruct (gate_node now st2 w c q Hc Hq Hd)
        as (st3 & w3 & Hgate & Hex3 & Ht3 & _ & _ & Hms3 & Hap3 & _ & Hc3 & _).
      rewrite Hgate.
      rewrite run_graph_step, (respond_with_prompt now st3 w3 _ _ Hap3 Hc3 eq_refl eq_refl),
        run_graph_END by discriminate.
      do 2 eexists. split; [reflexivity|]. split; [exact Ht3|].
      split; [right; eexists; cbn [messages append_message]; now rewrite Hms3, Hms|].
      now left.
  - rewrite run_graph_step, respond_plain, run_graph_END by (try discriminate; exact Hp).
    do 2 eexists. split; [reflexivity|]. split; [reflexivity|].
    split; [right; eexists; reflexivity | now left].
  - rewrite run_graph_END.
    do 2 eexists. split; [reflexivity|]. split; [reflexivity|].
    split; [now left | now left].
Qed.

Lemma last_ai_message_snoc ms c : last_ai_message (ms ++ [AIMessage c]) = Some c.
Proof. induction ms as [|m ms IH]; simpl; [reflexivity|]. now rewrite IH. Qed.

Lemma last_ai_message_human ms c :
  last_ai_message (ms ++ [HumanMessage c]) = last_ai_message ms.
Proof. induction ms as [|m ms IH]; simpl; [reflexivity|]. now rewrite IH. Qed.

(** X12.  An ordinary turn is recorded.  For an input that is not a
    continuation sentinel, [chat] stores the thread's checkpoint under
    its identifier with the user's message appended to the history,
    followed by at most one assistant message, which is then the reply
    returned.  When the turn adds no assistant message, the reply is
    the last assistant message of the earlier history, or the apology
    if there is none.  No other thread changes. *)
Theorem ordinary_turn_is_recorded now user_input tid w :
  existsb (str_eqb user_input) [u "__APPROVED__"; u "__DENIED__"] = false ->
  let r := chat now user_input (Some tid) w in
  let history :=
    match threads w !! tid with Some saved => messages saved | None => [] end in
  exists st',
    threads r.1 = <[tid := st']> (threads w) /\
    ((messages st' = history ++ [HumanMessage user_input] /\
      r.2 = match last_ai_message history with
            | Some earlier => earlier
            | None => u "I'm sorry, I couldn't process your request. Please try again."
            end) \/
     messages st' = history ++ [HumanMessage user_input; AIMessage r.2]).
Proof.
  intros Hin. cbn zeta. unfold chat. rewrite Hin.
  match goal with
  | |- context [run_graph recursion_limit now Router ?st w] =>
      destruct (ordinary_turn_run now st w eq_refl eq_refl)
        as (st' & w' & Hrun & Ht & Hms & _)
  end.
  rewrite Hrun. cbn [messages] in Hms.
  exists st'. destruct Hms as [Hms | [reply Hms]].
  - rewrite Hms, last_ai_message_human.
    destruct (last_ai_message _); cbn [fst snd threads with_threads]; rewrite Ht; auto.
  - rewrite Hms, last_ai_message_snoc. cbn. rewrite Ht. split; [reflexivity|].
    right. now rewrite <- app_assoc.
Qed.

(** X13.  An ordinary turn never executes a dangerous statement.  For an
    input that is not a continuation sentinel, [chat] hands the
    executor nothing, or exactly one statement, which is the statement
    generated for the input and is not dangerous. *)
Theorem ordinary_turn_executes_only_safe now user_input thread_id w :
  existsb (str_eqb user_input) [u "__APPROVED__"; u "__DENIED__"] = false ->
  let r := chat now user_input thread_id w in
  executed r.1 = executed w \/
  exists b q,
    generate_sql (database w) user_input = Generated b q /\
    is_dangerous_operation q = false /\
    executed r.1 = executed w ++ [q].
Proof.
  intros Hin. cbn zeta. unfold chat.
  set (tw := match thread_id with Some t => (t, w) | None => draw_uuid w end).
  assert (Htw : executed tw.2 = executed w /\ database tw.2 = database w)
    by (subst tw; now destruct thread_id).
  destruct tw as [t w0]. cbn [snd] in Htw. destruct Htw as [Hx Hdb]. rewrite Hin.
  match goal with
  | |- context [run_graph recursion_limit now Router ?st w0] =>
      destruct (ordinary_turn_run now st w0 eq_refl eq_refl)
        as (st' & w' & Hrun & _ & _ & Hex);
      unfold last_message in Hex; cbn [messages] in Hex; rewrite last_snoc in Hex
  end.
  rewrite Hrun. cbn [content] in Hex. rewrite Hdb, Hx in Hex.
  destruct (last_ai_message (messages st')); cbn [fst executed with_threads]; exact Hex.
Qed.


(** ** A dangerous statement stops at the gate *)

Lemma route_to_database now st w route :
  llm_router_reply (last_message st) = Some route ->
  lower (strip route) = u "database_operation" ->
  run_node now Router st w
  = Return (DatabaseOperation, with_next_action (Some (u "database_operation")) st, w).
Proof.
  intros Hr Hl. unfold run_node, _llm_router. rewrite Hr. cbn zeta. rewrite Hl.
  reflexivity.
Qed.

Lemma gated_turn_run now st w route b q :
  human_approval st = None ->
  llm_router_reply (last_message st) = Some route ->
  lower (strip route) = u "database_operation" ->
  generate_sql (database w) (last_message st) = Generated b q ->
  is_dangerous_operation q = true ->
  let id := uuid4 (uuid_draws w) in
  let created := create_approval_request id now q (manager w) in
  let prompt :=
    approval_message (ar_operation_type created.2) (ar_table_name created.2) q id in
  exists st' w',
    run_graph recursion_limit now Router st w = (st', w', None) /\
    executed w' = executed w /\ threads w' = threads w /\
    database w' = database w /\ uuid_draws w' = S (uuid_draws w) /\
    messages st' = messages st ++ [AIMessage prompt] /\
    approval_pending st' = Some true /\ approval_id st' = Some id /\
    (exists c, context st' = Some c /\ cx_sql_executed c = Some q /\
               cx_requires_approval c = Some true /\ cx_approval_id c = Some id) /\
    manager w' =
      (if truthy id
       then (get_approval_status (status_read_time now w) id created.1).1
       else created.1).
Proof.
  intros Hh Hr Hl Hg Hd. cbn zeta.
  pose proof (dangerous_is_truthy q Hd) as Ht.
  unfold recursion_limit.
  rewrite run_graph_step, (route_to_database now st w route Hr Hl) by discriminate.
  set (st1 := with_next_action (Some (u "database_operation")) st).
  rewrite run_graph_step by discriminate.
  unfold run_node at 1. unfold _database_operation.
  replace (human_approval st1) with (@None bool) by (symmetry; exact Hh).
  unfold generate_and_run.
  replace (last_message st1) with (last_message st) by reflexivity.
  rewrite Hg, Ht. cbn [negb]. unfold check_and_execute. rewrite Hd.
  match goal with
  | |- context [_needs_human_approval ?s] =>
      set (st2 := s);
      rewrite (needs_approval st2 _ q eq_refl eq_refl eq_refl eq_refl Ht)
  end.
  cbn [bind].
  replace (str_eqb (u "human_approval") (u "human_approval")) with true by reflexivity.
  rewrite run_graph_step by discriminate.
  destruct (gate_node now st2 w _ q eq_refl eq_refl Hd)
    as (st3 & w3 & Hgate & Hex3 & Ht3 & Hdb3 & Hu3 & Hms3 & Hap3 & Hid3 & Hc3 & Hm3).
  rewrite Hgate.
  rewrite run_graph_step, (respond_with_prompt now st3 w3 _ _ Hap3 Hc3 eq_refl eq_refl),
    run_graph_END by discriminate.
  do 2 eexists. split; [reflexivity|].
  do 4 (split; [assumption|]).
  split; [cbn [messages append_message]; now rewrite Hms3|].
  split; [exact Hap3|]. split; [exact Hid3|].
  split; [|exact Hm3].
  eexists. split; [cbn [context append_message]; exact Hc3|]. repeat split.
Qed.

Lemma chat_gated now user_input tid w route b q :
  existsb (str_eqb user_input) [u "__APPROVED__"; u "__DENIED__"] = false ->
  llm_router_reply user_input = Some route ->
  lower (strip route) = u "database_operation" ->
  generate_sql (database w) user_input = Generated b q ->
  is_dangerous_operation q = true ->
  let id := uuid4 (uuid_draws w) in
  let created := create_approval_request id now q (manager w) in
  let r := chat now user_input (Some tid) w in
  r.2 = approval_message (ar_operation_type created.2) (ar_table_name created.2) q id /\
  executed r.1 = executed w /\
  manager r.1 =
    (if truthy id
     then (get_approval_status (status_read_time now w) id created.1).1
     else created.1) /\
  exists st' c,
    threads r.1 = <[tid := st']> (threads w) /\
    approval_pending st' = Some true /\ approval_id st' = Some id /\
    context st' = Some c /\ cx_sql_executed c = Some q.
Proof.
  intros Hin Hr Hl Hg Hd. cbn zeta. unfold chat. rewrite Hin.
  match goal with
  | |- context [run_graph recursion_limit now Router ?st w] =>
      assert (Hlast : last_message st = user_input)
        by (unfold last_message; cbn [messages]; now rewrite last_snoc);
      destruct (gated_turn_run now st w route b q eq_refl
                  ltac:(now rewrite Hlast) Hl ltac:(now rewrite Hlast) Hd)
        as (st' & w' & Hrun & Hex & Ht & _ & _ & Hms & Hap & Hid & (c & Hc & Hq & _) & Hm)
  end.
  rewrite Hrun, Hms, last_ai_message_snoc. cbn [fst snd executed manager with_threads threads].
  split; [reflexivity|]. split; [exact Hex|]. split; [exact Hm|].
  exists st', c. rewrite Ht. auto.
Qed.

(** What the status read of the same turn finds: the request as it
    was filed, up to and including its deadline, and a request it
    marks as expired after that. *)
Lemma status_read_of_created later approval_id now q m :
  let created := create_approval_request approval_id now q m in
  let deadline := (now + timeout_seconds m * 1000000)%Z in
  let read := (get_approval_status later approval_id created.1).1 in
  ((later <= deadline)%Z -> read = created.1) /\
  ((deadline < later)%Z ->
   read = with_pending (<[approval_id := with_status EXPIRED created.2]>
                          (pending_approvals created.1)) created.1).
Proof.
  cbn zeta. unfold create_approval_request, get_approval_status.
  cbn [fst snd pending_approvals with_pending]. rewrite lookup_insert_eq.
  unfold _is_expired. cbn [ar_expires_at].
  split; intros Hl.
  - now rewrite (proj2 (Z.ltb_ge _ _)) by lia.
  - now rewrite (proj2 (Z.ltb_lt _ _)) by lia.
Qed.

(** X14.  A dangerous statement stops at the gate.  When the router sends
    the message to the database node and the statement generated for
    it is dangerous, [chat] executes nothing, answers with the approval
    prompt for a freshly drawn identifier, and leaves the identifier
    and the statement in the thread's checkpoint.  It files the
    request under that identifier and reads its status back in the
    same turn, at a later clock reading: when that reading is not past
    the deadline (filing time plus timeout) the ledger is the old one
    plus the pending request; when it is, the request is stored as
    expired. *)
Theorem dangerous_statement_is_gated now user_input tid w route b q :
  existsb (str_eqb user_input) [u "__APPROVED__"; u "__DENIED__"] = false ->
  llm_router_reply user_input = Some route ->
  lower (strip route) = u "database_operation" ->
  generate_sql (database w) user_input = Generated b q ->
  is_dangerous_operation q = true ->
  let id := uuid4 (uuid_draws w) in
  let created := create_approval_request id now q (manager w) in
  let deadline := (now + timeout_seconds (manager w) * 1000000)%Z in
  let r := chat now user_input (Some tid) w in
  r.2 = approval_message (ar_operation_type created.2) (ar_table_name created.2) q id /\
  executed r.1 = executed w /\
  ((status_read_time now w <= deadline)%Z ->
   manager r.1 = created.1 /\
   pending_approvals (manager r.1) !! id = Some created.2) /\
  ((deadline < status_read_time now w)%Z -> truthy id = true ->
   pending_approvals (manager r.1) !! id = Some (with_status EXPIRED created.2) /\
   forall other, other <> id ->
     pending_approvals (manager r.1) !! other = pending_approvals (manager w) !! other) /\
  exists st' c,
    threads r.1 !! tid = Some st' /\
    approval_pending st' = Some true /\ approval_id st' = Some id /\
    context st' = Some c /\ cx_sql_executed c = Some q.
Proof.
  intros Hin Hr Hl Hg Hd. cbn zeta.
  destruct (chat_gated now user_input tid w route b q Hin Hr Hl Hg Hd)
    as (Hreply & Hex & Hm & st' & c & Ht & Hrest).
  destruct (status_read_of_created (status_read_time now w) (uuid4 (uuid_draws w))
              now q (manager w)) as [Hin_time Hlate].
  cbn zeta in Hin_time, Hlate.
  split; [exact Hreply|]. split; [exact Hex|]. split; [|split].
  - intros Hle. rewrite Hm, (Hin_time Hle).
    split; [now destruct (truthy _)|].
    destruct (truthy _); unfold create_approval_request;
      cbn [fst snd pending_approvals with_pending]; apply lookup_insert_eq.
  - intros Hlt Hid. rewrite Hm, Hid, (Hlate Hlt).
    cbn [pending_approvals with_pending]. split; [apply lookup_insert_eq|].
    intros other Hne. unfold create_approval_request.
    cbn [fst snd pending_approvals with_pending].
    now rewrite !lookup_insert_ne by congruence.
  - exists st', c. rewrite Ht, lookup_insert_eq. auto.
Qed.

(** ** Continuation turns *)

Lemma approved_status_value s :
  str_eqb (lower (status_value s)) (u "approved") = true -> s = APPROVED.
Proof. destruct s; vm_compute; congruence. Qed.

Lemma denied_status_value s :
  str_eqb (lower (status_value s)) (u "denied") = true -> s = DENIED.
Proof. destruct s; vm_compute; congruence. Qed.

(** The continuation branch leaves the checkpoints alone and executes
    at most the stored statement of an approved, unexpired request. *)
Lemma resume_outcome now tid w :
  let r := resume now tid w in
  threads r.1 = threads w /\
  (executed r.1 = executed w \/
   exists values aid a c sql,
     threads w !! tid = Some values /\ approval_id values = Some aid /\
     pending_approvals (manager w) !! aid = Some a /\
     ar_status a = APPROVED /\ _is_expired now a = false /\
     context values = Some c /\ cx_sql_executed c = Some sql /\
     executed r.1 = executed w ++ [sql]).
Proof.
  cbn zeta. unfold resume.
  destruct (threads w !! tid) as [values|] eqn:Ht; [|split; [reflexivity | now left]].
  destruct (approval_id values) as [aid|] eqn:Hid; cbn [truthy_str];
    [|split; [reflexivity | now left]].
  destruct (truthy aid) eqn:Haid; [|split; [reflexivity | now left]].
  unfold get_approval_status.
  destruct (pending_approvals (manager w) !! aid) as [a|] eqn:Ha.
  - destruct (_is_expired now a) eqn:He.
    + cbn [reply_status].
      replace (str_eqb (lower (status_value EXPIRED)) (u "approved")) with false by reflexivity.
      replace (str_eqb (lower (status_value EXPIRED)) (u "denied")) with false by reflexivity.
      split; [reflexivity | now left].
    + cbn [reply_status].
      destruct (str_eqb (lower (status_value (ar_status a))) (u "approved")) eqn:Hs.
      * apply approved_status_value in Hs.
        unfold context_of. destruct (context values) as [c|] eqn:Hc;
          [|split; [reflexivity | now left]].
        destruct (cx_sql_executed c) as [sql|] eqn:Hq; cbn [truthy_str];
          [|split; [reflexivity | now left]].
        destruct (truthy sql); [|split; [reflexivity | now left]].
        unfold run_executor. cbn [database with_manager].
        destruct (execute_sql_query (database w) sql) as [db result].
        destruct (ex_success result); cbn [fst threads executed with_manager];
          (split; [reflexivity|]); right; exists values, aid, a, c, sql; auto 10.
      * destruct (str_eqb _ (u "denied")); split; try reflexivity; now left.
  - cbn [reply_status].
    replace (str_eqb (lower []) (u "approved")) with false by reflexivity.
    replace (str_eqb (lower []) (u "denied")) with false by reflexivity.
    split; [reflexivity | now left].
Qed.

(** X15.  A continuation turn runs only what was approved.  On either
    sentinel, [chat] writes no checkpoint and hands the executor
    nothing, or exactly the statement stored in the thread's
    checkpoint, and that only when the ledger holds the checkpoint's
    request as approved and not yet expired. *)
Theorem continuation_runs_only_approved now user_input thread_id w :
  existsb (str_eqb user_input) [u "__APPROVED__"; u "__DENIED__"] = true ->
  let tid := match thread_id with Some t => t | None => uuid4 (uuid_draws w) end in
  let r := chat now user_input thread_id w in
  threads r.1 = threads w /\
  (executed r.1 = executed w \/
   exists values aid a c sql,
     threads w !! tid = Some values /\ approval_id values = Some aid /\
     pending_approvals (manager w) !! aid = Some a /\
     ar_status a = APPROVED /\ _is_expired now a = false /\
     context values = Some c /\ cx_sql_executed c = Some sql /\
     executed r.1 = executed w ++ [sql]).
Proof.
  intros Hin. cbn zeta. unfold chat.
  destruct thread_id as [t|]; cbn [draw_uuid]; rewrite Hin.
  - apply resume_outcome.
  - match goal with
    | |- context [resume now ?t ?w0] => pose proof (resume_outcome now t w0) as Hout
    end.
    cbn zeta in Hout. exact Hout.
Qed.

(** X16.  Without a valid approval a continuation turn changes nothing in
    the database.  When the checkpoint's request is in the ledger but
    is not approved, or has expired, either sentinel executes nothing;
    the reply is the cancellation notice for a denied, unexpired
    request and "no pending approval" otherwise, and an expired request
    is marked as such. *)
Theorem unapproved_continuation_is_refused now user_input tid w values aid a :
  existsb (str_eqb user_input) [u "__APPROVED__"; u "__DENIED__"] = true ->
  threads w !! tid = Some values ->
  approval_id values = Some aid -> truthy aid = true ->
  pending_approvals (manager w) !! aid = Some a ->
  ar_status a <> APPROVED \/ _is_expired now a = true ->
  let r := chat now user_input (Some tid) w in
  executed r.1 = executed w /\ database r.1 = database w /\
  r.2 = (if negb (_is_expired now a) && bool_decide (ar_status a = DENIED)
         then cancelled_reply else no_pending_reply) /\
  status_of aid (manager r.1)
  = Some (if _is_expired now a then EXPIRED else ar_status a).
Proof.
  intros Hin Ht Hid Haid Ha Hno. cbn zeta. unfold chat. rewrite Hin.
  unfold resume. rewrite Ht, Hid. cbn [truthy_str]. rewrite Haid.
  unfold get_approval_status, status_of. rewrite Ha.
  destruct (_is_expired now a) eqn:He; cbn [negb andb reply_status].
  - replace (str_eqb (lower (status_value EXPIRED)) (u "approved")) with false by reflexivity.
    replace (str_eqb (lower (status_value EXPIRED)) (u "denied")) with false by reflexivity.
    cbn [fst snd executed database manager with_manager pending_approvals with_pending].
    rewrite lookup_insert_eq. auto.
  - destruct Hno as [Hno | [=]].
    destruct (ar_status a) eqn:Hs; try congruence;
      match goal with
      | |- context [str_eqb (lower (status_value ?s)) _] =>
          replace (str_eqb (lower (status_value s)) (u "approved")) with false
            by reflexivity;
          first [ replace (str_eqb (lower (status_value s)) (u "denied")) with true
                    by reflexivity
                | replace (str_eqb (lower (status_value s)) (u "denied")) with false
                    by reflexivity ]
      end;
      cbn [fst snd executed database manager with_manager];
      rewrite Ha; cbn [fmap option_fmap option_map]; rewrite Hs; auto.
Qed.

(** ** From the request to its execution *)

(** X17.  An approval given in time lets the statement run, once asked.
    After a dangerous statement stopped at the gate, with the status
    read of that turn not past the deadline, an approval of its
    request before the deadline succeeds, and a following
    [__APPROVED__] turn on the same thread before the deadline hands
    exactly that statement to the executor. *)
Theorem approved_statement_runs_on_continuation
    now now2 now3 user_input tid w route b q actor :
  existsb (str_eqb user_input) [u "__APPROVED__"; u "__DENIED__"] = false ->
  llm_router_reply user_input = Some route ->
  lower (strip route) = u "database_operation" ->
  generate_sql (database w) user_input = Generated b q ->
  is_dangerous_operation q = true ->
  truthy (uuid4 (uuid_draws w)) = true ->
  let id := uuid4 (uuid_draws w) in
  let deadline := (now + timeout_seconds (manager w) * 1000000)%Z in
  (status_read_time now w <= deadline)%Z ->
  (now2 <= deadline)%Z -> (now3 <= deadline)%Z ->
  let w1 := (chat now user_input (Some tid) w).1 in
  let d := approve_operation now2 id actor (manager w1) in
  let r := chat now3 (u "__APPROVED__") (Some tid) (with_manager d.1 w1) in
  d.2 = DecisionOk id APPROVED /\
  executed r.1 = executed w ++ [q].
Proof.
  intros Hin Hr Hl Hg Hd Hid. cbn zeta. intros Hn1 Hn2 Hn3.
  destruct (chat_gated now user_input tid w route b q Hin Hr Hl Hg Hd)
    as (_ & Hex & Hm & st' & c & Ht & _ & Haid & Hc & Hq).
  rewrite Hid, (proj1 (status_read_of_created _ _ _ _ _) Hn1) in Hm.
  set (w1 := (chat now user_input (Some tid) w).1) in *.
  set (id := uuid4 (uuid_draws w)) in *.
  rewrite Hm. unfold create_approval_request, approve_operation.
  cbn [fst snd pending_approvals with_pending]. rewrite lookup_insert_eq.
  cbn [ar_status]. rewrite bool_decide_eq_true_2 by reflexivity. cbn [negb].
  unfold _is_expired. cbn [ar_expires_at].
  rewrite (proj2 (Z.ltb_ge _ _)) by lia.
  split; [reflexivity|].
  change (chat now3 (u "__APPROVED__") (Some tid) ?w2) with (resume now3 tid w2).
  cbn [fst].
  match goal with
  | |- executed (resume now3 tid ?w2).1 = _ =>
      pose proof (resume_approved now3 tid w2 st' id c q) as Hres
  end.
  cbn zeta in Hres. rewrite <- Hex.
  eapply Hres.
  - cbn [threads with_manager]. rewrite Ht. apply lookup_insert_eq.
  - exact Haid.
  - exact Hid.
  - exact Hc.
  - exact Hq.
  - exact (dangerous_is_truthy q Hd).
  - cbn [manager with_manager pending_approvals with_pending]. apply lookup_insert_eq.
  - reflexivity.
  - unfold _is_expired. cbn [ar_expires_at]. apply Z.ltb_ge. lia.
Qed.

(** X18.  A denied statement never runs.  After a dangerous statement
    stopped at the gate, a denial attempt on its request followed by a
    continuation turn on the same thread, with either sentinel and at
    any time, executes nothing.  When the status read of the gating
    turn was not past the deadline, the denial succeeds at any later
    time, and before the deadline the continuation answers with the
    cancellation notice.  When it was past the deadline, the request
    is already stored as expired: the denial is refused as not
    pending and the continuation answers that no approval is
    pending. *)
Theorem denied_statement_never_runs
    now now2 now3 user_input sentinel tid w route b q actor :
  existsb (str_eqb user_input) [u "__APPROVED__"; u "__DENIED__"] = false ->
  existsb (str_eqb sentinel) [u "__APPROVED__"; u "__DENIED__"] = true ->
  llm_router_reply user_input = Some route ->
  lower (strip route) = u "database_operation" ->
  generate_sql (database w) user_input = Generated b q ->
  is_dangerous_operation q = true ->
  truthy (uuid4 (uuid_draws w)) = true ->
  let id := uuid4 (uuid_draws w) in
  let deadline := (now + timeout_seconds (manager w) * 1000000)%Z in
  let w1 := (chat now user_input (Some tid) w).1 in
  let d := deny_operation now2 id actor (manager w1) in
  let r := chat now3 sentinel (Some tid) (with_manager d.1 w1) in
  executed r.1 = executed w /\
  ((status_read_time now w <= deadline)%Z ->
   d.2 = DecisionOk id DENIED /\
   ((now3 <= deadline)%Z -> r.2 = cancelled_reply)) /\
  ((deadline < status_read_time now w)%Z ->
   d.2 = DecisionFailed (NotPending EXPIRED) /\ r.2 = no_pending_reply).
Proof.
  intros Hin Hs Hr Hl Hg Hd Hid. cbn zeta.
  destruct (chat_gated now user_input tid w route b q Hin Hr Hl Hg Hd)
    as (_ & Hex & Hm & st' & c & Ht & _ & Haid & Hc & Hq).
  rewrite Hid in Hm.
  destruct (status_read_of_created (status_read_time now w) (uuid4 (uuid_draws w))
              now q (manager w)) as [Hin_time Hlate].
  cbn zeta in Hin_time, Hlate.
  set (w1 := (chat now user_input (Some tid) w).1) in *.
  set (id := uuid4 (uuid_draws w)) in *.
  set (deadline := (now + timeout_seconds (manager w) * 1000000)%Z) in *.
  assert (Hcases :
    (status_read_time now w <= deadline)%Z /\
      deny_operation now2 id actor (manager w1) =
        ((deny_operation now2 id actor (manager w1)).1, DecisionOk id DENIED) /\
      executed (chat now3 sentinel (Some tid)
                  (with_manager (deny_operation now2 id actor (manager w1)).1 w1)).1
        = executed w /\
      ((now3 <= deadline)%Z ->
       (chat now3 sentinel (Some tid)
          (with_manager (deny_operation now2 id actor (manager w1)).1 w1)).2
         = cancelled_reply)
    \/
    (deadline < status_read_time now w)%Z /\
      deny_operation now2 id actor (manager w1) =
        (manager w1, DecisionFailed (NotPending EXPIRED)) /\
      executed (chat now3 sentinel (Some tid)
                  (with_manager (deny_operation now2 id actor (manager w1)).1 w1)).1
        = executed w /\
      (chat now3 sentinel (Some tid)
         (with_manager (deny_operation now2 id actor (manager w1)).1 w1)).2
        = no_pending_reply).
  { destruct (Z.le_gt_cases (status_read_time now w) deadline) as [Hle | Hlt].
    - left. split; [exact Hle|]. rewrite (Hin_time Hle) in Hm.
      rewrite Hm. unfold create_approval_request, deny_operation.
      cbn [fst snd pending_approvals with_pending]. rewrite lookup_insert_eq.
      cbn [ar_status]. rewrite bool_decide_eq_true_2 by reflexivity. cbn [negb].
      split; [reflexivity|].
      unfold chat. rewrite Hs. unfold resume.
      cbn [fst snd threads with_manager]. rewrite Ht, lookup_insert_eq, Haid.
      cbn [truthy_str]. rewrite Hid.
      unfold get_approval_status.
      cbn [manager with_manager pending_approvals with_pending]. rewrite lookup_insert_eq.
      unfold _is_expired. cbn [ar_expires_at ar_status].
      fold deadline.
      destruct (deadline <? now3)%Z eqn:He.
      + cbn [reply_status].
        replace (str_eqb (lower (status_value EXPIRED)) (u "approved")) with false
          by reflexivity.
        replace (str_eqb (lower (status_value EXPIRED)) (u "denied")) with false
          by reflexivity.
        cbn [fst snd executed with_manager]. split; [exact Hex|].
        intros Hn3. apply Z.ltb_lt in He. lia.
      + cbn [reply_status].
        replace (str_eqb (lower (status_value DENIED)) (u "approved")) with false
          by reflexivity.
        replace (str_eqb (lower (status_value DENIED)) (u "denied")) with true
          by reflexivity.
        cbn [fst snd executed with_manager]. split; [exact Hex | reflexivity].
    - right. split; [exact Hlt|]. rewrite (Hlate Hlt) in Hm.
      rewrite Hm. unfold create_approval_request, deny_operation.
      cbn [fst snd pending_approvals with_pending]. rewrite lookup_insert_eq.
      cbn [ar_status with_status].
      rewrite bool_decide_eq_false_2 by discriminate. cbn [negb].
      split; [reflexivity|].
      unfold chat. rewrite Hs. unfold resume.
      cbn [fst snd threads with_manager]. rewrite Ht, lookup_insert_eq, Haid.
      cbn [truthy_str]. rewrite Hid.
      unfold get_approval_status.
      cbn [manager with_manager pending_approvals with_pending]. rewrite lookup_insert_eq.
      destruct (_is_expired now3 _); cbn [reply_status ar_status with_status];
        replace (str_eqb (lower (status_value EXPIRED)) (u "approved")) with false
          by reflexivity;
        replace (str_eqb (lower (status_value EXPIRED)) (u "denied")) with false
          by reflexivity;
        cbn [fst snd executed with_manager]; (split; [exact Hex | reflexivity]). }
  destruct Hcases as [(Hle & Hdeny & Hexec & Hreply) | (Hlt & Hdeny & Hexec & Hreply)].
  - split; [exact Hexec|]. split.
    + intros _. split; [now rewrite Hdeny | exact Hreply].
    + intros Hlt. lia.
  - split; [exact Hexec|]. split.
    + intros Hle. lia.
    + intros _. split; [now rewrite Hdeny | exact Hreply].
Qed.

End TurnProperties.


Section StreamProperties.

Context `{Collaborators}.

(** ** A stream nobody stops *)

Lemma chunk_at_join words i :
  (i < length words)%nat ->
  chunk_at words i ++ join (u " ") (drop (i + 2) words) = join (u " ") (drop i words).
Proof.
  intros Hi. unfold chunk_at.
  replace (drop (i + 2) words) with (drop 2 (drop i words))
    by (rewrite drop_drop; f_equal; lia).
  replace (i + 2 <? length words)%nat with (2 <? length (drop i words))%nat
    by (rewrite length_drop; destruct (Nat.ltb_spec 2 (length words - i));
        destruct (Nat.ltb_spec (i + 2) (length words)); auto; lia).
  assert (Hl : (0 < length (drop i words))%nat) by (rewrite length_drop; lia).
  destruct (drop i words) as [|a [|b [|c rest]]]; cbn [length] in Hl; [lia | | |].
  - cbn. now rewrite !app_nil_r.
  - cbn. now rewrite !app_nil_r.
  - change (2 <? length (a :: b :: c :: rest))%nat with true.
    cbn [take drop join]. rewrite <- !app_assoc. reflexivity.
Qed.

Lemma complete_sessions sid sv :
  active_sessions (complete sid sv) = delete sid (active_sessions sv).
Proof.
  unfold complete, clean_up. cbn [active_sessions with_sessions].
  destruct (active_sessions sv !! sid); [apply delete_insert_eq | reflexivity].
Qed.

Lemma session_running (sid : str) (r : gmap str Session) s :
  r !! sid = Some s -> is_active s = true -> session_stopped sid r = false.
Proof. intros Hs Ha. unfold session_stopped. now rewrite Hs, Ha. Qed.

(** From a suspended loop to the end of the stream, the consumer alone
    acting: the remaining words arrive, as text, and the session is
    removed. *)
Lemma pulls_to_the_end sid tid q s words schedule :
  is_active s = true ->
  only_pulls schedule ->
  forall ph sv sv' chunks,
    deliver sid tid q schedule ph sv = (sv', Finished, chunks) ->
    match ph with
    | Emitted ws i | Sleeping ws i =>
        ws = words -> active_sessions sv !! sid = Some s ->
        streamed_text chunks = join (u " ") (drop (i + 2) words) /\
        Forall (fun c => is_text c = true) chunks /\
        active_sessions sv' = delete sid (active_sessions sv) /\
        agent sv' = agent sv
    | Finished => chunks = [] /\ sv' = sv
    | _ => True
    end.
Proof.
  intros Ha Hp. induction Hp as [|e schedule He Hp IH]; intros ph sv sv' chunks Hd.
  - cbn in Hd. injection Hd as <- -> <-. split; reflexivity.
  - destruct e as [now|]; [clear He | destruct He].
    cbn [deliver] in Hd.
    destruct ph as [| ws i | ws i | | | |]; try exact I.
    + intros -> Hs. cbn [deliver_event resume_stream] in Hd.
      rewrite (session_running sid _ s Hs Ha) in Hd.
      destruct (deliver sid tid q schedule (Sleeping words i) sv)
        as [[sv2 ph2] outs] eqn:Hrest.
      injection Hd as <- -> <-.
      exact (IH _ _ _ _ Hrest eq_refl Hs).
    + intros -> Hs. cbn [deliver_event resume_stream] in Hd. unfold loop_head in Hd.
      destruct (Nat.ltb_spec (i + 2) (length words)) as [Hi | Hi].
      * rewrite (session_running sid _ s Hs Ha) in Hd.
        destruct (deliver sid tid q schedule (Emitted words (i + 2)) sv)
          as [[sv2 ph2] outs] eqn:Hrest.
        injection Hd as <- -> <-.
        destruct (IH _ _ _ _ Hrest eq_refl Hs) as (Htext & Hall & Hsess & Hag).
        split; [|split; [constructor; [reflexivity | exact Hall] | auto]].
        cbn [streamed_text flat_map]. fold (streamed_text outs).
        rewrite Htext. apply chunk_at_join, Hi.
      * destruct (deliver sid tid q schedule Finished (complete sid sv))
          as [[sv2 ph2] outs] eqn:Hrest.
        injection Hd as <- -> <-.
        destruct (IH _ _ _ _ Hrest) as [-> ->].
        rewrite drop_ge by lia.
        split; [reflexivity|]. split; [constructor|].
        split; [apply complete_sessions | reflexivity].
    + cbn [deliver_event resume_stream] in Hd.
      destruct (deliver sid tid q schedule Finished sv) as [[sv2 ph2] outs] eqn:Hrest.
      injection Hd as <- -> <-.
      exact (IH _ _ _ _ Hrest).
Qed.

(** X19.  A stream that nobody stops delivers the whole reply.  When the
    session is registered as active, the reply is not an approval
    prompt, and the consumer pulls until the generator finishes with
    no stop request in between, the chunks are all text, put together
    they are the reply's words joined by single spaces, the session is
    removed from the registry, and the agent is where [chat] left it. *)
Theorem unstopped_stream_delivers_reply
    session_id thread_id request_query now schedule sv s sv' chunks :
  active_sessions sv !! session_id = Some s -> is_active s = true ->
  only_pulls schedule ->
  let r := chat now request_query (Some thread_id) (agent sv) in
  is_approval_request r.2 = false ->
  deliver session_id thread_id request_query (Pull now :: schedule) Created sv
  = (sv', Finished, chunks) ->
  streamed_text chunks = join (u " ") (split_ws r.2) /\
  Forall (fun c => is_text c = true) chunks /\
  active_sessions sv' = delete session_id (active_sessions sv) /\
  agent sv' = r.1.
Proof.
  intros Hs Ha Hp. cbn zeta. intros Hno Hd.
  cbn [deliver deliver_event resume_stream] in Hd.
  destruct (chat now request_query (Some thread_id) (agent sv)) as [w reply].
  cbn [fst snd] in *. rewrite Hno in Hd. unfold loop_head in Hd.
  set (sv1 := {| agent := w; active_sessions := active_sessions sv |}) in *.
  set (words := split_ws reply) in *.
  destruct (Nat.ltb_spec 0 (length words)) as [Hi | Hi].
  - rewrite (session_running session_id (active_sessions sv1) s Hs Ha) in Hd.
    destruct (deliver session_id thread_id request_query schedule (Emitted words 0) sv1)
      as [[sv2 ph2] outs] eqn:Hrest.
    injection Hd as <- -> <-.
    destruct (pulls_to_the_end session_id thread_id request_query s words schedule
                Ha Hp _ _ _ _ Hrest eq_refl Hs) as (Htext & Hall & Hsess & Hag).
    split; [|split; [constructor; [reflexivity | exact Hall] | auto]].
    cbn [streamed_text flat_map]. fold (streamed_text outs).
    rewrite Htext. apply (chunk_at_join words 0 Hi).
  - destruct (deliver session_id thread_id request_query schedule Finished
                (complete session_id sv1)) as [[sv2 ph2] outs] eqn:Hrest.
    injection Hd as <- -> <-.
    destruct (pulls_to_the_end session_id thread_id request_query s words schedule
                Ha Hp _ _ _ _ Hrest) as [-> ->].
    destruct words; [|cbn [length] in Hi; lia].
    split; [reflexivity|]. split; [constructor|].
    split; [apply (complete_sessions session_id sv1) | reflexivity].
Qed.

(** ** The approval prompt on a stream *)

Lemma approval_message_is_recognised operation_type table_name q id :
  is_approval_request (approval_message operation_type table_name q id) = true.
Proof. reflexivity. Qed.

(** X20.  The approval prompt is streamed in one piece.  When the
    statement generated for a streamed query is dangerous, the first
    pull yields the whole approval prompt as one approval chunk and
    the second ends the stream and removes the session, whatever the
    session's stop flag says; nothing is executed. *)
Theorem approval_prompt_is_one_chunk
    session_id thread_id request_query now now' sv route b q :
  existsb (str_eqb request_query) [u "__APPROVED__"; u "__DENIED__"] = false ->
  llm_router_reply request_query = Some route ->
  lower (strip route) = u "database_operation" ->
  generate_sql (database (agent sv)) request_query = Generated b q ->
  is_dangerous_operation q = true ->
  (0 <= timeout_seconds (manager (agent sv)))%Z ->
  let id := uuid4 (uuid_draws (agent sv)) in
  let created := create_approval_request id now q (manager (agent sv)) in
  let prompt :=
    approval_message (ar_operation_type created.2) (ar_table_name created.2) q id in
  exists sv',
    deliver session_id thread_id request_query [Pull now; Pull now'] Created sv
    = (sv', Finished, [ApprovalChunk prompt]) /\
    active_sessions sv' = delete session_id (active_sessions sv) /\
    executed (agent sv') = executed (agent sv).
Proof.
  intros Hin Hr Hl Hg Hd Hto. cbn zeta.
  destruct (chat_gated now request_query thread_id (agent sv) route b q
              Hin Hr Hl Hg Hd) as (Hreply & Hex & _).
  cbn [deliver deliver_event resume_stream].
  destruct (chat now request_query (Some thread_id) (agent sv)) as [w reply].
  cbn [fst snd] in Hreply, Hex. rewrite Hreply, approval_message_is_recognised.
  eexists. split; [reflexivity|]. split; [reflexivity | exact Hex].
Qed.

End StreamProperties.


Section EndpointProperties.

Context `{Collaborators}.

(** ** The chat endpoint *)

Lemma starts_with_app n x y : starts_with n x = true -> starts_with n (x ++ y) = true.
Proof.
  revert x. induction n as [|a n IH]; intros [|b x]; simpl; try easy.
  intros Hs. apply andb_true_iff in Hs as [-> Hs]. now apply IH.
Qed.

Lemma contains_app_l n x y : contains n x = true -> contains n (x ++ y) = true.
Proof.
  induction x as [|b x IH]; simpl.
  - rewrite orb_false_r. intros Hs. destruct n; [|discriminate].
    now destruct y.
  - intros Hc. apply orb_true_iff in Hc as [Hc | Hc].
    + change (b :: x ++ y) with ((b :: x) ++ y).
      now rewrite (starts_with_app n (b :: x) y Hc).
    + rewrite (IH Hc). apply orb_true_r.
Qed.

Lemma contains_app_r n x y : contains n y = true -> contains n (x ++ y) = true.
Proof.
  intros Hc. induction x as [|b x IH]; simpl; [exact Hc|].
  rewrite IH. apply orb_true_r.
Qed.

Lemma upper_app x y : upper (x ++ y) = upper x ++ upper y.
Proof. apply flat_map_app. Qed.

(** The fixed wording of the approval prompt speaks of deleting data. *)
Lemma approval_message_mentions_delete operation_type table_name q id :
  contains (u "DELETE") (upper (approval_message operation_type table_name q id)) = true.
Proof.
  unfold approval_message. rewrite !upper_app.
  repeat first [ apply contains_app_l; vm_compute; reflexivity | apply contains_app_r ].
Qed.

(** The thread an ordinary turn is stored under. *)
Lemma chat_stores_thread now user_input thread_id w :
  existsb (str_eqb user_input) [u "__APPROVED__"; u "__DENIED__"] = false ->
  let tid := match thread_id with Some t => t | None => uuid4 (uuid_draws w) end in
  exists st', threads (chat now user_input thread_id w).1 = <[tid := st']> (threads w).
Proof.
  intros Hin. cbn zeta. unfold chat.
  set (tw := match thread_id with Some t => (t, w) | None => draw_uuid w end).
  assert (Htw : tw.1 = match thread_id with Some t => t | None => uuid4 (uuid_draws w) end
                /\ threads tw.2 = threads w)
    by (subst tw; now destruct thread_id).
  destruct tw as [t w0]. cbn [fst snd] in Htw. destruct Htw as [-> Hth]. rewrite Hin.
  match goal with
  | |- context [run_graph recursion_limit now Router ?st w0] =>
      destruct (ordinary_turn_run now st w0 eq_refl eq_refl)
        as (st' & w' & Hrun & Ht & _ & _)
  end.
  rewrite Hrun. exists st'.
  destruct (last_ai_message (messages st')); cbn [fst threads with_threads];
    now rewrite Ht, Hth.
Qed.

(** X21.  A request without a thread id is answered under the wrong
    name.  For a query that is not a continuation sentinel and a
    request that names no thread, the endpoint reports the thread
    [default], while the turn is stored under a freshly drawn
    identifier; when that identifier is not [default], the thread
    [default] is left as it was. *)
Theorem chat_endpoint_reports_default_thread now request_query w :
  existsb (str_eqb request_query) [u "__APPROVED__"; u "__DENIED__"] = false ->
  let r := chat_endpoint now request_query None w in
  let fresh := uuid4 (uuid_draws w) in
  cr_thread_id r.2 = u "default" /\
  (exists st', threads r.1 = <[fresh := st']> (threads w)) /\
  (fresh <> u "default" -> threads r.1 !! u "default" = threads w !! u "default").
Proof.
  intros Hin. cbn zeta. unfold chat_endpoint.
  destruct (chat_stores_thread now request_query None w Hin) as [st' Hst].
  destruct (chat now request_query None w) as [w' response]. cbn [fst snd] in *.
  split; [reflexivity|]. split; [now exists st'|].
  intros Hne. rewrite Hst. now apply lookup_insert_ne.
Qed.

(** X22.  How the endpoint labels an approval prompt.  When the
    statement generated for the query is dangerous, the endpoint
    returns the approval prompt with [human_approval_required] set,
    and the operation type it reports is the first of SELECT, INSERT,
    UPDATE and DELETE that the upper-cased prompt contains: DELETE is
    always found in the prompt's fixed wording, so DROP and ALTER are
    never reported. *)
Theorem chat_endpoint_labels_approval_prompt now request_query tid w route b q :
  existsb (str_eqb request_query) [u "__APPROVED__"; u "__DENIED__"] = false ->
  llm_router_reply request_query = Some route ->
  lower (strip route) = u "database_operation" ->
  generate_sql (database w) request_query = Generated b q ->
  is_dangerous_operation q = true ->
  (0 <= timeout_seconds (manager w))%Z ->
  let id := uuid4 (uuid_draws w) in
  let created := create_approval_request id now q (manager w) in
  let prompt :=
    approval_message (ar_operation_type created.2) (ar_table_name created.2) q id in
  let r := chat_endpoint now request_query (Some tid) w in
  cr_response r.2 = prompt /\
  cr_human_approval_required r.2 = true /\
  In (cr_operation_type r.2)
     [Some (u "SELECT"); Some (u "INSERT"); Some (u "UPDATE"); Some (u "DELETE")] /\
  (cr_operation_type r.2 = Some (u "DELETE") <->
   contains (u "SELECT") (upper prompt) = false /\
   contains (u "INSERT") (upper prompt) = false /\
   contains (u "UPDATE") (upper prompt) = false).
Proof.
  intros Hin Hr Hl Hg Hd Hto. cbn zeta.
  destruct (chat_gated now request_query tid w route b q Hin Hr Hl Hg Hd)
    as (Hreply & _).
  unfold chat_endpoint.
  destruct (chat now request_query (Some tid) w) as [w' response].
  cbn [fst snd] in *. subst response.
  set (prompt := approval_message _ _ _ _).
  cbn [cr_response cr_human_approval_required cr_operation_type].
  split; [reflexivity|]. split.
  - apply orb_true_iff. left. subst prompt. unfold approval_message.
    repeat first [ apply contains_app_l; vm_compute; reflexivity | apply contains_app_r ].
  - assert (Hdel : contains (u "DELETE") (upper prompt) = true)
      by apply approval_message_mentions_delete.
    rewrite Hdel.
    destruct (contains (u "SELECT") (upper prompt));
      [split; [cbn; auto | split; [discriminate | intros (? & _); discriminate]]|].
    destruct (contains (u "INSERT") (upper prompt));
      [split; [cbn; auto | split; [discriminate | intros (_ & ? & _); discriminate]]|].
    destruct (contains (u "UPDATE") (upper prompt));
      [split; [cbn; auto | split; [discriminate | intros (_ & _ & ?); discriminate]]|].
    split; [cbn; auto 6 | split; auto].
Qed.

End EndpointProperties.

(** ** The further properties at sample inputs *)

Lemma request_is_immutable_witness :
  exists a, pending_approvals sample_ledger !! sample_id = Some a /\
            same_request a (with_status EXPIRED approved_sample_request).
Proof.
  exact (request_is_immutable (H:=sample)
           [(seconds 10, CallDecide sample_id APPROVE (u "alice"));
            (seconds 400, CallStatus sample_id)]
           sample_id sample_ledger (with_status EXPIRED approved_sample_request)
           ltac:(repeat (constructor; [intros []|]); constructor)
           ltac:(vm_compute; reflexivity)).
Defined.

Lemma status_only_moves_forward_witness :
  exists s, status_of sample_id sample_ledger = Some s /\ may_follow s EXPIRED.
Proof.
  exact (status_only_moves_forward (H:=sample)
           [(seconds 10, CallDecide sample_id DENY (u "bob"));
            (seconds 400, CallStatus sample_id);
            (seconds 401, CallDecide sample_id APPROVE (u "alice"))]
           sample_id sample_ledger EXPIRED
           ltac:(repeat (constructor; [intros []|]); constructor)
           ltac:(vm_compute; reflexivity)).
Defined.

Lemma observed_expiry_blocks_decisions_witness :
  let read := (get_approval_status (seconds 400) sample_id sample_ledger).1 in
  let tried := approve_operation (seconds 400) sample_id (u "alice") sample_ledger in
  decide_operation (seconds 401) sample_id DENY (u "bob") read
    = (read, DecisionFailed (NotPending EXPIRED)) /\
  tried.2 = DecisionFailed Expired /\
  decide_operation (seconds 401) sample_id DENY (u "bob") tried.1
    = (tried.1, DecisionFailed (NotPending EXPIRED)).
Proof.
  exact (observed_expiry_blocks_decisions (seconds 400) sample_id sample_ledger
           sample_request
           ltac:(vm_compute; reflexivity) ltac:(reflexivity)
           ltac:(vm_compute; reflexivity)
           (seconds 401) DENY (u "bob") (u "alice")).
Defined.

Lemma leading_blanks_do_not_matter_witness :
  is_dangerous_operation (u "  " ++ u "DROP TABLE users")
  = is_dangerous_operation (u "DROP TABLE users").
Proof.
  exact (leading_blanks_do_not_matter (u "  ") (u "DROP TABLE users")
           ltac:(vm_compute; reflexivity)).
Defined.

Lemma dangerous_kind_is_leading_keyword_witness :
  In (operation_type (get_operation_info (H:=sample) (u "  drop table users")))
     dangerous_keywords /\
  ci_starts_with (operation_type (get_operation_info (H:=sample) (u "  drop table users")))
                 (lstrip (u "  drop table users")) = true.
Proof.
  exact (dangerous_kind_is_leading_keyword (H:=sample) (u "  drop table users")
           ltac:(vm_compute; reflexivity)).
Defined.

Lemma extracted_table_name_is_a_word_witness :
  u "users" <> [] /\ forallb (is_word (H:=sample)) (u "users") = true /\
  exists before rest,
    u "DROP TABLE users;" = before ++ u "users" ++ rest /\
    match rest with c :: _ => is_word (H:=sample) c = false | [] => True end.
Proof.
  exact (extracted_table_name_is_a_word (H:=sample) (u "DROP TABLE users;") (u "users")
           ltac:(vm_compute; reflexivity)).
Defined.

Lemma ordinary_turn_is_recorded_witness :
  let w : @World sample := fresh_world sample tt in
  let r := chat (seconds 1) (u "hello") (Some (u "t1")) w in
  let history :=
    match threads w !! u "t1" with Some saved => messages saved | None => [] end in
  exists st',
    threads r.1 = <[u "t1" := st']> (threads w) /\
    ((messages st' = history ++ [HumanMessage (u "hello")] /\
      r.2 = match last_ai_message history with
            | Some earlier => earlier
            | None => u "I'm sorry, I couldn't process your request. Please try again."
            end) \/
     messages st' = history ++ [HumanMessage (u "hello"); AIMessage r.2]).
Proof.
  exact (ordinary_turn_is_recorded (H:=sample) (seconds 1) (u "hello") (u "t1")
           (fresh_world sample tt) ltac:(vm_compute; reflexivity)).
Defined.

Lemma ordinary_turn_executes_only_safe_witness :
  let w : @World sample := fresh_world sample tt in
  let r := chat (seconds 1) (u "hello") None w in
  executed r.1 = executed w \/
  exists b q,
    generate_sql (database w) (u "hello") = Generated b q /\
    is_dangerous_operation q = false /\
    executed r.1 = executed w ++ [q].
Proof.
  exact (ordinary_turn_executes_only_safe (H:=sample) (seconds 1) (u "hello") None
           (fresh_world sample tt) ltac:(vm_compute; reflexivity)).
Defined.

Lemma dangerous_statement_is_gated_witness :
  let w : @World sample_drop := fresh_world sample_drop tt in
  let q := u "DROP TABLE users" in
  let id := @uuid4 sample_drop (uuid_draws w) in
  let created := create_approval_request (H:=sample_drop) id (seconds 1) q (manager w) in
  let deadline := (seconds 1 + timeout_seconds (manager w) * 1000000)%Z in
  let r := chat (seconds 1) (u "drop the users table") (Some (u "t1")) w in
  r.2 = approval_message (ar_operation_type created.2) (ar_table_name created.2) q id /\
  executed r.1 = executed w /\
  ((status_read_time (seconds 1) w <= deadline)%Z ->
   manager r.1 = created.1 /\
   pending_approvals (manager r.1) !! id = Some created.2) /\
  ((deadline < status_read_time (seconds 1) w)%Z -> truthy id = true ->
   pending_approvals (manager r.1) !! id = Some (with_status EXPIRED created.2) /\
   forall other, other <> id ->
     pending_approvals (manager r.1) !! other = pending_approvals (manager w) !! other) /\
  exists st' c,
    threads r.1 !! u "t1" = Some st' /\
    approval_pending st' = Some true /\ approval_id st' = Some id /\
    context st' = Some c /\ cx_sql_executed c = Some q.
Proof.
  exact (dangerous_statement_is_gated (H:=sample_drop) (seconds 1)
           (u "drop the users table") (u "t1") (fresh_world sample_drop tt)
           (u "database_operation") false (u "DROP TABLE users")
           ltac:(vm_compute; reflexivity) ltac:(reflexivity)
           ltac:(vm_compute; reflexivity) ltac:(reflexivity)
           ltac:(vm_compute; reflexivity)).
Defined.

Lemma continuation_runs_only_approved_witness :
  let w : @World sample_drop := approved_world in
  let r := chat (seconds 3) (u "__DENIED__") (Some (u "t1")) w in
  threads r.1 = threads w /\
  (executed r.1 = executed w \/
   exists values aid a c sql,
     threads w !! u "t1" = Some values /\ approval_id values = Some aid /\
     pending_approvals (manager w) !! aid = Some a /\
     ar_status a = APPROVED /\ _is_expired (seconds 3) a = false /\
     context values = Some c /\ cx_sql_executed c = Some sql /\
     executed r.1 = executed w ++ [sql]).
Proof.
  exact (continuation_runs_only_approved (H:=sample_drop) (seconds 3) (u "__DENIED__")
           (Some (u "t1")) approved_world ltac:(vm_compute; reflexivity)).
Defined.

Lemma unapproved_continuation_is_refused_witness :
  let a := (create_approval_request (H:=sample_drop) (@uuid4 sample_drop 0) (seconds 1)
              (u "DROP TABLE users") (new_manager 5)).2 in
  let r := chat (seconds 3) (u "__APPROVED__") (Some (u "t1")) gated_world in
  executed r.1 = executed gated_world /\ database r.1 = database gated_world /\
  r.2 = (if negb (_is_expired (seconds 3) a) && bool_decide (ar_status a = DENIED)
         then cancelled_reply else no_pending_reply) /\
  status_of (@uuid4 sample_drop 0) (manager r.1)
  = Some (if _is_expired (seconds 3) a then EXPIRED else ar_status a).
Proof.
  exact (unapproved_continuation_is_refused (H:=sample_drop) (seconds 3)
           (u "__APPROVED__") (u "t1") gated_world approved_thread (@uuid4 sample_drop 0)
           (create_approval_request (H:=sample_drop) (@uuid4 sample_drop 0) (seconds 1)
              (u "DROP TABLE users") (new_manager 5)).2
           ltac:(vm_compute; reflexivity) ltac:(vm_compute; reflexivity)
           ltac:(reflexivity) ltac:(reflexivity)
           ltac:(vm_compute; reflexivity)
           ltac:(left; vm_compute; discriminate)).
Defined.

Lemma approved_statement_runs_on_continuation_witness :
  let w : @World sample_drop := fresh_world sample_drop tt in
  let id := @uuid4 sample_drop (uuid_draws w) in
  let w1 := (chat (seconds 1) (u "drop the users table") (Some (u "t1")) w).1 in
  let d := approve_operation (seconds 2) id (u "alice") (manager w1) in
  let r := chat (seconds 3) (u "__APPROVED__") (Some (u "t1")) (with_manager d.1 w1) in
  d.2 = DecisionOk id APPROVED /\
  executed r.1 = executed w ++ [u "DROP TABLE users"].
Proof.
  exact (approved_statement_runs_on_continuation (H:=sample_drop)
           (seconds 1) (seconds 2) (seconds 3)
           (u "drop the users table") (u "t1") (fresh_world sample_drop tt)
           (u "database_operation") false (u "DROP TABLE users") (u "alice")
           ltac:(vm_compute; reflexivity) ltac:(reflexivity)
           ltac:(vm_compute; reflexivity) ltac:(reflexivity)
           ltac:(vm_compute; reflexivity) ltac:(reflexivity)
           ltac:(vm_compute; discriminate) ltac:(vm_compute; discriminate)
           ltac:(vm_compute; discriminate)).
Defined.

Lemma denied_statement_never_runs_witness :
  let w : @World sample_drop := fresh_world sample_drop tt in
  let id := @uuid4 sample_drop (uuid_draws w) in
  let deadline := (seconds 1 + timeout_seconds (manager w) * 1000000)%Z in
  let w1 := (chat (seconds 1) (u "drop the users table") (Some (u "t1")) w).1 in
  let d := deny_operation (seconds 2) id (u "bob") (manager w1) in
  let r := chat (seconds 3) (u "__APPROVED__") (Some (u "t1")) (with_manager d.1 w1) in
  executed r.1 = executed w /\
  ((status_read_time (seconds 1) w <= deadline)%Z ->
   d.2 = DecisionOk id DENIED /\
   ((seconds 3 <= deadline)%Z -> r.2 = cancelled_reply)) /\
  ((deadline < status_read_time (seconds 1) w)%Z ->
   d.2 = DecisionFailed (NotPending EXPIRED) /\ r.2 = no_pending_reply).
Proof.
  exact (denied_statement_never_runs (H:=sample_drop)
           (seconds 1) (seconds 2) (seconds 3)
           (u "drop the users table") (u "__APPROVED__") (u "t1")
           (fresh_world sample_drop tt)
           (u "database_operation") false (u "DROP TABLE users") (u "bob")
           ltac:(vm_compute; reflexivity) ltac:(vm_compute; reflexivity)
           ltac:(reflexivity)
           ltac:(vm_compute; reflexivity) ltac:(reflexivity)
           ltac:(vm_compute; reflexivity) ltac:(reflexivity)).
Defined.

Lemma unstopped_stream_delivers_reply_witness :
  let d := deliver sample_session (u "t1") (u "say ten words")
             (Pull 1 :: eleven_pulls) Created sample_server in
  let r := chat 1 (u "say ten words") (Some (u "t1")) (agent sample_server) in
  streamed_text d.2 = join (u " ") (split_ws r.2) /\
  Forall (fun c => is_text c = true) d.2 /\
  active_sessions d.1.1 = delete sample_session (active_sessions sample_server) /\
  agent d.1.1 = r.1.
Proof.
  exact (unstopped_stream_delivers_reply (H:=sample)
           sample_session (u "t1") (u "say ten words") 1 eleven_pulls sample_server
           registered_session
           (deliver sample_session (u "t1") (u "say ten words")
              (Pull 1 :: eleven_pulls) Created sample_server).1.1
           (deliver sample_session (u "t1") (u "say ten words")
              (Pull 1 :: eleven_pulls) Created sample_server).2
           ltac:(vm_compute; reflexivity) ltac:(reflexivity)
           ltac:(repeat constructor)
           ltac:(vm_compute; reflexivity) ltac:(vm_compute; reflexivity)).
Defined.

Lemma approval_prompt_is_one_chunk_witness :
  let sv : @Server sample_drop := {| agent := fresh_world sample_drop tt; active_sessions := ∅ |} in
  let q := u "DROP TABLE users" in
  let id := @uuid4 sample_drop (uuid_draws (agent sv)) in
  let created := create_approval_request (H:=sample_drop) id (seconds 1) q (manager (agent sv)) in
  let prompt :=
    approval_message (ar_operation_type created.2) (ar_table_name created.2) q id in
  exists sv',
    deliver (u "s1") (u "t1") (u "drop the users table")
      [Pull (seconds 1); Pull (seconds 2)] Created sv
    = (sv', Finished, [ApprovalChunk prompt]) /\
    active_sessions sv' = delete (u "s1") (active_sessions sv) /\
    executed (agent sv') = executed (agent sv).
Proof.
  exact (approval_prompt_is_one_chunk (H:=sample_drop)
           (u "s1") (u "t1") (u "drop the users table") (seconds 1) (seconds 2)
           {| agent := fresh_world sample_drop tt; active_sessions := ∅ |}
           (u "database_operation") false (u "DROP TABLE users")
           ltac:(vm_compute; reflexivity) ltac:(reflexivity)
           ltac:(vm_compute; reflexivity) ltac:(reflexivity)
           ltac:(vm_compute; reflexivity) ltac:(vm_compute; discriminate)).
Defined.

Lemma chat_endpoint_reports_default_thread_witness :
  let w : @World sample := fresh_world sample tt in
  let r := chat_endpoint (seconds 1) (u "hello") None w in
  let fresh := @uuid4 sample (uuid_draws w) in
  cr_thread_id r.2 = u "default" /\
  (exists st', threads r.1 = <[fresh := st']> (threads w)) /\
  (fresh <> u "default" -> threads r.1 !! u "default" = threads w !! u "default").
Proof.
  exact (chat_endpoint_reports_default_thread (H:=sample) (seconds 1) (u "hello")
           (fresh_world sample tt) ltac:(vm_compute; reflexivity)).
Defined.

Lemma chat_endpoint_labels_approval_prompt_witness :
  let w : @World sample_drop := fresh_world sample_drop tt in
  let q := u "DROP TABLE users" in
  let id := @uuid4 sample_drop (uuid_draws w) in
  let created := create_approval_request (H:=sample_drop) id (seconds 1) q (manager w) in
  let prompt :=
    approval_message (ar_operation_type created.2) (ar_table_name created.2) q id in
  let r := chat_endpoint (seconds 1) (u "drop the users table") (Some (u "t1")) w in
  cr_response r.2 = prompt /\
  cr_human_approval_required r.2 = true /\
  In (cr_operation_type r.2)
     [Some (u "SELECT"); Some (u "INSERT"); Some (u "UPDATE"); Some (u "DELETE")] /\
  (cr_operation_type r.2 = Some (u "DELETE") <->
   contains (u "SELECT") (upper prompt) = false /\
   contains (u "INSERT") (upper prompt) = false /\
   contains (u "UPDATE") (upper prompt) = false).
Proof.
  exact (chat_endpoint_labels_approval_prompt (H:=sample_drop) (seconds 1)
           (u "drop the users table") (u "t1") (fresh_world sample_drop tt)
           (u "database_operation") false (u "DROP TABLE users")
           ltac:(vm_compute; reflexivity) ltac:(reflexivity)
           ltac:(vm_compute; reflexivity) ltac:(reflexivity)
           ltac:(vm_compute; reflexivity) ltac:(vm_compute; discriminate)).
Defined.
